(** * Sandbox abstraction and tool dispatch of the browser agent

    A shallow embedding of [src/lib/sandbox-provider.ts],
    [src/lib/supabase-memory.ts] and the agent route of
    [src/app/api/stt/route.ts] (the second document of that file), with the
    properties of the specification stated over it; and of the two voice
    routes (the first document of that file and the second document of
    [src/supabase/agent-memory.sql]). *)

From Stdlib Require Import ZArith Ascii String List Bool Lia DecimalString.
From stdpp Require Import base option list gmap strings.

Local Open Scope string_scope.

(** ** JavaScript values as the code uses them

    The request fields and the environment variables are strings that may be
    absent: [option string], [None] standing for [undefined] and [null]. *)

Module Js.

(** [!!v] for an optional string: [undefined], [null] and the empty string
    are falsy. *)
Definition truthy (v : option string) : bool :=
  match v with
  | Some s => negb (String.eqb s "")
  | None => false
  end.

(** [a || b] on optional strings. *)
Definition or (a b : option string) : option string :=
  if truthy a then a else b.

(** [a || "literal"]. *)
Definition or_lit (a : option string) (d : string) : string :=
  match a with
  | Some s => if String.eqb s "" then d else s
  | None => d
  end.

(** [a ?? d]. *)
Definition nullish {A} (a : option A) (d : A) : A :=
  match a with Some x => x | None => d end.

Definition lower_ascii (c : ascii) : ascii :=
  let n := nat_of_ascii c in
  if (65 <=? n)%nat && (n <=? 90)%nat then ascii_of_nat (n + 32) else c.

(** [s.toLowerCase()]. Strings are byte strings (UTF-8); only A-Z are
    mapped. No character outside A-Z lowers to one of the letters of
    [vps], so the comparison with that literal is the source's. *)
Fixpoint toLowerCase (s : string) : string :=
  match s with
  | EmptyString => EmptyString
  | String c r => String (lower_ascii c) (toLowerCase r)
  end.

(** [s.startsWith(p)]. *)
Definition startsWith (s p : string) : bool := String.prefix p s.

(** The white space [trim] removes, within ASCII: TAB, LF, VT, FF, CR and
    space. *)
Definition is_space (c : ascii) : bool :=
  let n := nat_of_ascii c in
  ((9 <=? n)%nat && (n <=? 13)%nat) || (n =? 32)%nat.

Fixpoint trimStart (s : string) : string :=
  match s with
  | EmptyString => EmptyString
  | String c r => if is_space c then trimStart r else s
  end.

Fixpoint trimEnd (s : string) : string :=
  match s with
  | EmptyString => EmptyString
  | String c r =>
      match trimEnd r with
      | EmptyString => if is_space c then EmptyString else String c EmptyString
      | r' => String c r'
      end
  end.

Definition trim (s : string) : string := trimEnd (trimStart s).

(** [s.replace(/\/+$/, "")]: the trailing slashes removed. *)
Fixpoint stripTrailingSlashes (s : string) : string :=
  match s with
  | EmptyString => EmptyString
  | String c r =>
      match stripTrailingSlashes r with
      | EmptyString =>
          if Ascii.eqb c "/" then EmptyString else String c EmptyString
      | r' => String c r'
      end
  end.

(** [String(n)] and a number inside a template literal, for integers. *)
Definition string_of_Z (z : Z) : string :=
  NilZero.string_of_int (Z.to_int z).

(** [Math.ceil(a / b)] for integers, [b] positive. *)
Definition ceil_div (a b : Z) : Z := (- ((- a) / b))%Z.

Definition hex_digit (n : nat) : ascii :=
  match String.get n "0123456789abcdef" with
  | Some c => c
  | None => "0"%char
  end.

Definition escape_char (c : ascii) : string :=
  let n := nat_of_ascii c in
  if (n =? 34)%nat then String "\" (String c EmptyString)
  else if (n =? 92)%nat then String c (String c EmptyString)
  else if (n =? 8)%nat then "\b"
  else if (n =? 9)%nat then "\t"
  else if (n =? 10)%nat then "\n"
  else if (n =? 12)%nat then "\f"
  else if (n =? 13)%nat then "\r"
  else if (n <? 32)%nat
       then "\u00" ++ String (hex_digit (n / 16))
                        (String (hex_digit (n mod 16)) EmptyString)
  else String c EmptyString.

Fixpoint escape (s : string) : string :=
  match s with
  | EmptyString => EmptyString
  | String c r => escape_char c ++ escape r
  end.

(** [JSON.stringify(s)] of a string. *)
Definition stringify (s : string) : string :=
  let q := String (ascii_of_nat 34) EmptyString in
  q ++ escape s ++ q.

Definition b64_digit (n : nat) : ascii :=
  match String.get n
    "ABCDEFGHIJKLMNOPQRSTUVWXYZabcdefghijklmnopqrstuvwxyz0123456789+/" with
  | Some c => c
  | None => "="%char
  end.

(** [buffer.toString("base64")] of the bytes [s]. *)
Fixpoint base64 (s : string) : string :=
  match s with
  | EmptyString => EmptyString
  | String a EmptyString =>
      let a := nat_of_ascii a in
      String (b64_digit (a / 4))
        (String (b64_digit (a mod 4 * 16)) "==")
  | String a (String b EmptyString) =>
      let a := nat_of_ascii a in
      let b := nat_of_ascii b in
      String (b64_digit (a / 4))
        (String (b64_digit (a mod 4 * 16 + b / 16))
           (String (b64_digit (b mod 16 * 4)) "="))
  | String a (String b (String c r)) =>
      let a := nat_of_ascii a in
      let b := nat_of_ascii b in
      let c := nat_of_ascii c in
      String (b64_digit (a / 4))
        (String (b64_digit (a mod 4 * 16 + b / 16))
           (String (b64_digit (b mod 16 * 4 + c / 64))
              (String (b64_digit (c mod 64)) (base64 r))))
  end.

(** [s.includes(part)] *)
Definition includes (s part : string) : bool :=
  match String.index 0 part s with
  | Some _ => true
  | None => false
  end.

(** [s.slice(0, n)] *)
Definition slice0 (n : nat) (s : string) : string := String.substring 0 n s.

End Js.

(** [process.env]: a read-only map from variable names to values. *)
Abbreviation Env := (gmap string string).

(** ** [src/lib/sandbox-provider.ts] *)

Inductive SandboxProvider := kernel | vps.

Record VpsSandboxConfig := {
  vc_sessionId : string;
  vc_liveViewUrl : string;
  vc_cdpWsUrl : string;
}.

Definition resolveSandboxProvider (env : Env) (input : option string)
  : SandboxProvider :=
  let raw :=
    Js.toLowerCase
      (Js.or_lit (Js.or input (env !! "SANDBOX_PROVIDER")) "kernel") in
  if String.eqb raw "vps" then vps else kernel.

Definition getVpsSandboxConfig (env : Env) : option VpsSandboxConfig :=
  let liveViewUrl := env !! "VPS_SANDBOX_LIVE_VIEW_URL" in
  let cdpWsUrl := env !! "VPS_SANDBOX_CDP_WS_URL" in
  let sessionId :=
    Js.or_lit (env !! "VPS_SANDBOX_SESSION_ID") "vps-sandbox-session" in
  match liveViewUrl, cdpWsUrl with
  | Some l, Some c =>
      if String.eqb l "" || String.eqb c "" then None
      else Some {| vc_sessionId := sessionId;
                   vc_liveViewUrl := l;
                   vc_cdpWsUrl := c |}
  | _, _ => None
  end.

(** ** Data model *)

Inductive Button := btn_left | btn_middle | btn_right.

(** A page of the browser context. [pid] is the identity of the page object
    ([!==] in the source compares page objects). *)
Record Page := { pid : nat; page_url : string }.

Inductive Action :=
  | navigate | click | move | type_text | key_press | scroll | wait
  | screenshot.

(** The input of [computer_use], as [computerUseInputSchema] admits it:
    every parameter but the action is optional. Coordinates and deltas are
    passed through unchanged and are taken as integers. *)
Record ComputerUseInput := {
  in_action : Action;
  in_url : option string;
  in_x : option Z;
  in_y : option Z;
  in_button : option Button;
  in_text : option string;
  in_key : option string;
  in_deltaX : option Z;
  in_deltaY : option Z;
  in_waitMs : option Z;
  in_fullPage : option bool;
}.

(** An input with the action alone. *)
Definition bare (a : Action) : ComputerUseInput :=
  {| in_action := a; in_url := None; in_x := None; in_y := None;
     in_button := None; in_text := None; in_key := None;
     in_deltaX := None; in_deltaY := None; in_waitMs := None;
     in_fullPage := None |}.

(** [SessionMemoryItem] and [SaveSessionMemoryInput] of
    [supabase-memory.ts]. *)
Record SessionMemoryItem := {
  mi_task : string;
  mi_response : option string;
  mi_model_role : string;
  mi_model_name : string;
  mi_llm_provider : string;
  mi_step_count : option Z;
  mi_created_at : string;
}.

Record SaveSessionMemoryInput := {
  sv_sessionId : string;
  sv_task : string;
  sv_response : string;
  sv_modelRole : string;
  sv_modelName : string;
  sv_llmProvider : string;
  sv_stepCount : nat;
  sv_success : bool;
}.

(** What the model asks for in one turn. *)
Inductive ToolInput :=
  | computer_use_input (input : ComputerUseInput)
  | playwright_input (code : string).

Record ToolCall := { tc_toolCallId : string; tc_input : ToolInput }.

Record ModelTurn := {
  mt_text : string;
  mt_toolCalls : list ToolCall;
  mt_finishReason : option string;
  mt_usage : string;
}.

(** ** The sandbox and its environment

    The route talks to a remote browser, to the managed execution service, to
    the memory store and to the model. Every such call is an [Op]; what the
    outside answers is an oracle of the world, asked with the history of the
    calls made so far. Every call is recorded with its outcome. *)

Inductive Op :=
  (* playwright-core over the remote-debugging WebSocket *)
  | connectOverCDP (cdpWsUrl : string)
  | browser_close
  | context_newPage
  | page_close (p : nat)
  | page_bringToFront (p : nat)
  | page_goto (p : nat) (url : string)
  | page_title (p : nat)
  | page_waitForTimeout (p : nat) (ms : Z)
  | page_screenshot (p : nat) (fullPage : bool)
  | mouse_click (p : nat) (x y : Z) (b : Button)
  | mouse_move (p : nat) (x y : Z)
  | mouse_wheel (p : nat) (dx dy : Z)
  | keyboard_type (p : nat) (text : string)
  | keyboard_press (p : nat) (key : string)
  | execute_code (p : nat) (code : string)
  (* the managed service, keyed by session id *)
  | kernel_playwright_execute (sessionId code : string) (timeout_sec : Z)
  | kernel_clickMouse (sessionId : string) (x y : Z) (b : Button)
  | kernel_moveMouse (sessionId : string) (x y : Z)
  | kernel_typeText (sessionId text : string)
  | kernel_pressKey (sessionId key : string)
  | kernel_scroll (sessionId : string) (x y dx dy : Z)
  | kernel_captureScreenshot (sessionId : string)
  | response_arrayBuffer (sessionId : string)
  (* HTTP: the reachability probe and the memory store *)
  | fetch_models (url : string)
  | memory_select (url table key sessionId : string) (limit : Z)
  | memory_insert (url table key : string) (row : SaveSessionMemoryInput)
  (* the model *)
  | model_generate (baseURL model prompt : string)
  (* console.warn / console.error *)
  | console_warn (msg : string)
  (* a call made by a text run in the process of the route (see [Script]):
     it is the text's call, not one the route makes itself *)
  | from_code (op : Op)
  (* any other call such a text may make: an HTTP request to any address, a
     file, a process; the route makes none *)
  | other_call (what : string).

Record Event := { ev_op : Op; ev_ok : bool }.

(** The outcome of a call: it throws an [Error] with a message, or it
    returns. Also the outcome of every [async] function of the source. *)
Inductive Result (A : Type) :=
  | Throw (message : string)
  | Ok (a : A).
Arguments Throw {A} message.
Arguments Ok {A} a.

(** A [Response] of [fetch]: its [ok] flag, what [text()] gives and what
    [json()] gives ([Throw] when the body is not JSON, [Ok None] for JSON
    that is not an array, [Ok (Some rows)] for an array). *)
Record HttpResponse := {
  resp_ok : bool;
  resp_text : Result string;
  resp_json : Result (option (list SessionMemoryItem));
}.

(** What a text does that is handed to [new AsyncFunction] and called with
    the page, the context and the browser. It runs in the process of the
    route, so besides the handles it is given it reaches [fetch], the
    environment and the console: it may make any call, to the browser it was
    given, to another endpoint, to the memory store, to anything else
    ([other_call]). A [Script] is such a run: it returns a value or throws,
    or it makes a call and goes on by the answer, or it looks at the open
    pages and goes on by what it sees. A text that does not parse is a
    script that throws at once. The environment and the globals of the
    process are taken to stay as they are. *)
Inductive Script :=
  | script_return (result : string)
  | script_throw (message : string)
  | script_call (op : Op) (next : Result string -> Script)
  | script_pages (next : list Page -> Script).

(** The outside: what a call is answered, what the text of an
    [execute_code] does when it is run ([o_code], asked like a call, with
    the history), and the URL parser of the platform ([o_url]: [new URL(text)]
    returns, or throws a [TypeError]). *)
Record Oracle := {
  o_reply : list Event -> Op -> Result string;
  o_fetch : list Event -> Op -> Result HttpResponse;
  o_model : list Event -> Op -> Result ModelTurn;
  o_code : list Event -> Op -> Script;
  o_url : string -> Result unit;
}.

Record World := {
  w_pages : list Page;        (* open pages, in enumeration order *)
  w_has_context : bool;       (* browser.contexts()[0] exists *)
  w_next_pid : nat;           (* identity of the next page created *)
  w_oracle : Oracle;
  w_trace : list Event;       (* oldest first *)
}.

Definition with_pages (ps : list Page) (w : World) : World :=
  {| w_pages := ps; w_has_context := w_has_context w;
     w_next_pid := w_next_pid w; w_oracle := w_oracle w;
     w_trace := w_trace w |}.

Definition record_event (e : Event) (w : World) : World :=
  {| w_pages := w_pages w; w_has_context := w_has_context w;
     w_next_pid := w_next_pid w; w_oracle := w_oracle w;
     w_trace := w_trace w ++ [e] |}.

(** ** Computations that may throw

    An [async] function of the source is a state transformer on the world
    that either returns a value or throws. *)

Definition M (A : Type) : Type := World -> Result A * World.

#[global] Instance M_ret : MRet M := fun A a w => (Ok a, w).

#[global] Instance M_bind : MBind M := fun A B f m w =>
  match m w with
  | (Ok a, w') => f a w'
  | (Throw e, w') => (Throw e, w')
  end.

Definition throw {A} (message : string) : M A := fun w => (Throw message, w).

(** [try { m } catch (e) { h e }] *)
Definition try_catch {A} (m : M A) (h : string -> M A) : M A := fun w =>
  match m w with
  | (Throw e, w') => h e w'
  | r => r
  end.

(** [try { m } finally { f }] *)
Definition try_finally {A} (m : M A) (f : M unit) : M A := fun w =>
  let '(r, w') := m w in
  match f w' with
  | (Ok _, w'') => (r, w'')
  | (Throw e, w'') => (Throw e, w'')
  end.

(** [try { await m } catch {}] and [m.catch(() => undefined)] *)
Definition swallow {A} (m : M A) : M unit :=
  try_catch (_ ← m; mret tt) (fun _ => mret tt).

(** [for (const x of xs) { body x }] *)
Fixpoint for_of {A} (xs : list A) (body : A -> M unit) : M unit :=
  match xs with
  | [] => mret tt
  | x :: rest => body x;; for_of rest body
  end.

(** A value of the outside taken up by the program: [Throw] throws. *)
Definition settle {A} (r : Result A) : M A := fun w => (r, w).

Definition succeeded {A} (r : Result A) : bool :=
  match r with Ok _ => true | Throw _ => false end.

(** One call to the outside: answered by the oracle and recorded. *)
Definition ask {A} (oracle : Oracle -> list Event -> Op -> Result A)
    (op : Op) : M A := fun w =>
  let r := oracle (w_oracle w) (w_trace w) op in
  (r, record_event {| ev_op := op; ev_ok := succeeded r |} w).

Definition call (op : Op) : M string := ask o_reply op.
Definition fetch (op : Op) : M HttpResponse := ask o_fetch op.
Definition generateText (op : Op) : M ModelTurn := ask o_model op.

Definition warn (msg : string) : M unit := fun w =>
  (Ok tt, record_event {| ev_op := console_warn msg; ev_ok := true |} w).

(** [new URL(text)]: no call to the outside, so nothing is recorded. *)
Definition new_URL (text : string) : M unit := fun w =>
  (o_url (w_oracle w) text, w).

(** Reading and updating the state of the browser. *)
Definition read {A} (f : World -> A) : M A := fun w => (Ok (f w), w).
Definition update (f : World -> World) : M unit := fun w => (Ok tt, f w).

(** *** The page handles of playwright *)

(** [browser.contexts()[0]]: is there a first context. *)
Definition first_context : M bool := read w_has_context.

(** [context.pages()] *)
Definition context_pages : M (list Page) := read w_pages.

Definition same_page (p : nat) (q : Page) : bool := Nat.eqb (pid q) p.

(** [page.url()] of the page object [p]; a page no longer open has no
    record and reads as the empty string. *)
Definition url_of (p : nat) : M string :=
  read (fun w => match List.find (same_page p) (w_pages w) with
                 | Some q => page_url q
                 | None => ""
                 end).

Definition add_blank_page (w : World) : World :=
  {| w_pages :=
       w_pages w ++ [{| pid := w_next_pid w; page_url := "about:blank" |}];
     w_has_context := w_has_context w;
     w_next_pid := S (w_next_pid w); w_oracle := w_oracle w;
     w_trace := w_trace w |}.

(** [await context.newPage()]: a blank page at the end of the enumeration. *)
Definition newPage : M Page :=
  _ ← call context_newPage;
  p ← read (fun w => {| pid := w_next_pid w; page_url := "about:blank" |});
  update add_blank_page;;
  mret p.

(** [await page.close()]: when it resolves the page is gone from
    [context.pages()]; when it rejects the page stays. *)
Definition close_page (p : nat) : M unit :=
  _ ← call (page_close p);
  update (fun w =>
    with_pages (List.filter (fun q => negb (same_page p q)) (w_pages w)) w).

Definition bringToFront (p : nat) : M unit :=
  _ ← call (page_bringToFront p); mret tt.

(** [await page.goto(url, ...)]: when it resolves the page shows [url]. *)
Definition goto (p : nat) (url : string) : M unit :=
  _ ← call (page_goto p url);
  update (fun w =>
    with_pages
      (List.map (fun q => if same_page p q
                          then {| pid := p; page_url := url |} else q)
                (w_pages w)) w).

(** *** Running a text in the process *)

(** What a call that resolved did to the pages of the browser, as for the
    calls the route makes itself: a closed page is gone, a new page is blank
    and last, a page that navigated shows the URL. *)
Definition effect_of (op : Op) (w : World) : World :=
  match op with
  | context_newPage => add_blank_page w
  | page_close p =>
      with_pages (List.filter (fun q => negb (same_page p q)) (w_pages w)) w
  | page_goto p url =>
      with_pages
        (List.map (fun q => if same_page p q
                            then {| pid := p; page_url := url |} else q)
                  (w_pages w)) w
  | _ => w
  end.

(** One call of a text: answered by the oracle and recorded as the text's;
    the text goes on with the answer, also when the call throws. *)
Definition code_call (op : Op) : M string :=
  r ← call (from_code op);
  update (effect_of op);;
  mret r.

Fixpoint run_script (s : Script) (w : World) : Result string * World :=
  match s with
  | script_return result => (Ok result, w)
  | script_throw message => (Throw message, w)
  | script_call op next =>
      let '(r, w') := code_call op w in run_script (next r) w'
  | script_pages next => run_script (next (w_pages w)) w
  end.

(** [new AsyncFunction("page", "context", "browser", code)] called with the
    handles and awaited. The run is recorded with its outcome, after the
    calls the text made. *)
Definition executeCode (page : nat) (code : string) : M string := fun w =>
  let '(r, w') :=
    run_script (o_code (w_oracle w) (w_trace w) (execute_code page code)) w in
  (r, record_event
        {| ev_op := execute_code page code; ev_ok := succeeded r |} w').

(** *** Worlds to run the definitions on *)

Definition always_ok : Oracle :=
  {| o_reply := fun _ _ => Ok "";
     o_fetch := fun _ _ =>
       Ok {| resp_ok := true; resp_text := Ok ""; resp_json := Ok (Some []) |};
     o_model := fun _ _ =>
       Ok {| mt_text := "done"; mt_toolCalls := [];
             mt_finishReason := Some "stop"; mt_usage := "" |};
     o_code := fun _ _ => script_return "";
     o_url := fun _ => Ok tt |}.

Definition world_of (pages : list Page) (oracle : Oracle) : World :=
  {| w_pages := pages; w_has_context := true;
     w_next_pid := S (list_max (List.map pid pages));
     w_oracle := oracle; w_trace := [] |}.

Definition three_tabs : list Page :=
  [ {| pid := 0; page_url := "chrome-extension://abc/popup.html" |};
    {| pid := 1; page_url := "about:blank" |};
    {| pid := 2; page_url := "https://example.com/" |} ].

(** An outside where every [page.close()] fails and all else succeeds. *)
Definition closes_fail : Oracle :=
  {| o_reply := fun _ op =>
       match op with
       | page_close _ => Throw "Target page, context or browser has been closed"
       | _ => Ok ""
       end;
     o_fetch := o_fetch always_ok;
     o_model := o_model always_ok;
     o_code := o_code always_ok;
     o_url := o_url always_ok |}.

Definition two_tabs : list Page :=
  [ {| pid := 0; page_url := "https://example.com/" |};
    {| pid := 1; page_url := "https://example.org/" |} ].

(** An outside whose remote-debugging endpoint refuses the connection. *)
Definition unreachable : Oracle :=
  {| o_reply := fun _ op =>
       match op with
       | connectOverCDP _ => Throw "connect ECONNREFUSED"
       | _ => Ok ""
       end;
     o_fetch := o_fetch always_ok;
     o_model := o_model always_ok;
     o_code := o_code always_ok;
     o_url := o_url always_ok |}.

(** ** Session normalizer and backend connector ([route.ts]) *)

Definition dq : string := String (ascii_of_nat 34) EmptyString.

(** The predicate both [find] calls of the source use: the page is neither
    an extension page nor the blank placeholder. *)
Definition is_content_page (p : Page) : bool :=
  negb (Js.startsWith (page_url p) "chrome-extension://")
  && negb (String.eqb (page_url p) "about:blank").

(** [pages.find(...) ?? pages[0]]; [undefined] on the empty array. *)
Definition selectPrimaryPage (pages : list Page) : option Page :=
  match List.find is_content_page pages with
  | Some p => Some p
  | None => head pages
  end.

Record NormalizationReport := {
  pageCountBefore : nat;
  pageCountAfter : nat;
  primaryUrl : option string;
}.

(** The text sent to the managed service. *)
Definition normalizeScriptSource : string :=
  "
const pages = context.pages();
if (!pages.length) {
  return { pageCountBefore: 0, pageCountAfter: 0 };
}

const primaryPage =
  pages.find(
    (p) =>
      !p.url().startsWith(" ++ dq ++ "chrome-extension://" ++ dq ++ ") &&
      p.url() !== " ++ dq ++ "about:blank" ++ dq ++ "
  ) ?? pages[0];

for (const currentPage of pages) {
  if (currentPage !== primaryPage) {
    try {
      await currentPage.close();
    } catch {}
  }
}

try {
  await primaryPage.bringToFront();
} catch {}

return {
  pageCountBefore: pages.length,
  pageCountAfter: context.pages().length,
  primaryUrl: primaryPage.url(),
};
      ".

(** What that text does when it runs against the session's browser. *)
Definition normalizeScript : M NormalizationReport :=
  pages ← context_pages;
  match pages with
  | [] =>
      mret {| pageCountBefore := 0; pageCountAfter := 0; primaryUrl := None |}
  | first :: _ =>
      let primaryPage := Js.nullish (List.find is_content_page pages) first in
      for_of pages (fun currentPage =>
        if negb (same_page (pid primaryPage) currentPage)
        then swallow (close_page (pid currentPage))
        else mret tt);;
      swallow (bringToFront (pid primaryPage));;
      after ← context_pages;
      url ← url_of (pid primaryPage);
      mret {| pageCountBefore := length pages;
              pageCountAfter := length after;
              primaryUrl := Some url |}
  end.

(** [kernel.browsers.playwright.execute(sessionId, { code, timeout_sec })]
    for a text whose behaviour [script] is known: the request may be refused
    or time out (it throws); once accepted the text runs in the session's
    browser, and an exception of the text comes back as a failed result. *)
Definition kernel_execute {A} (sessionId code : string) (timeout_sec : Z)
    (script : M A) : M (Result A) :=
  _ ← call (kernel_playwright_execute sessionId code timeout_sec);
  try_catch (a ← script; mret (Ok a)) (fun e => mret (Throw e)).

Definition normalizeToSinglePageKernel (sessionId : string) : M unit :=
  try_catch
    (_ ← kernel_execute sessionId normalizeScriptSource 20 normalizeScript;
     mret tt)
    (fun error =>
       warn ("Failed to normalize browser pages before agent run: " ++ error)).

(** [withVpsBrowser(cdpWsUrl, run)]. The callback receives the context, the
    page and the browser; the context and the browser are those of the
    world, so [run] takes the page. *)
Definition withVpsBrowser {T} (cdpWsUrl : string) (run : nat -> M T) : M T :=
  _ ← call (connectOverCDP cdpWsUrl);
  try_finally
    (context ← first_context;
     if negb context
     then throw "No browser context found on VPS CDP endpoint"
     else
       pages ← context_pages;
       page ← match selectPrimaryPage pages with
              | Some p => mret p
              | None => newPage
              end;
       run (pid page))
    (swallow (call browser_close)).

Definition normalizeToSinglePageVps (cdpWsUrl : string) : M unit :=
  try_catch
    (_ ← withVpsBrowser cdpWsUrl (fun page =>
           pages ← context_pages;
           for_of pages (fun currentPage =>
             if negb (same_page page currentPage)
             then swallow (close_page (pid currentPage))
             else mret tt);;
           swallow (bringToFront page);;
           after ← context_pages;
           mret (length after));
     mret tt)
    (fun error => warn ("Failed to normalize VPS browser pages: " ++ error)).

(** ** Tool set ([route.ts]) *)

(** What a tool returns. *)
Inductive ToolValue :=
  | tv_success                                          (* { success: true } *)
  | tv_page (url title : string)            (* { success: true, url, title } *)
  | tv_service (payload : string)      (* the answer of the managed service *)
  | tv_screenshot (bytes : nat) (contentType : string)
  | tv_screenshot_preview (bytes : nat) (preview url title : string)
  | tv_executed (result : string)              (* { success: true, result } *)
  | tv_failed (error : string).                (* { success: false, error } *)

(** [!v] for an optional string. *)
Definition falsy (v : option string) : bool := negb (Js.truthy v).

Definition navigate_code (url : string) : string :=
  "await page.goto(" ++ Js.stringify url ++ ", { waitUntil: " ++ dq
  ++ "domcontentloaded" ++ dq
  ++ " }); return { url: page.url(), title: await page.title() };".

Definition wait_code (waitMs : Z) : string :=
  "await page.waitForTimeout(" ++ Js.string_of_Z waitMs
  ++ "); return { waitedMs: " ++ Js.string_of_Z waitMs ++ " };".

(** The [execute] of [createKernelComputerUseTool(kernel, sessionId)]. *)
Definition createKernelComputerUseTool (sessionId : string)
    (input : ComputerUseInput) : M ToolValue :=
  match in_action input with
  | navigate =>
      match in_url input with
      | Some url =>
          if falsy (Some url) then throw "navigate action requires 'url'"
          else
            r ← call (kernel_playwright_execute sessionId (navigate_code url) 60);
            mret (tv_service r)
      | None => throw "navigate action requires 'url'"
      end
  | click =>
      match in_x input, in_y input with
      | Some x, Some y =>
          _ ← call (kernel_clickMouse sessionId x y
                      (Js.nullish (in_button input) btn_left));
          mret tv_success
      | _, _ => throw "click action requires both 'x' and 'y'"
      end
  | move =>
      match in_x input, in_y input with
      | Some x, Some y =>
          _ ← call (kernel_moveMouse sessionId x y);
          mret tv_success
      | _, _ => throw "move action requires both 'x' and 'y'"
      end
  | type_text =>
      match in_text input with
      | Some text =>
          if falsy (Some text) then throw "type_text action requires 'text'"
          else
            _ ← call (kernel_typeText sessionId text);
            mret tv_success
      | None => throw "type_text action requires 'text'"
      end
  | key_press =>
      match in_key input with
      | Some key =>
          if falsy (Some key) then throw "key_press action requires 'key'"
          else
            _ ← call (kernel_pressKey sessionId key);
            mret tv_success
      | None => throw "key_press action requires 'key'"
      end
  | scroll =>
      _ ← call (kernel_scroll sessionId
                  (Js.nullish (in_x input) 0%Z) (Js.nullish (in_y input) 0%Z)
                  (Js.nullish (in_deltaX input) 0%Z)
                  (Js.nullish (in_deltaY input) 400%Z));
      mret tv_success
  | wait =>
      let waitMs := Js.nullish (in_waitMs input) 1000%Z in
      r ← call (kernel_playwright_execute sessionId (wait_code waitMs)
                  (Js.ceil_div waitMs 1000 + 5)%Z);
      mret (tv_service r)
  | screenshot =>
      (* the answer stands for the content-type header of the response *)
      contentType ← call (kernel_captureScreenshot sessionId);
      screenshotBuffer ← call (response_arrayBuffer sessionId);
      mret (tv_screenshot (String.length screenshotBuffer)
              (Js.or_lit (Some contentType) "image/png"))
  end.

(** The [execute] of [createVpsPlaywrightExecuteTool(cdpWsUrl)]. The text
    of the caller is made a function and run in the process of the route,
    between the connect and the close ([executeCode]): its calls are made
    and recorded as the text's own, and what it returns or throws is the
    outcome of the callback. *)
Definition createVpsPlaywrightExecuteTool (cdpWsUrl code : string)
  : M ToolValue :=
  try_catch
    (withVpsBrowser cdpWsUrl (fun page =>
       result ← executeCode page code;
       mret (tv_executed result)))
    (fun error =>
       mret (tv_failed
               (Js.or_lit (Some error) "Failed to execute Playwright code on VPS"))).

(** The [execute] of [createVpsComputerUseTool(cdpWsUrl)]. The [switch]
    either returns from the callback (screenshot) or breaks to the common
    return: [Some v] and [None] below. *)
Definition createVpsComputerUseTool (cdpWsUrl : string)
    (input : ComputerUseInput) : M ToolValue :=
  withVpsBrowser cdpWsUrl (fun page =>
    returned ←
      match in_action input with
      | navigate =>
          match in_url input with
          | Some url =>
              if falsy (Some url) then throw "navigate action requires 'url'"
              else goto page url;; mret None
          | None => throw "navigate action requires 'url'"
          end
      | click =>
          match in_x input, in_y input with
          | Some x, Some y =>
              _ ← call (mouse_click page x y
                          (Js.nullish (in_button input) btn_left));
              mret None
          | _, _ => throw "click action requires both 'x' and 'y'"
          end
      | move =>
          match in_x input, in_y input with
          | Some x, Some y => _ ← call (mouse_move page x y); mret None
          | _, _ => throw "move action requires both 'x' and 'y'"
          end
      | type_text =>
          match in_text input with
          | Some text =>
              if falsy (Some text) then throw "type_text action requires 'text'"
              else _ ← call (keyboard_type page text); mret None
          | None => throw "type_text action requires 'text'"
          end
      | key_press =>
          match in_key input with
          | Some key =>
              if falsy (Some key) then throw "key_press action requires 'key'"
              else _ ← call (keyboard_press page key); mret None
          | None => throw "key_press action requires 'key'"
          end
      | scroll =>
          _ ← call (mouse_wheel page (Js.nullish (in_deltaX input) 0%Z)
                      (Js.nullish (in_deltaY input) 400%Z));
          mret None
      | wait =>
          _ ← call (page_waitForTimeout page
                      (Js.nullish (in_waitMs input) 1000%Z));
          mret None
      | screenshot =>
          shot ← call (page_screenshot page
                         (Js.nullish (in_fullPage input) false));
          url ← url_of page;
          title ← call (page_title page);
          mret (Some (tv_screenshot_preview (String.length shot)
                        (Js.slice0 120 (Js.base64 shot)) url title))
      end;
    match returned with
    | Some v => mret v
    | None =>
        url ← url_of page;
        title ← call (page_title page);
        mret (tv_page url title)
    end).


(** [{ action: "type_text", text: "" }] *)
Definition type_nothing : ComputerUseInput :=
  {| in_action := type_text; in_url := None; in_x := None; in_y := None;
     in_button := None; in_text := Some ""; in_key := None;
     in_deltaX := None; in_deltaY := None; in_waitMs := None;
     in_fullPage := None |}.

(** ** Session memory ([src/lib/supabase-memory.ts]) *)

Record SupabaseMemoryConfig := {
  sm_url : string;
  sm_key : string;
  sm_table : string;
}.

Definition getSupabaseMemoryConfig (env : Env) : option SupabaseMemoryConfig :=
  let url := env !! "SUPABASE_URL" in
  let key :=
    Js.or (env !! "SUPABASE_SERVICE_ROLE_KEY") (env !! "SUPABASE_ANON_KEY") in
  let table := Js.or_lit (env !! "SUPABASE_MEMORY_TABLE") "agent_memory" in
  match url, key with
  | Some url, Some key =>
      if falsy (Some url) || falsy (Some key) then None
      else Some {| sm_url := Js.stripTrailingSlashes url;
                   sm_key := key;
                   sm_table := table |}
  | _, _ => None
  end.

(** [loadRecentSessionMemory(sessionId, limit = 6)]. [new URL(...)] is
    inside the [try] and before the [fetch]: when it throws (an endpoint
    that is no absolute URL) nothing is sent. The request is written by its
    parts (endpoint, table, key, session and limit) rather than as the URL
    and headers built from them. *)
Definition loadRecentSessionMemory (env : Env) (sessionId : string)
    (limit : option Z) : M (list SessionMemoryItem) :=
  let limit := Js.nullish limit 6%Z in
  match getSupabaseMemoryConfig env with
  | None => mret []
  | Some config =>
      try_catch
        (_ ← new_URL (sm_url config ++ "/rest/v1/" ++ sm_table config);
         response ← fetch (memory_select (sm_url config) (sm_table config)
                             (sm_key config) sessionId limit);
         if negb (resp_ok response)
         then
           text ← settle (resp_text response);
           warn ("Failed to load Supabase memory: " ++ text);;
           mret []
         else
           rows ← settle (resp_json response);
           mret (match rows with Some rows => rows | None => [] end))
        (fun error =>
           warn ("Error loading Supabase memory: " ++ error);;
           mret [])
  end.

Definition saveSessionMemory (env : Env) (input : SaveSessionMemoryInput)
  : M unit :=
  match getSupabaseMemoryConfig env with
  | None => mret tt
  | Some config =>
      try_catch
        (response ← fetch (memory_insert (sm_url config) (sm_table config)
                             (sm_key config) input);
         if negb (resp_ok response)
         then
           text ← settle (resp_text response);
           warn ("Failed to save Supabase memory: " ++ text)
         else mret tt)
        (fun error => warn ("Error saving Supabase memory: " ++ error))
  end.

Definition newline : string := String (ascii_of_nat 10) EmptyString.

Definition memory_entry (index : nat) (item : SessionMemoryItem) : string :=
  let memoryResponse := Js.slice0 300 (Js.or_lit (mi_response item) "") in
  "Memory " ++ Js.string_of_Z (Z.of_nat (index + 1)) ++ ":" ++ newline
  ++ "- Task: " ++ mi_task item ++ newline
  ++ "- Model: " ++ mi_model_name item ++ " (" ++ mi_model_role item ++ ")"
  ++ newline
  ++ "- Response summary: " ++ memoryResponse.

Definition buildMemoryPromptContext (items : list SessionMemoryItem)
  : string :=
  match items with
  | [] => ""
  | _ =>
      let ordered := rev items in
      String.concat (newline ++ newline) (imap memory_entry ordered)
  end.

(** *** A store to run the definitions on *)

Definition memory_env : Env :=
  {[ "SUPABASE_URL" := "https://db.example/";
     "SUPABASE_ANON_KEY" := "anon" ]}.

Definition memory_row (task : string) : SessionMemoryItem :=
  {| mi_task := task; mi_response := Some "done";
     mi_model_role := "automation"; mi_model_name := "kimi-k2-thinking:cloud";
     mi_llm_provider := "local"; mi_step_count := Some 2%Z;
     mi_created_at := "2026-01-01T00:00:00Z" |}.

(** [SUPABASE_URL] without a scheme: [db.example]. *)
Definition relative_memory_env : Env :=
  {[ "SUPABASE_URL" := "db.example";
     "SUPABASE_ANON_KEY" := "anon" ]}.

(** A platform whose URL parser refuses a text without [://], as every
    parser does that is given no base URL. *)
Definition absolute_urls_only : Oracle :=
  {| o_reply := o_reply always_ok;
     o_fetch := o_fetch always_ok;
     o_model := o_model always_ok;
     o_code := o_code always_ok;
     o_url := fun text =>
       if Js.includes text "://" then Ok tt else Throw "Invalid URL" |}.

(** A store that answers every select with all of [rows], whatever the
    limit of the request. *)
Definition store_sending_all (rows : list SessionMemoryItem) : Oracle :=
  {| o_reply := o_reply always_ok;
     o_fetch := fun history op =>
       match op with
       | memory_select _ _ _ _ _ =>
           Ok {| resp_ok := true; resp_text := Ok "";
                 resp_json := Ok (Some rows) |}
       | _ => o_fetch always_ok history op
       end;
     o_model := o_model always_ok;
     o_code := o_code always_ok;
     o_url := o_url always_ok |}.

(** A store that holds [rows] and answers a select with the first [limit]
    of them; it refuses a negative limit. *)
Definition store_with (rows : list SessionMemoryItem) : Oracle :=
  {| o_reply := o_reply always_ok;
     o_fetch := fun history op =>
       match op with
       | memory_select _ _ _ _ limit =>
           Ok {| resp_ok := (0 <=? limit)%Z; resp_text := Ok "";
                 resp_json := Ok (Some (take (Z.to_nat limit) rows)) |}
       | _ => o_fetch always_ok history op
       end;
     o_model := o_model always_ok;
     o_code := o_code always_ok;
     o_url := o_url always_ok |}.

(** ** Trace extractor ([route.ts]) *)

(** The part of a tool result the route reads: [item.result?.result],
    [item.result?.success] and [item.result?.error]. *)
Record RawResult := {
  raw_result : option string;
  raw_success : option bool;
  raw_error : option string;
}.

(** A content item of a step as the agent library hands it over, by its
    [type]; [code] of a tool call is [item.input?.code]. *)
Inductive RawItem :=
  | raw_tool_call (toolCallId toolName : string) (code : option string)
  | raw_tool_result (toolCallId toolName : string) (result : option RawResult)
  | raw_text (text : string)
  | raw_tool_error (toolCallId toolName error : string)
  | raw_other (type : string).

(** A step of the agent library: [finishReason], [content], and the [text]
    and [usage] the result of a run is made of. *)
Record RawStep := {
  rs_finishReason : option string;
  rs_content : option (list RawItem);
  rs_text : string;
  rs_usage : string;
}.

(** A content item of [detailedSteps]. *)
Inductive Item :=
  | tool_call (toolCallId toolName : string) (code : option string)
  | tool_result (toolCallId toolName : string) (result : option string)
      (success : bool) (error : option string)
  | text_item (text : string)
  | unprocessed (item : RawItem).

Record DetailedStep := {
  stepNumber : nat;
  finishReason : option string;
  content : list Item;
}.

Record ExecutedCode := {
  ec_code : option string;
  ec_success : bool;
  ec_result : option string;
  ec_error : option string;
}.

(** [v || null] for an optional string. *)
Definition or_null (v : option string) : option string :=
  if Js.truthy v then v else None.

Definition processItem (item : RawItem) : Item :=
  match item with
  | raw_tool_call toolCallId toolName code =>
      tool_call toolCallId toolName (or_null code)
  | raw_tool_result toolCallId toolName result =>
      tool_result toolCallId toolName
        (r ← result; raw_result r)
        (Js.nullish (r ← result; raw_success r) true)
        (r ← result; raw_error r)
  | raw_text text => text_item text
  | _ => unprocessed item
  end.

Definition detailedStep (index : nat) (step : RawStep) : DetailedStep :=
  let content := Js.nullish (rs_content step) [] in
  {| stepNumber := index + 1;
     finishReason := or_null (rs_finishReason step);
     content := List.map processItem content |}.

Definition detailedSteps (steps : list RawStep) : list DetailedStep :=
  imap detailedStep steps.

(** [item.type === "tool-call" && item.code] *)
Definition is_code_call (item : Item) : bool :=
  match item with
  | tool_call _ _ code => Js.truthy code
  | _ => false
  end.

(** [item.toolCallId] and [item.code] of a tool-call item. *)
Definition item_toolCallId (item : Item) : option string :=
  match item with
  | tool_call id _ _ => Some id
  | tool_result id _ _ _ _ => Some id
  | _ => None
  end.

Definition item_code (item : Item) : option string :=
  match item with
  | tool_call _ _ code => code
  | _ => None
  end.

(** [r.type === "tool-result" && r.toolCallId === item.toolCallId] *)
Definition is_result_of (item r : Item) : bool :=
  match r with
  | tool_result id _ _ _ _ =>
      match item_toolCallId item with
      | Some id' => String.eqb id id'
      | None => false
      end
  | _ => false
  end.

(** [result?.success], [result?.result] and [result?.error] of the item
    [find] returned. *)
Definition result_success (r : option Item) : option bool :=
  match r with
  | Some (tool_result _ _ _ success _) => Some success
  | _ => None
  end.

Definition result_result (r : option Item) : option string :=
  match r with
  | Some (tool_result _ _ result _ _) => result
  | _ => None
  end.

Definition result_error (r : option Item) : option string :=
  match r with
  | Some (tool_result _ _ _ _ error) => error
  | _ => None
  end.

Definition executedCode (step : DetailedStep) (item : Item) : ExecutedCode :=
  let result := List.find (is_result_of item) (content step) in
  {| ec_code := item_code item;
     ec_success := Js.nullish (result_success result) true;
     ec_result := result_result result;
     ec_error := result_error result |}.

Definition executedCodes (detailedSteps : list DetailedStep)
  : list ExecutedCode :=
  List.flat_map
    (fun step =>
       List.map (executedCode step) (List.filter is_code_call (content step)))
    detailedSteps.

(** ** Inference backend and model selection ([route.ts]) *)

Inductive LlmProvider := local | cloud.
Inductive ModelRole := automation | reasoning | ocr.

Record Models := {
  m_automation : string;
  m_reasoning : string;
  m_ocr : string;
}.

Record OllamaRuntimeConfig := {
  rc_provider : LlmProvider;
  rc_baseURL : string;
  rc_apiKey : string;
  rc_models : Models;
  rc_headers : option (list (string * string));
}.

Record ModelSelection := { sel_role : ModelRole; sel_model : string }.

Definition role_name (r : ModelRole) : string :=
  match r with
  | automation => "automation"
  | reasoning => "reasoning"
  | ocr => "ocr"
  end.

Definition provider_name (p : LlmProvider) : string :=
  match p with local => "local" | cloud => "cloud" end.

Definition DEFAULT_MODELS : Models :=
  {| m_automation := "kimi-k2-thinking:cloud";
     m_reasoning := "deepseek-v3.1:671b-cloud";
     m_ocr := "glm-ocr:latest" |}.

Definition buildModelsEndpoint (baseURL : string) : string :=
  Js.stripTrailingSlashes baseURL ++ "/models".

(** The probe: [response.ok], and [false] when the request throws. The
    credentials travel in headers and are left out of the recorded call. *)
Definition isOpenAICompatibleEndpointReachable (baseURL apiKey : string)
  : M bool :=
  try_catch
    (response ← fetch (fetch_models (buildModelsEndpoint baseURL));
     mret (resp_ok response))
    (fun _ => mret false).

(** [if (value) headers[name] = value] *)
Definition header_if (name : string) (value : option string)
  : list (string * string) :=
  match value with
  | Some v => if Js.truthy (Some v) then [(name, v)] else []
  | None => []
  end.

Definition resolveOllamaRuntimeConfig (env : Env) : M OllamaRuntimeConfig :=
  let localBaseURL :=
    Js.or_lit (env !! "OLLAMA_BASE_URL") "http://localhost:11434/v1" in
  let localApiKey := Js.or_lit (env !! "OLLAMA_API_KEY") "ollama" in
  let localModels :=
    {| m_automation :=
         Js.or_lit (Js.or (env !! "OLLAMA_MODEL_AUTOMATION")
                          (env !! "OLLAMA_MODEL"))
                   (m_automation DEFAULT_MODELS);
       m_reasoning :=
         Js.or_lit (env !! "OLLAMA_MODEL_REASONING") (m_reasoning DEFAULT_MODELS);
       m_ocr := Js.or_lit (env !! "OLLAMA_MODEL_OCR") (m_ocr DEFAULT_MODELS) |} in
  let cloudBaseURL := env !! "OLLAMA_CLOUD_BASE_URL" in
  let cloudApiKey := Js.or_lit (env !! "OLLAMA_CLOUD_API_KEY") localApiKey in
  let cloudDefaultModel := env !! "OLLAMA_CLOUD_MODEL" in
  let cloudModels :=
    {| m_automation :=
         Js.or_lit (Js.or (env !! "OLLAMA_CLOUD_MODEL_AUTOMATION")
                          cloudDefaultModel)
                   (m_automation localModels);
       m_reasoning :=
         Js.or_lit (env !! "OLLAMA_CLOUD_MODEL_REASONING")
                   (m_reasoning DEFAULT_MODELS);
       m_ocr :=
         Js.or_lit (env !! "OLLAMA_CLOUD_MODEL_OCR") (m_ocr DEFAULT_MODELS) |} in
  let cloudDeploymentSha := env !! "OLLAMA_CLOUD_DEPLOYMENT_SHA" in
  let cloudSshPublicKey := env !! "OLLAMA_CLOUD_SSH_PUBLIC_KEY" in
  let localConfig :=
    {| rc_provider := local; rc_baseURL := localBaseURL;
       rc_apiKey := localApiKey; rc_models := localModels;
       rc_headers := None |} in
  localReachable ← isOpenAICompatibleEndpointReachable localBaseURL localApiKey;
  if localReachable : bool then mret localConfig
  else
    match cloudBaseURL with
    | Some cloudUrl =>
        if Js.truthy (Some cloudUrl) && Js.truthy (Some cloudApiKey)
        then
          let cloudHeaders :=
            (header_if "x-deployment-sha" cloudDeploymentSha
             ++ header_if "x-ssh-public-key" cloudSshPublicKey)%list in
          mret {| rc_provider := cloud; rc_baseURL := cloudUrl;
                  rc_apiKey := cloudApiKey; rc_models := cloudModels;
                  rc_headers :=
                    match cloudHeaders with
                    | [] => None
                    | _ => Some cloudHeaders
                    end |}
        else mret localConfig
    | None => mret localConfig
    end.

(** [\w] of a regular expression without the [u] flag. *)
Definition is_word_char (c : ascii) : bool :=
  let n := nat_of_ascii c in
  ((48 <=? n)%nat && (n <=? 57)%nat)
  || ((65 <=? n)%nat && (n <=? 90)%nat)
  || ((97 <=? n)%nat && (n <=? 122)%nat)
  || (n =? 95)%nat.

(** The text starts with the word [kw] followed by a word boundary. *)
Definition word_here (kw s : string) : bool :=
  String.prefix kw s
  && match String.get (String.length kw) s with
     | Some c => negb (is_word_char c)
     | None => true
     end.

(** [/\bkw\b/.test(s)] for a [kw] that starts and ends with a word
    character; [after_word] tells whether the character before [s] is one. *)
Fixpoint has_word_from (after_word : bool) (kw s : string) : bool :=
  match s with
  | EmptyString => false
  | String c r =>
      (negb after_word && word_here kw s) || has_word_from (is_word_char c) kw r
  end.

Definition has_any_word (kws : list string) (s : string) : bool :=
  existsb (fun kw => has_word_from false kw s) kws.

Definition ocr_words : list string :=
  ["ocr"; "image"; "screenshot"; "scan"; "extract text"; "read text";
   "vision"; "pdf"].

Definition reasoning_words : list string :=
  ["analyse"; "analyze"; "analysis"; "summarise"; "summarize"; "compare";
   "explain"; "research"; "plan"; "reason"].

Definition selectModelForTask (task : string) (models : Models)
  : ModelSelection :=
  let normalizedTask := Js.toLowerCase task in
  if has_any_word ocr_words normalizedTask
  then {| sel_role := ocr; sel_model := m_ocr models |}
  else if has_any_word reasoning_words normalizedTask
  then {| sel_role := reasoning; sel_model := m_reasoning models |}
  else {| sel_role := automation; sel_model := m_automation models |}.

(** ** Agent loop driver

    The loop itself is the agent library's ([Experimental_Agent] of the
    package [ai]), as is [playwrightExecuteTool] of the managed service's
    package; the route configures them. *)

Record Tools := {
  playwright_execute : string -> M ToolValue;
  computer_use : ComputerUseInput -> M ToolValue;
}.

Record Agent := {
  ag_baseURL : string;
  ag_model : string;
  ag_tools : Tools;
  ag_stepLimit : nat;        (* stopWhen: stepCountIs(n) *)
  ag_system : string;
}.

Record GenerateResult := {
  gr_text : string;
  gr_steps : list RawStep;
  gr_usage : string;
}.

(** What the route reads of a tool's return value. An answer of the managed
    service is opaque here and counts as its [result]. *)
Definition fields_of (v : ToolValue) : RawResult :=
  match v with
  | tv_executed r | tv_service r =>
      {| raw_result := Some r; raw_success := Some true; raw_error := None |}
  | tv_failed e =>
      {| raw_result := None; raw_success := Some false; raw_error := Some e |}
  | _ =>
      {| raw_result := None; raw_success := Some true; raw_error := None |}
  end.

Definition toolName (i : ToolInput) : string :=
  match i with
  | computer_use_input _ => "computer_use"
  | playwright_input _ => "playwright_execute"
  end.

Definition input_code (i : ToolInput) : option string :=
  match i with
  | playwright_input code => Some code
  | computer_use_input _ => None
  end.

Definition call_item (c : ToolCall) : RawItem :=
  raw_tool_call (tc_toolCallId c) (toolName (tc_input c))
    (input_code (tc_input c)).

(** [stepCountIs(n)] *)
Definition stepCountIs (n : nat) (steps : list RawStep) : bool :=
  Nat.eqb (length steps) n.

Definition is_tool_call (item : RawItem) : bool :=
  match item with raw_tool_call _ _ _ => true | _ => false end.

Definition requests_tools (step : RawStep) : bool :=
  existsb is_tool_call (Js.nullish (rs_content step) []).

(** [xs.map(f)] with each [f x] awaited in turn. *)
Fixpoint for_each {A B} (xs : list A) (f : A -> M B) : M (list B) :=
  match xs with
  | [] => mret []
  | x :: rest => b ← f x; bs ← for_each rest f; mret (b :: bs)
  end.

(** Modelled from the spec: the agent loop of section 4.4, which the
    repository takes from the package [ai]. One tool invocation is
    dispatched to the tool set; a failure of the tool is a failure outcome
    in the same step, and the loop goes on. *)
Definition dispatch (tools : Tools) (c : ToolCall) : M RawItem :=
  try_catch
    (v ← match tc_input c with
         | computer_use_input input => computer_use tools input
         | playwright_input code => playwright_execute tools code
         end;
     mret (raw_tool_result (tc_toolCallId c) (toolName (tc_input c))
             (Some (fields_of v))))
    (fun error =>
       mret (raw_tool_error (tc_toolCallId c) (toolName (tc_input c)) error)).

(** Modelled from the spec: one pass through [generating]: the model is
    called, and every tool invocation it emits is dispatched in emission
    order; its outcomes are appended to the same step. *)
Definition agent_step (agent : Agent) (prompt : string) : M RawStep :=
  turn ← generateText (model_generate (ag_baseURL agent) (ag_model agent) prompt);
  outcomes ← for_each (mt_toolCalls turn) (dispatch (ag_tools agent));
  mret {| rs_finishReason := mt_finishReason turn;
          rs_content :=
            Some ((if Js.truthy (Some (mt_text turn))
                   then [raw_text (mt_text turn)] else [])
                  ++ List.map call_item (mt_toolCalls turn)
                  ++ outcomes)%list;
          rs_text := mt_text turn;
          rs_usage := mt_usage turn |}.

(** Modelled from the spec: the state machine of section 4.4. The loop ends
    when the model emits no tool call or when the stop condition holds of
    the steps so far; [None] when [fuel] passes ran without ending it. *)
Fixpoint agent_loop (fuel : nat) (stopWhen : list RawStep -> bool)
    (next : M RawStep) (steps : list RawStep) : M (option (list RawStep)) :=
  match fuel with
  | O => mret None
  | S fuel =>
      step ← next;
      let steps := (steps ++ [step])%list in
      if negb (requests_tools step) || stopWhen steps
      then mret (Some steps)
      else agent_loop fuel stopWhen next steps
  end.

(** Modelled from the spec: [agent.generate({ prompt })]. A step limit of
    [n] needs [n] passes at most. The text and the usage of the run are
    those of its last step. *)
Definition generate (agent : Agent) (prompt : string) : M GenerateResult :=
  ended ← agent_loop (ag_stepLimit agent) (stepCountIs (ag_stepLimit agent))
            (agent_step agent prompt) [];
  match ended with
  | Some steps =>
      mret {| gr_text := from_option rs_text "" (last steps);
              gr_steps := steps;
              gr_usage := from_option rs_usage "" (last steps) |}
  | None => throw "the agent loop did not end"
  end.

(** ** The route ([POST] of [route.ts]) *)

(** The body of the request, once parsed: every field may be absent.
    [unparsable] is a body [req.json()] throws on. *)
Record RequestBody := {
  req_sessionId : option string;
  req_task : option string;
  req_cdpWsUrl : option string;
  req_provider : option string;
}.

Inductive Request :=
  | unparsable (message : string)
  | json_request (body : RequestBody).

Record RunResult := {
  run_response : string;
  run_executedCodes : list ExecutedCode;
  run_detailedSteps : list DetailedStep;
  run_stepCount : nat;
  run_usage : string;
  run_llmProvider : LlmProvider;
  run_llmModel : string;
  run_llmRole : ModelRole;
  run_memoryEnabled : bool;
  run_sandboxProvider : SandboxProvider;
}.

(** The three shapes of body the route answers with: [{ error }],
    [{ success: false, error }] and [{ success: true, ... }]. *)
Inductive ResponseBody :=
  | error_body (error : string)
  | failure_body (error : string)
  | success_body (r : RunResult).

Record Response := { status : nat; body : ResponseBody }.

(** The [success] field of a body, when it has one. *)
Definition body_success (b : ResponseBody) : option bool :=
  match b with
  | error_body _ => None
  | failure_body _ => Some false
  | success_body _ => Some true
  end.

Definition body_error (b : ResponseBody) : option string :=
  match b with
  | error_body e | failure_body e => Some e
  | success_body _ => None
  end.

Definition system_policy : string :=
  "You are the Eburon Autonomous Agent, a browser and computer automation expert operating inside a disposable sandbox environment.

Available tools:
- playwright_execute: Executes JavaScript/Playwright code in the browser. Has access to 'page', 'context', and 'browser' objects. Returns the result of your code.
- computer_use: Executes high-level computer actions like move, click, type, key press, scroll, wait, navigate, and screenshot.

When given a task:
1. If no URL is provided, FIRST get the current page context:
   return { url: page.url(), title: await page.title() }
2. If a URL is provided, navigate to it using page.goto()
3. Use appropriate selectors (page.locator, page.getByRole, etc.) to interact with elements
4. Safely handle authentication flows when the user explicitly provides credentials (for example, filling login forms), but never attempt to obtain or exfiltrate secrets the user did not clearly request or supply.
5. Always return the requested data from your code execution.
6. Use computer_use whenever the user asks for computer-level interactions (mouse movement/clicks, keyboard, scroll, screenshot).
7. Keep the session to a single active browser page/tab unless the user explicitly asks for multiple tabs or popups.
8. Never call context.newPage() or open new windows unless explicitly requested; if a popup/new tab appears, close the extra page and continue on the main page.

Behavior:
- Break complex tasks into small, focused executions rather than writing long scripts.
- After each tool call, clearly describe in natural language what you clicked, typed, or observed so users can understand the simulation steps.
- Prefer reusing the existing page for navigation and interactions to avoid duplicate browser windows.
- Execute tasks autonomously without asking clarifying questions when possible â€” make reasonable assumptions and act.
- NEVER add safety disclaimers, ethical warnings, or " ++ dq ++ "I should note that..." ++ dq ++ " statements. Just do the task.".

Definition promptWithMemory (task memoryContext : string) : string :=
  if Js.truthy (Some memoryContext)
  then task ++ newline ++ newline
       ++ "Relevant memory from previous tasks in this session:" ++ newline
       ++ memoryContext ++ newline ++ newline
       ++ "Use this memory only when it helps complete the current task."
  else task.

Section Route.

(** [playwrightExecuteTool({ client, sessionId })] of the managed
    service's package: the tool for a session, applied to a code text. *)
Variable playwrightExecuteTool : string -> string -> M ToolValue.

(** The branch on the provider: either the route returns a response at
    once, or it goes on with the tools of the backend. *)
Definition bind_tools (env : Env) (body : RequestBody)
    (sandboxProvider : SandboxProvider)
    (vpsConfig : option VpsSandboxConfig) : M (Response + Tools) :=
  match sandboxProvider with
  | vps =>
      let resolvedCdpWsUrl :=
        Js.or (req_cdpWsUrl body) (vc_cdpWsUrl <$> vpsConfig) in
      match resolvedCdpWsUrl with
      | Some url =>
          if falsy (Some url)
          then mret (inl {| status := 400; body := error_body
            "VPS mode requires cdpWsUrl in request or VPS_SANDBOX_CDP_WS_URL in environment" |})
          else
            normalizeToSinglePageVps url;;
            mret (inr {| playwright_execute := createVpsPlaywrightExecuteTool url;
                         computer_use := createVpsComputerUseTool url |})
      | None =>
          mret (inl {| status := 400; body := error_body
            "VPS mode requires cdpWsUrl in request or VPS_SANDBOX_CDP_WS_URL in environment" |})
      end
  | kernel =>
      let apiKey := env !! "KERNEL_API_KEY" in
      if falsy apiKey
      then mret (inl {| status := 400; body := error_body
             "KERNEL_API_KEY environment variable is not set" |})
      else
        match req_sessionId body with
        | Some sessionId =>
            if falsy (Some sessionId)
            then mret (inl {| status := 400; body := error_body
                   "Kernel mode requires sessionId" |})
            else
              normalizeToSinglePageKernel sessionId;;
              mret (inr {| playwright_execute := playwrightExecuteTool sessionId;
                           computer_use := createKernelComputerUseTool sessionId |})
        | None =>
            mret (inl {| status := 400; body := error_body
              "Kernel mode requires sessionId" |})
        end
  end.

(** [await req.json()] and the destructuring of its value. *)
Definition req_json (req : Request) : M RequestBody :=
  match req with
  | unparsable message => throw message
  | json_request body => mret body
  end.

Definition POST (env : Env) (req : Request) : M Response :=
  try_catch
    (body ← req_json req;
     let sandboxProvider := resolveSandboxProvider env (req_provider body) in
     let vpsConfig := getVpsSandboxConfig env in
     let memorySessionId :=
       Js.or_lit (Js.or (req_sessionId body) (vc_sessionId <$> vpsConfig))
                 "vps-sandbox-session" in
     match req_task body with
     | None => mret {| status := 400; body := error_body "Missing task" |}
     | Some task =>
         if falsy (Some task)
         then mret {| status := 400; body := error_body "Missing task" |}
         else
           ollamaRuntime ← resolveOllamaRuntimeConfig env;
           let selectedModel :=
             selectModelForTask task (rc_models ollamaRuntime) in
           sessionMemory ← loadRecentSessionMemory env memorySessionId (Some 6%Z);
           let memoryContext := buildMemoryPromptContext sessionMemory in
           bound ← bind_tools env body sandboxProvider vpsConfig;
           match bound with
           | inl response => mret response
           | inr tools =>
               let agent :=
                 {| ag_baseURL := rc_baseURL ollamaRuntime;
                    ag_model := sel_model selectedModel;
                    ag_tools := tools;
                    ag_stepLimit := 20;
                    ag_system := system_policy |} in
               result ← generate agent (promptWithMemory task memoryContext);
               let steps := gr_steps result in
               let detailed := detailedSteps steps in
               let executed := executedCodes detailed in
               saveSessionMemory env
                 {| sv_sessionId := memorySessionId;
                    sv_task := Js.trim task;
                    sv_response := Js.or_lit (Some (gr_text result)) "";
                    sv_modelRole := role_name (sel_role selectedModel);
                    sv_modelName := sel_model selectedModel;
                    sv_llmProvider := provider_name (rc_provider ollamaRuntime);
                    sv_stepCount := length steps;
                    sv_success := true |};;
               mret {| status := 200;
                       body := success_body
                         {| run_response := gr_text result;
                            run_executedCodes := executed;
                            run_detailedSteps := detailed;
                            run_stepCount := length steps;
                            run_usage := gr_usage result;
                            run_llmProvider := rc_provider ollamaRuntime;
                            run_llmModel := sel_model selectedModel;
                            run_llmRole := sel_role selectedModel;
                            run_memoryEnabled :=
                              negb (Nat.eqb (length sessionMemory) 0);
                            run_sandboxProvider := sandboxProvider |} |}
           end
     end)
    (fun error =>
       warn ("Agent execution error: " ++ error);;
       mret {| status := 500;
               body := failure_body
                 (Js.or_lit (Some error) "Failed to execute agent") |}).

End Route.

(** *** Requests to run the route on *)

(** A stand-in for the package's tool: one request to the managed service,
    whose answer is the tool's value. *)
Definition serviceExecuteTool (sessionId code : string) : M ToolValue :=
  r ← call (kernel_playwright_execute sessionId code 60);
  mret (tv_service r).

(** [{ task: "open example.com", provider: "vps" }] *)
Definition direct_request : RequestBody :=
  {| req_sessionId := None; req_task := Some "open example.com";
     req_cdpWsUrl := None; req_provider := Some "vps" |}.

(** [{ provider: "vps" }] *)
Definition direct_request_without_task : RequestBody :=
  {| req_sessionId := None; req_task := None;
     req_cdpWsUrl := None; req_provider := Some "vps" |}.

(** [{ task: "   ", provider: "vps", cdpWsUrl: "ws://vps" }] *)
Definition blank_task_request : RequestBody :=
  {| req_sessionId := None; req_task := Some "   ";
     req_cdpWsUrl := Some "ws://vps"; req_provider := Some "vps" |}.

(** A model that asks for one more scroll in every turn. *)
Definition asks_forever : Oracle :=
  {| o_reply := o_reply always_ok;
     o_fetch := o_fetch always_ok;
     o_model := fun history _ =>
       Ok {| mt_text := "scrolling";
             mt_toolCalls :=
               [ {| tc_toolCallId :=
                      "call-" ++ Js.string_of_Z (Z.of_nat (length history));
                    tc_input := computer_use_input (bare scroll) |} ];
             mt_finishReason := Some "tool-calls";
             mt_usage := "" |};
     o_code := o_code always_ok;
     o_url := o_url always_ok |}.

(** [{ task: "scroll to the end", provider: "vps", cdpWsUrl: "ws://vps" }] *)
Definition scroll_request : RequestBody :=
  {| req_sessionId := None; req_task := Some "scroll to the end";
     req_cdpWsUrl := Some "ws://vps"; req_provider := Some "vps" |}.

(** ** Voice routes

    The speech-to-text route (the first document of
    [src/app/api/stt/route.ts]) and the text-to-speech route (the second
    document of [src/supabase/agent-memory.sql]). Each proxies one request
    to an upstream provider: the voice service when its base URL is
    configured, the hosted API otherwise. *)

Module Voice.

(** A JSON value, as [response.json()] gives it. The members of an object
    are in the order of the text; numbers are taken as integers. *)
#[warnings="-register-all"]
Inductive Json :=
  | JNull
  | JBool (b : bool)
  | JNumber (n : Z)
  | JString (s : string)
  | JArray (items : list Json)
  | JObject (members : list (string * Json)).

(** [v?.name]: [undefined] ([None]) on [undefined], on [null] and on a value
    without that property; of a member given twice the last one counts. *)
Definition member (name : string) (v : option Json) : option Json :=
  match v with
  | Some (JObject members) =>
      snd <$> List.find (fun m => String.eqb (fst m) name) (rev members)
  | _ => None
  end.

(** [!!v] *)
Definition truthy (v : option Json) : bool :=
  match v with
  | None | Some JNull => false
  | Some (JBool b) => b
  | Some (JNumber n) => negb (Z.eqb n 0)
  | Some (JString s) => negb (String.eqb s "")
  | Some (JArray _) | Some (JObject _) => true
  end.

(** [a || b] with [b] defined. *)
Definition or_else (a : option Json) (b : Json) : Json :=
  match a with
  | Some v => if truthy a then v else b
  | None => b
  end.

(** An environment variable or a field that is set and not empty. *)
Definition present (v : option string) : option string :=
  match v with
  | Some s => if String.eqb s "" then None else Some s
  | None => None
  end.

Record File := { file_name : string; file_content : string }.

(** What [formData.get(name)] gives. *)
Inductive FormEntry :=
  | entry_text (s : string)
  | entry_file (f : File).

(** The requests the routes send upstream, written by their parts: the
    voice service takes the upload in the field [audio], or the text, the
    voice and the speed ([speed] is the text [Number] is applied to); the
    hosted API takes the credentials and the model as well. *)
Inductive UpstreamRequest :=
  | voice_stt (url fileName : string) (audio : File)
  | openai_stt (authorization model fileName : string) (audio : File)
  | voice_tts (url text voice speed : string)
  | openai_tts (authorization model voice input : string).

Record UpstreamResponse := {
  up_status : nat;
  up_contentType : option string;        (* headers.get("content-type") *)
  up_json : Result Json;                 (* await response.json() *)
  up_text : Result string;               (* await response.text() *)
  up_arrayBuffer : Result string;        (* await response.arrayBuffer() *)
}.

(** [response.ok] *)
Definition up_ok (r : UpstreamResponse) : bool :=
  (200 <=? up_status r)%nat && (up_status r <=? 299)%nat.

(** What a route answers with: a JSON body [{ error }] or [{ text }], or
    the audio with its content type. *)
Inductive VoiceBody :=
  | vb_error (error : Json)
  | vb_text (text : Json)
  | vb_audio (audioBuffer contentType : string).

Record VoiceResponse := { v_status : nat; v_body : VoiceBody }.

(** The outside of a voice route: what the upstream answers to a request
    ([Throw] when [fetch] rejects), and the message of the error the
    platform throws for a status a response cannot carry. *)
Record Platform := {
  pf_fetch : UpstreamRequest -> Result UpstreamResponse;
  pf_status_error : nat -> string;
}.

(** A handler: it reads the platform, records the requests it sends, and
    returns or throws. *)
Definition V (A : Type) : Type :=
  Platform -> list UpstreamRequest -> Result A * list UpstreamRequest.

#[global] Instance V_ret : MRet V := fun A a _ sent => (Ok a, sent).

#[global] Instance V_bind : MBind V := fun A B f m pf sent =>
  match m pf sent with
  | (Ok a, sent') => f a pf sent'
  | (Throw e, sent') => (Throw e, sent')
  end.

(** [try { m } catch (error) { h error.message }] *)
Definition catch {A} (m : V A) (h : string -> V A) : V A := fun pf sent =>
  match m pf sent with
  | (Throw e, sent') => h e pf sent'
  | r => r
  end.

(** [await] of a promise of the outside. *)
Definition await {A} (r : Result A) : V A := fun _ sent => (r, sent).

Definition fetch (request : UpstreamRequest) : V UpstreamResponse :=
  fun pf sent => (pf_fetch pf request, (sent ++ [request])%list).

(** The statuses a response with a body can carry: 200 to 599 but the
    null-body statuses (101, 103, 204, 205 and 304). *)
Definition carries_body (status : nat) : bool :=
  (200 <=? status)%nat && (status <=? 599)%nat
  && negb (Nat.eqb status 204) && negb (Nat.eqb status 205)
  && negb (Nat.eqb status 304).

(** [Response.json(data, { status })]: it throws on a status it cannot
    carry (a [RangeError] or a [TypeError] of the platform). *)
Definition Response_json (status : nat) (data : VoiceBody) : V VoiceResponse :=
  fun pf sent =>
    (if carries_body status
     then Ok {| v_status := status; v_body := data |}
     else Throw (pf_status_error pf status),
     sent).

End Voice.

(** *** Speech to text: [POST] of [src/app/api/stt/route.ts] *)

Module Stt.
Import Voice.

Definition normalizeBaseUrl (url : string) : string :=
  Js.stripTrailingSlashes url.

(** The request: [await req.formData()] throws on a body that is no form;
    otherwise [formData.get("audio")] is a file, a text or [null]. *)
Inductive Request :=
  | unreadable (message : string)
  | form (audio : option FormEntry).

Definition formData_audio (req : Request) : V (option FormEntry) :=
  match req with
  | unreadable message => await (Throw message)
  | form audio => mret audio
  end.

Definition POST (env : Env) (req : Request) : V VoiceResponse :=
  catch
    (audio ← formData_audio req;
     match audio with
     | Some (entry_file audio) =>
         match present (env !! "VOICE_SERVICE_BASE_URL") with
         | Some voiceServiceBaseUrl =>
             response ←
               fetch (voice_stt (normalizeBaseUrl voiceServiceBaseUrl ++ "/stt")
                        (Js.or_lit (Some (file_name audio)) "audio.webm")
                        audio);
             payload ← await (up_json response);
             if negb (up_ok response)
             then Response_json (up_status response)
                    (vb_error
                       (or_else (member "detail" (Some payload))
                          (or_else (member "error" (Some payload))
                             (JString "STT failed"))))
             else Response_json 200
                    (vb_text (or_else (member "text" (Some payload))
                                (JString "")))
         | None =>
             match present (env !! "OPENAI_API_KEY") with
             | None =>
                 Response_json 503
                   (vb_error (JString
                      "No STT provider configured. Set VOICE_SERVICE_BASE_URL or OPENAI_API_KEY."))
             | Some openAiApiKey =>
                 openAiResponse ←
                   fetch (openai_stt ("Bearer " ++ openAiApiKey)
                            (Js.or_lit (env !! "OPENAI_STT_MODEL")
                               "gpt-4o-mini-transcribe")
                            (Js.or_lit (Some (file_name audio)) "audio.webm")
                            audio);
                 openAiPayload ← await (up_json openAiResponse);
                 if negb (up_ok openAiResponse)
                 then Response_json (up_status openAiResponse)
                        (vb_error
                           (or_else
                              (member "message"
                                 (member "error" (Some openAiPayload)))
                              (JString "OpenAI STT failed")))
                 else Response_json 200
                        (vb_text (or_else (member "text" (Some openAiPayload))
                                    (JString "")))
             end
         end
     | _ => Response_json 400 (vb_error (JString "Missing audio file"))
     end)
    (fun message =>
       Response_json 500
         (vb_error (JString (Js.or_lit (Some message)
                               "Failed to transcribe audio")))).

End Stt.

(** *** Text to speech: [POST] of the route in [src/supabase/agent-memory.sql] *)

Module Tts.
Import Voice.

Definition normalizeBaseUrl (url : string) : string :=
  Js.stripTrailingSlashes url.

(** The request: [await req.json()] throws on a body that is not JSON (and
    the destructuring throws on [null]); otherwise the fields [text] and
    [voice], strings when present ([TtsRequestBody]). *)
Inductive Request :=
  | unparsable (message : string)
  | json (text voice : option string).

Definition POST (env : Env) (req : Request) : V VoiceResponse :=
  catch
    (match req with
     | unparsable message => await (Throw message)
     | json text voice =>
         let inputText := Js.trim (Js.or_lit text "") in
         if falsy (Some inputText)
         then Response_json 400 (vb_error (JString "Missing text"))
         else
           match present (env !! "VOICE_SERVICE_BASE_URL") with
           | Some voiceServiceBaseUrl =>
               response ←
                 fetch (voice_tts (normalizeBaseUrl voiceServiceBaseUrl ++ "/tts")
                          inputText
                          (Js.or_lit (Js.or voice (env !! "VOICE_SERVICE_VOICE"))
                             "en-us")
                          (Js.or_lit (env !! "VOICE_SERVICE_SPEED") "170"));
               if negb (up_ok response)
               then
                 payload ← await (up_text response);
                 Response_json (up_status response)
                   (vb_error (JString (Js.or_lit (Some payload) "TTS failed")))
               else
                 audioBuffer ← await (up_arrayBuffer response);
                 mret {| v_status := 200;
                         v_body := vb_audio audioBuffer
                                     (Js.or_lit (up_contentType response)
                                        "audio/wav") |}
           | None =>
               match present (env !! "OPENAI_API_KEY") with
               | None =>
                   Response_json 503
                     (vb_error (JString
                        "No TTS provider configured. Set VOICE_SERVICE_BASE_URL or OPENAI_API_KEY."))
               | Some openAiApiKey =>
                   openAiResponse ←
                     fetch (openai_tts ("Bearer " ++ openAiApiKey)
                              (Js.or_lit (env !! "OPENAI_TTS_MODEL")
                                 "gpt-4o-mini-tts")
                              (Js.or_lit (Js.or voice (env !! "OPENAI_TTS_VOICE"))
                                 "alloy")
                              inputText);
                   if negb (up_ok openAiResponse)
                   then
                     payload ← await (up_json openAiResponse);
                     Response_json (up_status openAiResponse)
                       (vb_error
                          (or_else
                             (member "message" (member "error" (Some payload)))
                             (JString "OpenAI TTS failed")))
                   else
                     audioBuffer ← await (up_arrayBuffer openAiResponse);
                     mret {| v_status := 200;
                             v_body := vb_audio audioBuffer "audio/mpeg" |}
               end
           end
     end)
    (fun message =>
       Response_json 500
         (vb_error (JString (Js.or_lit (Some message)
                               "Failed to synthesize audio")))).

End Tts.

(** * Vocabulary of the properties *)

Local Open Scope list_scope.

(** The backend a value names, case-insensitively; [None] for a value that
    names none. *)
Definition backend_named (s : string) : option SandboxProvider :=
  if String.eqb (Js.toLowerCase s) "vps" then Some vps
  else if String.eqb (Js.toLowerCase s) "kernel" then Some kernel
  else None.


(** An entry of [executedCodes] is paired with the tool result of the
    invocation [id] in [step]: the first item of the step that is a tool
    result with that id gives the entry its flag, its result and its error;
    when the step has none, the flag is [true] and the rest is absent. *)
Definition pairs_with (step : DetailedStep) (id : string) (e : ExecutedCode)
  : Prop :=
  (exists i name r ok err,
     content step !! i = Some (tool_result id name r ok err)
     /\ (forall i' name' r' ok' err',
           i' < i -> content step !! i' <> Some (tool_result id name' r' ok' err'))
     /\ ec_success e = ok /\ ec_result e = r /\ ec_error e = err)
  \/ ((forall i name r ok err,
         content step !! i <> Some (tool_result id name r ok err))
      /\ ec_success e = true /\ ec_result e = None /\ ec_error e = None).

(** The entry [e] comes from the item at position [j] of step [s]: a tool
    call that carries a code text. *)
Definition entry_of (ds : list DetailedStep) (origin : nat * nat)
    (e : ExecutedCode) : Prop :=
  exists step id name code,
    ds !! origin.1 = Some step
    /\ content step !! origin.2 = Some (tool_call id name (Some code))
    /\ code <> ""
    /\ ec_code e = Some code
    /\ pairs_with step id e.

(** The success flag a tool result of the agent library carries, with the
    default of the route. *)
Definition flag_of (result : option RawResult) : bool :=
  match result with
  | Some r => match raw_success r with Some b => b | None => true end
  | None => true
  end.

(** A computation keeps a relation between the world before and the world
    after. *)
Definition keeps (R : World -> World -> Prop) {A} (m : M A) : Prop :=
  forall w, R w (snd (m w)).

(** The world after has the oracle of the world before, and its history is
    the history before followed by calls that are all [allowed]. *)
Definition adds_only (allowed : Op -> bool) (w w' : World) : Prop :=
  w_oracle w' = w_oracle w
  /\ exists added,
       w_trace w' = w_trace w ++ added
       /\ Forall (fun e => allowed (ev_op e) = true) added.

(** Every call the script makes, however its calls are answered and
    whatever pages it sees, is [allowed]. *)
Fixpoint calls_only (allowed : Op -> bool) (s : Script) : Prop :=
  match s with
  | script_return _ | script_throw _ => True
  | script_call op next =>
      allowed op = true /\ forall r, calls_only allowed (next r)
  | script_pages next => forall pages, calls_only allowed (next pages)
  end.

(** A computation that never throws. *)
Definition total {A} (m : M A) : Prop :=
  forall w, exists a, fst (m w) = Ok a.

(** The call [op] was made, with whatever outcome, on the way from [w] to
    [w']. *)
Definition attempted (op : Op) (w w' : World) : Prop :=
  exists before ok after,
    w_trace w' = w_trace w ++ before ++ {| ev_op := op; ev_ok := ok |} :: after.

(** The rows of a response: what [json()] gives when it is an array. *)
Definition rows_of (response : HttpResponse) : list SessionMemoryItem :=
  match resp_json response with
  | Ok (Some rows) => rows
  | _ => []
  end.

(** The URL [loadRecentSessionMemory] has the platform parse before it
    sends its request. *)
Definition select_url (config : SupabaseMemoryConfig) : string :=
  (sm_url config ++ "/rest/v1/" ++ sm_table config)%string.

(** The select [loadRecentSessionMemory] sends. *)
Definition select_of (config : SupabaseMemoryConfig) (sessionId : string)
    (limit : option Z) : Op :=
  memory_select (sm_url config) (sm_table config) (sm_key config) sessionId
    (Js.nullish limit 6%Z).

(** The loop of both normalizers: every page of the enumeration but the
    primary one is closed, a failure to close being passed over. *)
Definition close_others (primary : nat) (pages : list Page) : M unit :=
  for_of pages (fun currentPage =>
    if negb (same_page primary currentPage)
    then swallow (close_page (pid currentPage))
    else mret tt).

(** Every call to [page.close()] succeeds, whenever it is made. *)
Definition closes_succeed (w : World) : Prop :=
  forall history p, succeeded (o_reply (w_oracle w) history (page_close p)) = true.

Definition is_page_close (op : Op) : bool :=
  match op with page_close _ => true | _ => false end.

Definition any_op (op : Op) : bool := true.

(** [page] is the first page of the enumeration that is neither an
    extension page nor the blank placeholder, or the first page when no
    page qualifies. *)
Definition first_content_or_first (pages : list Page) (page : Page) : Prop :=
  exists i,
    pages !! i = Some page
    /\ ((is_content_page page = true
         /\ forall j q, j < i -> pages !! j = Some q -> is_content_page q = false)
        \/ (i = 0 /\ forall q, q ∈ pages -> is_content_page q = false)).

(** The pages the loop leaves open when every close succeeds: those that
    no pass closed. *)
Definition survives (primary : nat) (enumerated : list Page) (q : Page) : bool :=
  forallb (fun c => same_page primary c || negb (same_page (pid c) q)) enumerated.


(** The event of the [browser.close()] that ends an operation. *)
Definition closing_event (w : World) : Event :=
  {| ev_op := browser_close;
     ev_ok := succeeded (o_reply (w_oracle w) (w_trace w) browser_close) |}.


(** The connections open after a history: one more for each connect that
    succeeded, one less for each [browser.close()] (whatever the close
    reported: the source drops its error). These are the calls of the route:
    what a text the route runs calls of its own ([from_code]) is the text's
    and is not counted. *)
Definition connection_delta (e : Event) : Z :=
  match ev_op e with
  | connectOverCDP _ => if ev_ok e then 1 else 0
  | browser_close => -1
  | _ => 0
  end%Z.

Definition open_connections (history : list Event) : Z :=
  fold_right (fun e n => (connection_delta e + n)%Z) 0%Z history.

Definition not_connection (op : Op) : bool :=
  match op with
  | connectOverCDP _ | browser_close => false
  | _ => true
  end.

(** The operations the route runs on the direct backend. *)
Inductive VpsOperation :=
  | vps_normalize
  | vps_computer_use (input : ComputerUseInput)
  | vps_playwright_execute (code : string).

Definition perform (cdpWsUrl : string) (op : VpsOperation) : M unit :=
  match op with
  | vps_normalize => normalizeToSinglePageVps cdpWsUrl
  | vps_computer_use input =>
      _ ← createVpsComputerUseTool cdpWsUrl input; mret tt
  | vps_playwright_execute code =>
      _ ← createVpsPlaywrightExecuteTool cdpWsUrl code; mret tt
  end.

(** The worlds between the operations of a sequence run one after the
    other, an operation that throws not stopping the next. *)
Fixpoint worlds_between (cdpWsUrl : string) (ops : list VpsOperation)
    (w : World) : list World :=
  match ops with
  | [] => []
  | op :: rest =>
      let w' := snd (perform cdpWsUrl op w) in
      w' :: worlds_between cdpWsUrl rest w'
  end.

(** As many connections are open after as before. *)
Definition balanced (w w' : World) : Prop :=
  open_connections (w_trace w') = open_connections (w_trace w).

(** The calls the route makes before it binds the tools of a backend: the
    reachability probe, the read of the session memory and the console. No
    connection to a backend and no call of the model is among them. *)
Definition is_preflight (op : Op) : bool :=
  match op with
  | fetch_models _ | memory_select _ _ _ _ _ | console_warn _ => true
  | _ => false
  end.

(** A postcondition on what a computation returns when it returns. *)
Definition ensures {A} (P : A -> Prop) (m : M A) : Prop :=
  forall w, match fst (m w) with Ok a => P a | Throw _ => True end.

(** The message of the route for a direct request without an endpoint. *)
Definition missing_endpoint : string :=
  "VPS mode requires cdpWsUrl in request or VPS_SANDBOX_CDP_WS_URL in environment".

(** The three answers of the route: a rejected request (400, [{ error }]),
    a failed run (500, [{ success: false, error }]) and a run that returned
    (200, [{ success: true, ... }]), whose [stepCount] is the number of its
    steps, between 1 and the ceiling of 20. *)
Definition well_formed_response (r : Response) : Prop :=
  match body r with
  | error_body _ => status r = 400
  | failure_body _ => status r = 500
  | success_body run =>
      status r = 200
      /\ run_stepCount run = length (run_detailedSteps run)
      /\ 1 <= run_stepCount run <= 20
  end.

(** The model asks for a tool in every turn, whatever happened before. *)
Definition model_keeps_asking (w : World) : Prop :=
  forall history op,
    exists turn,
      o_model (w_oracle w) history op = Ok turn /\ mt_toolCalls turn <> [].

(** The request passes the checks of the route: it has a task, and what its
    backend needs (an endpoint for the direct one; the access key and a
    session for the managed one). *)
Definition request_ready (env : Env) (body : RequestBody) : bool :=
  Js.truthy (req_task body)
  && match resolveSandboxProvider env (req_provider body) with
     | vps =>
         Js.truthy (Js.or (req_cdpWsUrl body)
                      (vc_cdpWsUrl <$> getVpsSandboxConfig env))
     | kernel =>
         Js.truthy (env !! "KERNEL_API_KEY") && Js.truthy (req_sessionId body)
     end.

(** The tools leave the oracle of the world as it is: they cannot change
    what the outside will answer. *)
Definition tools_keep_oracle (tools : Tools) : Prop :=
  (forall code, keeps (adds_only any_op) (playwright_execute tools code))
  /\ (forall input, keeps (adds_only any_op) (computer_use tools input)).

(** An operation that connects: what runs between the connect and the
    close, and the world the close is made in. *)
Definition connected_body {T} (run : nat -> M T) : M T :=
  context ← first_context;
  if negb context
  then throw "No browser context found on VPS CDP endpoint"
  else
    pages ← context_pages;
    page ← match selectPrimaryPage pages with
           | Some p => mret p
           | None => newPage
           end;
    run (pid page).


(** The required parameters an invocation of [computer_use] lacks. *)
Definition missing_parameters (input : ComputerUseInput) : list string :=
  match in_action input with
  | navigate => if falsy (in_url input) then ["url"] else []
  | click | move =>
      (match in_x input with None => ["x"] | Some _ => [] end)
      ++ (match in_y input with None => ["y"] | Some _ => [] end)
  | type_text => if falsy (in_text input) then ["text"] else []
  | key_press => if falsy (in_key input) then ["key"] else []
  | scroll | wait | screenshot => []
  end.

(** The message names the parameter, in single quotes. *)
Definition names_parameter (message name : string) : bool :=
  Js.includes message ("'" ++ name ++ "'")%string.

(** The answer of the reachability probe of the local endpoint, asked in
    the world [w]: [response.ok], and [false] when the request throws. *)
Definition local_reachable (env : Env) (w : World) : bool :=
  match o_fetch (w_oracle w) (w_trace w)
          (fetch_models
             (buildModelsEndpoint
                (Js.or_lit (env !! "OLLAMA_BASE_URL") "http://localhost:11434/v1")))
  with
  | Ok response => resp_ok response
  | Throw _ => false
  end.

(** *** Texts *)

(** [n] slashes. *)
Fixpoint slashes (n : nat) : string :=
  match n with
  | O => EmptyString
  | S n => String "/" (slashes n)
  end.

Definition first_char (s : string) : option ascii :=
  match s with
  | EmptyString => None
  | String c _ => Some c
  end.

Fixpoint last_char (s : string) : option ascii :=
  match s with
  | EmptyString => None
  | String c EmptyString => Some c
  | String _ r => last_char r
  end.

(** A position next to which a word may begin or end: the end of the text
    or a character that is not a word character. *)
Definition outside_word (c : option ascii) : bool :=
  match c with
  | Some c => negb (is_word_char c)
  | None => true
  end.

(** A text of ASCII characters only: on such a text [Js.toLowerCase] is
    the [toLowerCase] of the source. *)
Fixpoint is_ascii_text (s : string) : bool :=
  match s with
  | EmptyString => true
  | String c r => (nat_of_ascii c <? 128)%nat && is_ascii_text r
  end.

(** The text [part] occurs in [s]. *)
Definition occurs (part s : string) : Prop :=
  exists before after, s = (before ++ part ++ after)%string.

(** The same, decided: [part] starts at some position of [s]. *)
Fixpoint occurs_from (part s : string) : bool :=
  String.prefix part s
  || match s with
     | EmptyString => false
     | String _ r => occurs_from part r
     end.

(** The keywords of a role, and the model configured for it. *)
Definition keywords_of (r : ModelRole) : list string :=
  match r with
  | ocr => ocr_words
  | reasoning => reasoning_words
  | automation => []
  end.

Definition model_of (r : ModelRole) (models : Models) : string :=
  match r with
  | ocr => m_ocr models
  | reasoning => m_reasoning models
  | automation => m_automation models
  end.

(** *** Session memory *)

Definition is_console_warn (op : Op) : bool :=
  match op with console_warn _ => true | _ => false end.

(** A call of the memory module went from [w] to [w']: one request and at
    most one warning after it, and nothing else. *)
Definition one_request (request : Op) (w w' : World) : Prop :=
  w_oracle w' = w_oracle w /\ w_pages w' = w_pages w
  /\ exists ok warnings,
       w_trace w' = w_trace w ++ {| ev_op := request; ev_ok := ok |} :: warnings
       /\ length warnings <= 1
       /\ Forall (fun e => is_console_warn (ev_op e) = true) warnings.

(** *** Tools *)

(** The calls that set a connection up and end it. *)
Definition is_connection_setup (op : Op) : bool :=
  match op with
  | connectOverCDP _ | browser_close | context_newPage => true
  | _ => false
  end.

(** The calls of the managed backend for the session [sessionId]: the
    requests to the service for that session, what the normalization text
    does in the browser of the session, and the console. *)
Definition on_managed_session (sessionId : string) (op : Op) : bool :=
  match op with
  | kernel_playwright_execute s _ _ | kernel_clickMouse s _ _ _
  | kernel_moveMouse s _ _ | kernel_typeText s _ | kernel_pressKey s _
  | kernel_scroll s _ _ _ _ | kernel_captureScreenshot s
  | response_arrayBuffer s => String.eqb s sessionId
  | page_close _ | page_bringToFront _ | console_warn _ => true
  | _ => false
  end.

(** The calls of the direct backend at [cdpWsUrl]: the connection to that
    endpoint, what is done to its browser, and the console. *)
Definition on_direct_endpoint (cdpWsUrl : string) (op : Op) : bool :=
  match op with
  | connectOverCDP url => String.eqb url cdpWsUrl
  | browser_close | context_newPage | page_close _ | page_bringToFront _
  | page_goto _ _ | page_title _ | page_waitForTimeout _ _
  | page_screenshot _ _ | mouse_click _ _ _ _ | mouse_move _ _ _
  | mouse_wheel _ _ _ | keyboard_type _ _ | keyboard_press _ _
  | execute_code _ _ | console_warn _ => true
  | _ => false
  end.










(** The calls the raw-code tool of the direct backend makes of its own for
    the text [code]: the connect to its endpoint, the page it creates for a
    context that has none, the run of the text, and the close. *)
Definition runs_code_at (cdpWsUrl code : string) (op : Op) : bool :=
  match op with
  | connectOverCDP url => String.eqb url cdpWsUrl
  | browser_close | context_newPage => true
  | execute_code _ text => String.eqb text code
  | _ => false
  end.

(** *** Texts of the model *)

(** A call recorded as made by a text, the call itself being [allowed]. *)
Definition by_code (allowed : Op -> bool) (op : Op) : bool :=
  match op with
  | from_code o => allowed o
  | _ => false
  end.

(** Whatever text the outside is asked to run, and whenever, the text makes
    only [allowed] calls. *)
Definition code_within (allowed : Op -> bool) (oracle : Oracle) : Prop :=
  forall history op, calls_only allowed (o_code oracle history op).

(** [adds_only], in the worlds whose outside is as [P] says. *)
Definition adds_only_if (P : Oracle -> Prop) (allowed : Op -> bool)
    (w w' : World) : Prop :=
  P (w_oracle w) -> adds_only allowed w w'.

(** An outside where every text the model writes posts a row to a memory
    store and then throws. *)
Definition stray_row : SaveSessionMemoryInput :=
  {| sv_sessionId := "another-session"; sv_task := "";
     sv_response := ""; sv_modelRole := ""; sv_modelName := "";
     sv_llmProvider := ""; sv_stepCount := 0; sv_success := true |}.

Definition code_posts_and_throws : Oracle :=
  {| o_reply := o_reply always_ok;
     o_fetch := o_fetch always_ok;
     o_model := o_model always_ok;
     o_code := fun _ _ =>
       script_call (memory_insert "https://db.example" "agent_memory" "anon"
                      stray_row)
         (fun _ => script_throw "boom");
     o_url := o_url always_ok |}.

Definition is_execute_code (op : Op) : bool :=
  match op with
  | execute_code _ _ => true
  | _ => false
  end.

(** An outside whose model first has the text [return await page.title()]
    run and then, once a text has been run, ends; the text asks the page for
    its title and returns it. *)
Definition asks_for_title : Oracle :=
  {| o_reply := o_reply always_ok;
     o_fetch := o_fetch always_ok;
     o_model := fun history op =>
       if existsb (fun e => is_execute_code (ev_op e)) history
       then o_model always_ok history op
       else
         Ok {| mt_text := "";
               mt_toolCalls :=
                 [ {| tc_toolCallId := "call-1";
                      tc_input :=
                        playwright_input "return await page.title()" |} ];
               mt_finishReason := Some "tool-calls";
               mt_usage := "" |};
     o_code := fun _ op =>
       match op with
       | execute_code page _ =>
           script_call (page_title page)
             (fun answer =>
                match answer with
                | Ok title => script_return title
                | Throw e => script_throw e
                end)
       | _ => script_return ""
       end;
     o_url := o_url always_ok |}.

(** *** Pages *)

(** From [w] to [w'] pages were closed at most: the pages open in [w'] are
    pages of [w], in the same order and as they were. *)
Definition only_closes (w w' : World) : Prop :=
  w_pages w' `sublist_of` w_pages w.

(** The blank page a context without pages gets in the world [w]. *)
Definition blank_page (w : World) : Page :=
  {| pid := w_next_pid w; page_url := "about:blank" |}.

(** *** The route *)

(** The tools add only [allowed] calls to the history. *)
Definition tools_keep (allowed : Op -> bool) (tools : Tools) : Prop :=
  (forall code, keeps (adds_only allowed) (playwright_execute tools code))
  /\ (forall input, keeps (adds_only allowed) (computer_use tools input)).

(** The same, for an outside that is as [P] says. *)
Definition tools_keep_if (P : Oracle -> Prop) (allowed : Op -> bool)
    (tools : Tools) : Prop :=
  (forall code, keeps (adds_only_if P allowed) (playwright_execute tools code))
  /\ (forall input, keeps (adds_only_if P allowed) (computer_use tools input)).

(** The messages of the route for a managed request that cannot run. *)
Definition missing_access_key : string :=
  "KERNEL_API_KEY environment variable is not set".

Definition missing_session : string := "Kernel mode requires sessionId".

(** The call is no insert into a memory store, whoever makes it: the
    route, or a text the route runs. *)
Fixpoint not_memory_insert (op : Op) : bool :=
  match op with
  | memory_insert _ _ _ _ => false
  | from_code op => not_memory_insert op
  | _ => true
  end.

(** The same model, with texts that post a row to a memory store. *)
Definition asks_and_posts : Oracle :=
  {| o_reply := o_reply always_ok;
     o_fetch := o_fetch always_ok;
     o_model := o_model asks_for_title;
     o_code := o_code code_posts_and_throws;
     o_url := o_url always_ok |}.

(** The inserts into a memory store in a history, whoever made them. *)
Definition memory_inserts (history : list Event) : list Op :=
  List.filter (fun op => negb (not_memory_insert op)) (List.map ev_op history).



(** The answer of the route to a failure with the message [e], and the line
    it logs for it. *)
Definition failure_answer (e : string) : Response :=
  {| status := 500;
     body := failure_body (Js.or_lit (Some e) "Failed to execute agent") |}.

Definition failure_logged (e : string) : Event :=
  {| ev_op := console_warn ("Agent execution error: " ++ e)%string;
     ev_ok := true |}.

(** Every call of the model fails with [e]. *)
Definition model_fails (e : string) (w : World) : Prop :=
  forall history op, o_model (w_oracle w) history op = Throw e.

(** An outside whose model cannot be reached. *)
Definition model_down : Oracle :=
  {| o_reply := o_reply always_ok;
     o_fetch := o_fetch always_ok;
     o_model := fun _ _ => Throw "model unavailable";
     o_code := o_code always_ok;
     o_url := o_url always_ok |}.

(** *** Voice routes *)

(** The audio a request to an upstream provider carries. *)
Definition request_audio (request : Voice.UpstreamRequest) : option Voice.File :=
  match request with
  | Voice.voice_stt _ _ audio | Voice.openai_stt _ _ _ audio => Some audio
  | _ => None
  end.

(** The text a request to an upstream provider asks to be spoken. *)
Definition request_text (request : Voice.UpstreamRequest) : option string :=
  match request with
  | Voice.voice_tts _ text _ _ | Voice.openai_tts _ _ _ text => Some text
  | _ => None
  end.

Definition request_voice (request : Voice.UpstreamRequest) : option string :=
  match request with
  | Voice.voice_tts _ _ voice _ | Voice.openai_tts _ _ voice _ => Some voice
  | _ => None
  end.

(** The request goes to the voice service, at [url]. *)
Definition to_voice_service (request : Voice.UpstreamRequest) : option string :=
  match request with
  | Voice.voice_stt url _ _ | Voice.voice_tts url _ _ _ => Some url
  | _ => None
  end.

(** The request goes to the hosted API, with these credentials. *)
Definition to_hosted_api (request : Voice.UpstreamRequest) : option string :=
  match request with
  | Voice.openai_stt authorization _ _ _
  | Voice.openai_tts authorization _ _ _ => Some authorization
  | _ => None
  end.

(** The provider a voice route uses in an environment: the voice service
    when its base URL is set, else the hosted API when its key is set. *)
Definition provider_fits (env : Env) (path : string)
    (request : Voice.UpstreamRequest) : Prop :=
  match Voice.present (env !! "VOICE_SERVICE_BASE_URL") with
  | Some base =>
      to_voice_service request
      = Some (Js.stripTrailingSlashes base ++ path)%string
  | None =>
      exists key,
        Voice.present (env !! "OPENAI_API_KEY") = Some key
        /\ to_hosted_api request = Some ("Bearer " ++ key)%string
  end.

(** No provider is configured. *)
Definition no_provider (env : Env) : bool :=
  negb (Js.truthy (env !! "VOICE_SERVICE_BASE_URL"))
  && negb (Js.truthy (env !! "OPENAI_API_KEY")).

Definition is_audio (b : Voice.VoiceBody) : bool :=
  match b with Voice.vb_audio _ _ => true | _ => false end.

Definition is_text (b : Voice.VoiceBody) : bool :=
  match b with Voice.vb_text _ => true | _ => false end.

(** The error of a body is a value that counts as true: a message is never
    empty. *)
Definition error_is_set (b : Voice.VoiceBody) : Prop :=
  match b with
  | Voice.vb_error error => Voice.truthy (Some error) = true
  | _ => True
  end.

(** The audio file a speech-to-text request uploads, when it has one. *)
Definition uploaded (req : Stt.Request) : option Voice.File :=
  match req with
  | Stt.form (Some (Voice.entry_file audio)) => Some audio
  | _ => None
  end.

(** The text a text-to-speech request asks for, trimmed; [None] for a body
    that cannot be parsed. *)
Definition asked_text (req : Tts.Request) : option string :=
  match req with
  | Tts.json text _ => Some (Js.trim (Js.or_lit text ""))
  | Tts.unparsable _ => None
  end.

Definition asked_voice (req : Tts.Request) : option string :=
  match req with
  | Tts.json _ voice => voice
  | Tts.unparsable _ => None
  end.

(** The body of a failed upstream answer could be read the way the route
    reads it for that request: as text from the voice service for speech,
    as JSON otherwise. *)
Definition failure_read (request : Voice.UpstreamRequest)
    (upstream : Voice.UpstreamResponse) : bool :=
  match request with
  | Voice.voice_tts _ _ _ _ => succeeded (Voice.up_text upstream)
  | _ => succeeded (Voice.up_json upstream)
  end.

(** What a successful answer reports agrees with the request and with
    itself: the role is the one the task selects, the backend is the one the
    request resolves to, the step count is the number of detailed steps,
    whose numbers run from 1, and the executed codes are those of the
    detailed steps. *)
Definition answer_agrees (env : Env) (req : Request) (run : RunResult)
  : Prop :=
  exists request task,
    req = json_request request
    /\ req_task request = Some task /\ task <> ""
    /\ run_llmRole run = sel_role (selectModelForTask task DEFAULT_MODELS)
    /\ run_sandboxProvider run
       = resolveSandboxProvider env (req_provider request)
    /\ run_stepCount run = length (run_detailedSteps run)
    /\ List.map stepNumber (run_detailedSteps run)
       = seq 1 (length (run_detailedSteps run))
    /\ run_executedCodes run = executedCodes (run_detailedSteps run).

(** A request whose text is in ASCII, where [Js.trim] is the [trim] of the
    source. *)
Definition ascii_request (req : Tts.Request) : bool :=
  match req with
  | Tts.json text _ => is_ascii_text (Js.or_lit text "")
  | Tts.unparsable _ => true
  end.

(** A voice service that answers every request with a few bytes of audio. *)
Definition voice_platform : Voice.Platform :=
  {| Voice.pf_fetch := fun _ =>
       Ok {| Voice.up_status := 200;
             Voice.up_contentType := Some "audio/wav";
             Voice.up_json := Throw "Unexpected token R in JSON";
             Voice.up_text := Ok "RIFF";
             Voice.up_arrayBuffer := Ok "RIFF" |};
     Voice.pf_status_error := fun _ => "init.status must be in the range of 200 to 599" |}.

Definition voice_env : Env := {[ "VOICE_SERVICE_BASE_URL" := "http://voice/" ]}.

(** [{ text: "  hello ", voice: "en-gb" }] *)
Definition hello_request : Tts.Request :=
  Tts.json (Some "  hello ") (Some "en-gb").

(** *** Inference backend *)

(** Nothing the agent needs of a backend is empty: its base URL, its key
    and the model of each role; and extra headers are only sent to the cloud
    backend, each with a value. *)
Definition runtime_complete (config : OllamaRuntimeConfig) : Prop :=
  rc_baseURL config <> "" /\ rc_apiKey config <> ""
  /\ m_automation (rc_models config) <> ""
  /\ m_reasoning (rc_models config) <> ""
  /\ m_ocr (rc_models config) <> ""
  /\ match rc_headers config with
     | None => True
     | Some headers =>
         rc_provider config = cloud /\ headers <> []
         /\ Forall (fun header => snd header <> "") headers
     end.

(** The probe of the local endpoint configured in [env]. *)
Definition local_probe (env : Env) : Op :=
  fetch_models
    (buildModelsEndpoint
       (Js.or_lit (env !! "OLLAMA_BASE_URL") "http://localhost:11434/v1")).

(** *** Memory session *)

(** The session whose memory a request reads and writes: its own session
    id, else the one configured for the direct backend, else the default. *)
Definition memory_session (env : Env) (request : RequestBody) : string :=
  Js.or_lit (Js.or (req_sessionId request)
               (vc_sessionId <$> getVpsSandboxConfig env))
    "vps-sandbox-session".

(** The call does not touch the memory of another session than
    [sessionId], whoever makes it: the route, or a text the route runs. *)
Fixpoint in_memory_session (sessionId : string) (op : Op) : bool :=
  match op with
  | memory_select _ _ _ s _ => String.eqb s sessionId
  | memory_insert _ _ _ row => String.eqb (sv_sessionId row) sessionId
  | from_code op => in_memory_session sessionId op
  | _ => true
  end.

(** The call does not touch the memory store, whoever makes it. *)
Fixpoint no_memory (op : Op) : bool :=
  match op with
  | memory_select _ _ _ _ _ | memory_insert _ _ _ _ => false
  | from_code op => no_memory op
  | _ => true
  end.

(** * Properties *)

(** ** Provider resolution *)

Lemma truthy_Some s : Js.truthy (Some s) = true <-> s <> "".
Proof.
  unfold Js.truthy. destruct (String.eqb_spec s ""); simpl; split; congruence.
Qed.

Lemma or_lit_truthy v d : Js.truthy v = true -> Some (Js.or_lit v d) = v.
Proof.
  destruct v as [s|]; simpl; [|discriminate].
  destruct (String.eqb s ""); simpl; congruence.
Qed.

Lemma or_lit_falsy v d : Js.truthy v = false -> Js.or_lit v d = d.
Proof.
  destruct v as [s|]; simpl; [|reflexivity].
  destruct (String.eqb s ""); simpl; congruence.
Qed.

Lemma or_lit_nonempty v d : d <> "" -> Js.or_lit v d <> "".
Proof.
  intros Hd. destruct v as [s|]; simpl; [|exact Hd].
  destruct (String.eqb_spec s ""); assumption.
Qed.

Lemma resolve_named env input name :
  Js.or input (env !! "SANDBOX_PROVIDER") = Some name -> name <> "" ->
  resolveSandboxProvider env input = default kernel (backend_named name).
Proof.
  intros Hor Hne. unfold resolveSandboxProvider, backend_named.
  rewrite Hor. simpl.
  destruct (String.eqb_spec name ""); [contradiction|].
  destruct (String.eqb (Js.toLowerCase name) "vps"); [reflexivity|].
  destruct (String.eqb (Js.toLowerCase name) "kernel"); reflexivity.
Qed.

(** C9. Provider resolution: an explicit provider decides, and it gives the
    backend it names; without one the environment's default decides in the
    same way; a value that names no backend, and the absence of both, give
    the managed (kernel) backend. *)
Theorem resolveSandboxProvider_priority (env : Env) :
  (forall p, p <> "" ->
     resolveSandboxProvider env (Some p) = default kernel (backend_named p))
  /\ (forall input d,
        Js.truthy input = false ->
        env !! "SANDBOX_PROVIDER" = Some d -> d <> "" ->
        resolveSandboxProvider env input = default kernel (backend_named d))
  /\ (forall input,
        Js.truthy input = false ->
        Js.truthy (env !! "SANDBOX_PROVIDER") = false ->
        resolveSandboxProvider env input = kernel).
Proof.
  repeat split.
  - intros p Hp. apply resolve_named; [|assumption].
    unfold Js.or. apply truthy_Some in Hp. rewrite Hp. reflexivity.
  - intros input d Hin Hd Hne. apply resolve_named; [|assumption].
    unfold Js.or. rewrite Hin. assumption.
  - intros input Hin Henv. unfold resolveSandboxProvider, Js.or.
    rewrite Hin. rewrite (or_lit_falsy _ _ Henv). reflexivity.
Qed.

Lemma resolveSandboxProvider_priority_witness :
  resolveSandboxProvider {[ "SANDBOX_PROVIDER" := "vps" ]} (Some "Kernel") = kernel
  /\ resolveSandboxProvider {[ "SANDBOX_PROVIDER" := "kernel" ]} (Some "VPS") = vps
  /\ resolveSandboxProvider {[ "SANDBOX_PROVIDER" := "vps" ]} (Some "direct") = kernel
  /\ resolveSandboxProvider {[ "SANDBOX_PROVIDER" := "vps" ]} (Some "") = vps
  /\ resolveSandboxProvider ∅ None = kernel.
Proof.
  pose proof (resolveSandboxProvider_priority {[ "SANDBOX_PROVIDER" := "vps" ]})
    as (Hexplicit & Hdefault & _).
  pose proof (resolveSandboxProvider_priority {[ "SANDBOX_PROVIDER" := "kernel" ]})
    as (Hexplicit' & _ & _).
  pose proof (resolveSandboxProvider_priority ∅) as (_ & _ & Hnone).
  split; [exact (Hexplicit "Kernel" ltac:(discriminate))|].
  split; [exact (Hexplicit' "VPS" ltac:(discriminate))|].
  split; [exact (Hexplicit "direct" ltac:(discriminate))|].
  split; [exact (Hdefault (Some "") "vps" eq_refl eq_refl ltac:(discriminate))|].
  exact (Hnone None eq_refl eq_refl).
Defined.

(** ** Trace extractor *)

Section Positions.

Context {A : Type} (P : A -> bool).

(** [find] returns the first element that satisfies the predicate. *)
Lemma find_first (l : list A) :
  match List.find P l with
  | Some x =>
      exists i, l !! i = Some x /\ P x = true
                /\ forall i' y, i' < i -> l !! i' = Some y -> P y = false
  | None => forall i y, l !! i = Some y -> P y = false
  end.
Proof.
  induction l as [|a l IH]; simpl.
  - intros i y H. destruct i; discriminate.
  - destruct (P a) eqn:Pa.
    + exists 0. repeat split; [assumption|]. intros i' y Hi. lia.
    + destruct (List.find P l) as [x|].
      * destruct IH as (i & Hi & Px & Hbefore).
        exists (S i). repeat split; [assumption..|].
        intros [|i'] y Hlt Hy; simpl in Hy.
        -- congruence.
        -- apply (Hbefore i'); [lia|assumption].
      * intros [|i] y Hy; simpl in Hy; [congruence|eauto].
Qed.

(** The positions of the elements [filter] keeps: one position per kept
    element, in order, and no other. *)
Lemma filter_positions (l : list A) :
  exists js : list nat,
    NoDup js
    /\ (forall j, j ∈ js <-> exists x, l !! j = Some x /\ P x = true)
    /\ Forall2 (fun j x => l !! j = Some x /\ P x = true) js (List.filter P l).
Proof.
  induction l as [|a l (js & Hnd & Hin & Hall)].
  - exists []. split; [constructor|]. split; [|constructor].
    intros j. split.
    + intros H. inversion H.
    + intros (x & H & _). destruct j; discriminate.
  - assert (Hshift : NoDup (S <$> js)).
    { apply NoDup_fmap_2; [|assumption]. intros ? ?; congruence. }
    assert (Hall' : Forall2 (fun j x => (a :: l) !! j = Some x /\ P x = true)
                      (S <$> js) (List.filter P l)).
    { clear -Hall. induction Hall; simpl; constructor; auto. }
    simpl. destruct (P a) eqn:Pa.
    + exists (0 :: (S <$> js)). split; [|split].
      * apply NoDup_cons. split; [|assumption].
        rewrite list_elem_of_fmap. intros (j' & H & _). lia.
      * intros j. rewrite elem_of_cons, list_elem_of_fmap. split.
        -- intros [->|(j' & -> & Hj')]; [eauto|]. simpl. apply Hin; assumption.
        -- intros (x & Hx & Px). destruct j as [|j]; [auto|].
           right. exists j. split; [reflexivity|]. apply Hin. eauto.
      * constructor; auto.
    + exists (S <$> js). split; [assumption|]. split; [|assumption].
      intros j. rewrite list_elem_of_fmap. split.
      * intros (j' & -> & Hj'). simpl. apply Hin; assumption.
      * intros (x & Hx & Px). destruct j as [|j]; simpl in Hx.
        -- congruence.
        -- exists j. split; [reflexivity|]. apply Hin. eauto.
Qed.

End Positions.

Lemma Forall2_map_impl {A B C} (R : A -> B -> Prop) (Q : A -> C -> Prop)
    (f : B -> C) (l : list A) (k : list B) :
  (forall a b, R a b -> Q a (f b)) ->
  Forall2 R l k -> Forall2 Q l (List.map f k).
Proof. intros HRQ H. induction H; simpl; constructor; auto. Qed.

Lemma Forall2_fmap_impl {A B C} (R : A -> C -> Prop) (Q : B -> C -> Prop)
    (f : A -> B) (l : list A) (k : list C) :
  (forall a c, R a c -> Q (f a) c) ->
  Forall2 R l k -> Forall2 Q (f <$> l) k.
Proof. intros HRQ H. induction H; simpl; constructor; auto. Qed.

Lemma code_call_inv (item : Item) :
  is_code_call item = true ->
  exists id name code, item = tool_call id name (Some code) /\ code <> "".
Proof.
  destruct item as [id name [code|]| | |]; simpl; try discriminate.
  intros H. exists id, name, code. split; [reflexivity|].
  apply truthy_Some. exact H.
Qed.

(** The entry built for a tool call is paired with the first tool result of
    the same id in the step, or defaults when there is none. *)
Lemma pairs_with_executedCode step id name code :
  pairs_with step id (executedCode step (tool_call id name code)).
Proof.
  unfold pairs_with, executedCode.
  pose proof (find_first (is_result_of (tool_call id name code)) (content step)) as Hfind.
  destruct (List.find _ (content step)) as [r|].
  - destruct Hfind as (i & Hi & Hr & Hbefore). left.
    destruct r as [|id' name' r ok err| |]; simpl in Hr; try discriminate.
    apply String.eqb_eq in Hr. subst id'.
    exists i, name', r, ok, err. repeat split; [assumption|].
    intros i' n' r' ok' err' Hlt Hi'.
    specialize (Hbefore _ _ Hlt Hi'). simpl in Hbefore.
    rewrite String.eqb_refl in Hbefore. discriminate.
  - right. repeat split.
    intros i n r ok err Hi. specialize (Hfind _ _ Hi). simpl in Hfind.
    rewrite String.eqb_refl in Hfind. discriminate.
Qed.

Lemma step_entries (step : DetailedStep) :
  exists js : list nat,
    NoDup js
    /\ (forall j, j ∈ js <->
          exists item, content step !! j = Some item /\ is_code_call item = true)
    /\ Forall2
         (fun j e => exists id name code,
            content step !! j = Some (tool_call id name (Some code))
            /\ code <> "" /\ ec_code e = Some code /\ pairs_with step id e)
         js
         (List.map (executedCode step) (List.filter is_code_call (content step))).
Proof.
  destruct (filter_positions is_code_call (content step)) as (js & Hnd & Hin & Hall).
  exists js. split; [assumption|]. split; [assumption|].
  eapply Forall2_map_impl; [|exact Hall].
  intros j item [Hj Hcode]. simpl in *.
  destruct (code_call_inv _ Hcode) as (id & name & code & -> & Hne).
  exists id, name, code. repeat split; try assumption.
  apply pairs_with_executedCode.
Qed.

Lemma executedCodes_origin (ds : list DetailedStep) :
  exists origin : list (nat * nat),
    NoDup origin
    /\ (forall s j, (s, j) ∈ origin <->
          exists step item,
            ds !! s = Some step /\ content step !! j = Some item
            /\ is_code_call item = true)
    /\ Forall2 (entry_of ds) origin (executedCodes ds).
Proof.
  induction ds as [|d ds (origin & Hnd & Hin & Hall)].
  - exists []. split; [constructor|]. split; [|constructor].
    intros s j. split; [intros H; inversion H|].
    intros (step & item & H & _). destruct s; discriminate.
  - destruct (step_entries d) as (js & Hnd0 & Hin0 & Hall0).
    exists ((pair 0 <$> js) ++ (prod_map S id <$> origin)).
    split; [|split].
    + apply NoDup_app. split; [|split].
      * apply NoDup_fmap_2; [|assumption]. intros ? ?; congruence.
      * intros [s j]. rewrite !list_elem_of_fmap.
        intros (j' & Heq & _) ([s' j''] & Heq' & _). simpl in *. congruence.
      * apply NoDup_fmap_2; [|assumption].
        intros [s j] [s' j']; simpl; congruence.
    + intros s j. rewrite elem_of_app, !list_elem_of_fmap. split.
      * intros [(j' & Heq & Hj')|([s' j'] & Heq & Hsj)];
          simpl in Heq; injection Heq as -> ->.
        -- apply Hin0 in Hj' as (item & H1 & H2). exists d, item. auto.
        -- apply Hin in Hsj as (step & item & H1 & H2 & H3).
           exists step, item. auto.
      * intros (step & item & Hs & Hj & Hc). destruct s as [|s]; simpl in Hs.
        -- injection Hs as <-. left. exists j. split; [reflexivity|].
           apply Hin0. eauto.
        -- right. exists (s, j). split; [reflexivity|]. apply Hin. eauto.
    + simpl. apply Forall2_app.
      * eapply Forall2_fmap_impl; [|exact Hall0].
        intros j e He. simpl in He.
        destruct He as (id & name & code & H1 & H2 & H3 & H4).
        exists d, id, name, code. simpl. auto.
      * eapply Forall2_fmap_impl; [|exact Hall].
        intros [s j] e He.
        destruct He as (step & id & name & code & H1 & H2 & H3 & H4 & H5).
        exists step, id, name, code. simpl in *. auto.
Qed.

(** The flag of a tool result of [detailedSteps] is the flag of the item it
    was made from, [true] when that has no result or no flag. *)
Lemma detailedSteps_flag (steps : list RawStep) s step j id name r ok err :
  detailedSteps steps !! s = Some step ->
  content step !! j = Some (tool_result id name r ok err) ->
  exists raw result,
    steps !! s = Some raw
    /\ Js.nullish (rs_content raw) [] !! j = Some (raw_tool_result id name result)
    /\ ok = flag_of result.
Proof.
  unfold detailedSteps. rewrite list_lookup_imap.
  destruct (steps !! s) as [raw|]; simpl; [|discriminate].
  intros [= <-]. simpl.
  change (List.map processItem ?l) with (processItem <$> l).
  rewrite list_lookup_fmap.
  destruct (Js.nullish (rs_content raw) [] !! j) as [item|] eqn:Hitem; simpl;
    [|discriminate].
  intros [= H]. exists raw.
  destruct item as [| id' name' result | | |]; simpl in H; try discriminate.
  injection H as -> -> <- <- <-. exists result.
  split; [reflexivity|]. split; [exact Hitem|].
  unfold flag_of. destruct result as [[res [b|] e]|]; reflexivity.
Qed.

(** C5. Every entry of [executedCodes] comes from one code-carrying
    tool-call item of [detailedSteps], a different item for each entry, and
    every such item has its entry; the entry is paired with the tool result
    of equal id of the same step, whose success flag it takes, and the flag
    is [true] when the step has no such result or the result carries no
    flag. *)
Theorem executedCodes_round_trip (steps : list RawStep) :
  exists origin : list (nat * nat),
    NoDup origin
    /\ (forall s j, (s, j) ∈ origin <->
          exists step item,
            detailedSteps steps !! s = Some step
            /\ content step !! j = Some item
            /\ is_code_call item = true)
    /\ Forall2 (entry_of (detailedSteps steps)) origin
         (executedCodes (detailedSteps steps))
    /\ (forall s step j id name r ok err,
          detailedSteps steps !! s = Some step ->
          content step !! j = Some (tool_result id name r ok err) ->
          exists raw result,
            steps !! s = Some raw
            /\ Js.nullish (rs_content raw) [] !! j
               = Some (raw_tool_result id name result)
            /\ ok = flag_of result).
Proof.
  destruct (executedCodes_origin (detailedSteps steps)) as (origin & H1 & H2 & H3).
  exists origin. repeat split; try assumption; try apply H2.
  intros. eapply detailedSteps_flag; eassumption.
Qed.

(** ** Reasoning about computations *)

Lemma bind_Ok {A B} (m : M A) (f : A -> M B) w a w' :
  m w = (Ok a, w') -> (m ≫= f) w = f a w'.
Proof. intros H. unfold mbind, M_bind. rewrite H. reflexivity. Qed.

Lemma bind_Throw {A B} (m : M A) (f : A -> M B) w e w' :
  m w = (Throw e, w') -> (m ≫= f) w = (Throw e, w').
Proof. intros H. unfold mbind, M_bind. rewrite H. reflexivity. Qed.

Section Keeps.

Variable R : World -> World -> Prop.
Hypothesis R_refl : forall w, R w w.
Hypothesis R_trans : forall w1 w2 w3, R w1 w2 -> R w2 w3 -> R w1 w3.

Lemma keeps_ret {A} (a : A) : keeps R (mret a).
Proof. intros w. apply R_refl. Qed.

Lemma keeps_throw {A} e : keeps R (@throw A e).
Proof. intros w. apply R_refl. Qed.

Lemma keeps_read {A} (f : World -> A) : keeps R (read f).
Proof. intros w. apply R_refl. Qed.

Lemma keeps_settle {A} (r : Result A) : keeps R (settle r).
Proof. intros w. apply R_refl. Qed.

Lemma keeps_new_URL text : keeps R (new_URL text).
Proof. intros w. apply R_refl. Qed.

Lemma keeps_bind {A B} (m : M A) (f : A -> M B) :
  keeps R m -> (forall a, keeps R (f a)) -> keeps R (m ≫= f).
Proof.
  intros Hm Hf w. specialize (Hm w). unfold mbind, M_bind.
  destruct (m w) as [[e|a] w']; simpl in *; [assumption|].
  eapply R_trans; [eassumption|apply Hf].
Qed.

Lemma keeps_try_catch {A} (m : M A) h :
  keeps R m -> (forall e, keeps R (h e)) -> keeps R (try_catch m h).
Proof.
  intros Hm Hh w. specialize (Hm w). unfold try_catch.
  destruct (m w) as [[e|a] w']; simpl in *; [|assumption].
  eapply R_trans; [eassumption|apply Hh].
Qed.

Lemma keeps_try_finally {A} (m : M A) f :
  keeps R m -> keeps R f -> keeps R (try_finally m f).
Proof.
  intros Hm Hf w. specialize (Hm w). unfold try_finally.
  destruct (m w) as [r w']. specialize (Hf w').
  destruct (f w') as [[e|[]] w'']; simpl in *; eapply R_trans; eassumption.
Qed.

Lemma keeps_swallow {A} (m : M A) : keeps R m -> keeps R (swallow m).
Proof.
  intros Hm. apply keeps_try_catch.
  - apply keeps_bind; [assumption|]. intros. apply keeps_ret.
  - intros. apply keeps_ret.
Qed.

Lemma keeps_for_of {A} (xs : list A) body :
  (forall x, keeps R (body x)) -> keeps R (for_of xs body).
Proof.
  intros Hb. induction xs as [|x xs IH]; simpl.
  - apply keeps_ret.
  - apply keeps_bind; [apply Hb|]. intros. apply IH.
Qed.

Lemma keeps_for_each {A B} (xs : list A) (f : A -> M B) :
  (forall x, keeps R (f x)) -> keeps R (for_each xs f).
Proof.
  intros Hf. induction xs as [|x xs IH]; simpl.
  - apply keeps_ret.
  - apply keeps_bind; [apply Hf|]. intros.
    apply keeps_bind; [apply IH|]. intros. apply keeps_ret.
Qed.

End Keeps.

(** *** Never throwing *)

Lemma total_ret {A} (a : A) : total (mret a).
Proof. intros w. eexists. reflexivity. Qed.

Lemma total_read {A} (f : World -> A) : total (read f).
Proof. intros w. eexists. reflexivity. Qed.

Lemma total_update f : total (update f).
Proof. intros w. eexists. reflexivity. Qed.

Lemma total_warn msg : total (warn msg).
Proof. intros w. eexists. reflexivity. Qed.

Lemma total_bind {A B} (m : M A) (f : A -> M B) :
  total m -> (forall a, total (f a)) -> total (m ≫= f).
Proof.
  intros Hm Hf w. destruct (Hm w) as [a Ha]. unfold mbind, M_bind.
  destruct (m w) as [r w']. simpl in Ha. subst r. apply Hf.
Qed.

Lemma total_try_catch {A} (m : M A) h :
  (forall e, total (h e)) -> total (try_catch m h).
Proof.
  intros Hh w. unfold try_catch.
  destruct (m w) as [[e|a] w']; [apply Hh|]. eexists. reflexivity.
Qed.

Lemma total_swallow {A} (m : M A) : total (swallow m).
Proof. apply total_try_catch. intros. apply total_ret. Qed.

Lemma total_for_of {A} (xs : list A) body :
  (forall x, total (body x)) -> total (for_of xs body).
Proof.
  intros Hb. induction xs as [|x xs IH]; simpl.
  - apply total_ret.
  - apply total_bind; [apply Hb|]. intros. apply IH.
Qed.

Lemma total_for_each {A B} (xs : list A) (f : A -> M B) :
  (forall x, total (f x)) -> total (for_each xs f).
Proof.
  intros Hf. induction xs as [|x xs IH]; simpl.
  - apply total_ret.
  - apply total_bind; [apply Hf|]. intros.
    apply total_bind; [apply IH|]. intros. apply total_ret.
Qed.

Lemma total_unit (m : M unit) : total m -> forall w, fst (m w) = Ok tt.
Proof. intros H w. destruct (H w) as [[] Ha]. exact Ha. Qed.

(** *** What a computation adds to the history *)

Section AddsOnly.

Variable allowed : Op -> bool.

Lemma adds_only_refl w : adds_only allowed w w.
Proof.
  split; [reflexivity|]. exists []. split; [|constructor].
  symmetry. apply app_nil_r.
Qed.

Lemma adds_only_trans w1 w2 w3 :
  adds_only allowed w1 w2 -> adds_only allowed w2 w3 ->
  adds_only allowed w1 w3.
Proof.
  intros (Ho1 & a1 & Ht1 & Ha1) (Ho2 & a2 & Ht2 & Ha2).
  split; [congruence|]. exists (a1 ++ a2). split.
  - rewrite Ht2, Ht1. symmetry. apply app_assoc.
  - apply Forall_app. split; assumption.
Qed.

Lemma adds_only_event e w :
  allowed (ev_op e) = true -> adds_only allowed w (record_event e w).
Proof.
  intros He. split; [reflexivity|]. exists [e]. split; [reflexivity|].
  constructor; [assumption|constructor].
Qed.

Lemma keeps_ask {A} (oracle : Oracle -> list Event -> Op -> Result A) op :
  allowed op = true -> keeps (adds_only allowed) (ask oracle op).
Proof. intros Hop w. apply adds_only_event. exact Hop. Qed.

Lemma keeps_warn msg :
  allowed (console_warn msg) = true -> keeps (adds_only allowed) (warn msg).
Proof. intros Hop w. apply adds_only_event. exact Hop. Qed.

Lemma keeps_update f :
  (forall w, w_oracle (f w) = w_oracle w /\ w_trace (f w) = w_trace w) ->
  keeps (adds_only allowed) (update f).
Proof.
  intros Hf w. destruct (Hf w) as [Ho Ht]. split; [exact Ho|].
  exists []. split; [|constructor]. simpl. rewrite Ht. symmetry. apply app_nil_r.
Qed.

Lemma effect_of_history op w :
  w_oracle (effect_of op w) = w_oracle w
  /\ w_trace (effect_of op w) = w_trace w.
Proof. destruct op; split; reflexivity. Qed.

Lemma keeps_code_call op :
  allowed (from_code op) = true -> keeps (adds_only allowed) (code_call op).
Proof.
  intros Hop. unfold code_call.
  apply keeps_bind; [apply adds_only_trans| |intros r].
  - apply keeps_ask. exact Hop.
  - apply keeps_bind; [apply adds_only_trans| |intros _].
    + apply keeps_update. intros w. apply effect_of_history.
    + apply keeps_ret. apply adds_only_refl.
Qed.

(** A script adds the calls it makes, each recorded as the script's. *)
Lemma keeps_run_script s :
  calls_only (fun op => allowed (from_code op)) s ->
  keeps (adds_only allowed) (run_script s).
Proof.
  induction s as [result|message|op next IH|next IH]; intros Hs w;
    cbn [run_script]; try apply adds_only_refl.
  - destruct Hs as [Hop Hnext].
    pose proof (keeps_code_call op Hop w) as Hcall.
    destruct (code_call op w) as [r w']. cbn [snd] in Hcall.
    eapply adds_only_trans; [exact Hcall|]. apply IH, Hnext.
  - apply IH, Hs.
Qed.

Lemma calls_only_any s :
  (forall op, allowed op = true) -> calls_only allowed s.
Proof.
  intros Hall.
  induction s as [result|message|op next IH|next IH]; cbn [calls_only]; auto.
Qed.

End AddsOnly.

(** The run of a text adds its calls and, last, the record of the run. *)
Lemma executeCode_within allowed page code w :
  allowed (execute_code page code) = true ->
  calls_only (fun op => allowed (from_code op))
    (o_code (w_oracle w) (w_trace w) (execute_code page code)) ->
  adds_only allowed w (snd (executeCode page code w)).
Proof.
  intros Hrun Hcode. unfold executeCode.
  pose proof (keeps_run_script allowed _ Hcode w) as Hscript.
  destruct (run_script _ w) as [r w']. cbn [snd] in *.
  eapply adds_only_trans; [exact Hscript|]. apply adds_only_event. exact Hrun.
Qed.

Lemma keeps_executeCode allowed page code :
  allowed (execute_code page code) = true ->
  (forall op, allowed (from_code op) = true) ->
  keeps (adds_only allowed) (executeCode page code).
Proof.
  intros Hrun Hall w. apply executeCode_within; [exact Hrun|].
  apply calls_only_any. exact Hall.
Qed.

Lemma adds_only_weaken (a b : Op -> bool) w w' :
  (forall op, a op = true -> b op = true) ->
  adds_only a w w' -> adds_only b w w'.
Proof.
  intros Hab (Ho & added & Ht & Ha). split; [exact Ho|].
  exists added. split; [exact Ht|].
  eapply Forall_impl; [exact Ha|]. intros e. apply Hab.
Qed.

Lemma calls_only_weaken (a b : Op -> bool) s :
  (forall op, a op = true -> b op = true) ->
  calls_only a s -> calls_only b s.
Proof.
  intros Hab.
  induction s as [result|message|op next IH|next IH]; cbn [calls_only]; auto.
  intros [Hop Hnext]. split; [apply Hab, Hop|]. intros r. apply IH, Hnext.
Qed.

(** *** The same, for an outside that keeps to a condition *)

Section AddsOnlyIf.

Variable P : Oracle -> Prop.
Variable allowed : Op -> bool.

Lemma adds_only_if_refl w : adds_only_if P allowed w w.
Proof. intros _. apply adds_only_refl. Qed.

Lemma adds_only_if_trans w1 w2 w3 :
  adds_only_if P allowed w1 w2 -> adds_only_if P allowed w2 w3 ->
  adds_only_if P allowed w1 w3.
Proof.
  intros H12 H23 HP. specialize (H12 HP).
  eapply adds_only_trans; [exact H12|]. apply H23.
  destruct H12 as [-> _]. exact HP.
Qed.

Lemma keeps_if {A} (m : M A) :
  keeps (adds_only allowed) m -> keeps (adds_only_if P allowed) m.
Proof. intros Hm w _. apply Hm. Qed.

End AddsOnlyIf.

Lemma keeps_executeCode_if (a b : Op -> bool) page code :
  b (execute_code page code) = true ->
  (forall op, a op = true -> b (from_code op) = true) ->
  keeps (adds_only_if (code_within a) b) (executeCode page code).
Proof.
  intros Hrun Hab w Hcode. apply executeCode_within; [exact Hrun|].
  eapply calls_only_weaken; [|apply Hcode]. exact Hab.
Qed.

(** *** What a computation returns *)

Lemma ensures_ret {A} (P : A -> Prop) a : P a -> ensures P (mret a).
Proof. intros H w. exact H. Qed.

Lemma ensures_throw {A} (P : A -> Prop) e : ensures P (throw e).
Proof. intros w. exact I. Qed.

Lemma ensures_bind {A B} (Q : A -> Prop) (P : B -> Prop) (m : M A) f :
  ensures Q m -> (forall a, Q a -> ensures P (f a)) -> ensures P (m ≫= f).
Proof.
  intros Hm Hf w. specialize (Hm w). unfold mbind, M_bind.
  destruct (m w) as [[e|a] w']; simpl in *; [exact I|]. apply Hf, Hm.
Qed.

Lemma ensures_any {A} (m : M A) : ensures (fun _ => True) m.
Proof. intros w. destruct (fst (m w)); exact I. Qed.

Lemma ensures_try_catch {A} (P : A -> Prop) (m : M A) h :
  ensures P m -> (forall e, ensures P (h e)) -> ensures P (try_catch m h).
Proof.
  intros Hm Hh w. specialize (Hm w). unfold try_catch.
  destruct (m w) as [[e|a] w']; simpl in *; [apply Hh|exact Hm].
Qed.

Lemma ensures_try_finally {A} (P : A -> Prop) (m : M A) f :
  ensures P m -> ensures P (try_finally m f).
Proof.
  intros Hm w. specialize (Hm w). unfold try_finally.
  destruct (m w) as [r w']. destruct (f w') as [[e|[]] w'']; simpl in *;
    [exact I|exact Hm].
Qed.


(** ** Session memory *)

Lemma loadRecentSessionMemory_unconfigured env sessionId limit w :
  getSupabaseMemoryConfig env = None ->
  loadRecentSessionMemory env sessionId limit w = (Ok [], w).
Proof. intros H. unfold loadRecentSessionMemory. rewrite H. reflexivity. Qed.

(** An endpoint the platform does not parse: nothing is sent, the failure is
    logged and no item is returned. *)
Lemma loadRecentSessionMemory_unparsed env sessionId limit config w e :
  getSupabaseMemoryConfig env = Some config ->
  o_url (w_oracle w) (select_url config) = Throw e ->
  loadRecentSessionMemory env sessionId limit w
  = (Ok [],
     record_event
       {| ev_op := console_warn ("Error loading Supabase memory: " ++ e)%string;
          ev_ok := true |} w).
Proof.
  intros H Hurl. unfold loadRecentSessionMemory. rewrite H.
  unfold try_catch, new_URL, mbind, M_bind. fold (select_url config).
  rewrite Hurl. reflexivity.
Qed.

(** What [loadRecentSessionMemory] returns, by the answer of the store. *)
Lemma loadRecentSessionMemory_configured env sessionId limit config w u :
  getSupabaseMemoryConfig env = Some config ->
  o_url (w_oracle w) (select_url config) = Ok u ->
  exists w',
    loadRecentSessionMemory env sessionId limit w
    = (Ok match o_fetch (w_oracle w) (w_trace w) (select_of config sessionId limit) with
          | Throw _ => []
          | Ok response => if resp_ok response then rows_of response else []
          end, w')
    /\ w_pages w' = w_pages w.
Proof.
  intros H Hurl. unfold loadRecentSessionMemory. rewrite H.
  unfold try_catch, new_URL, fetch, ask, select_of, rows_of, mbind, M_bind,
    settle, warn, mret, M_ret.
  fold (select_url config). rewrite Hurl.
  destruct (o_fetch _ _ _) as [e|[ok text json]]; simpl.
  - eexists. split; reflexivity.
  - destruct ok; simpl.
    + destruct json as [e|[rows|]]; simpl; eexists; split; reflexivity.
    + destruct text as [e|t]; simpl; eexists; split; reflexivity.
Qed.

Lemma loadRecentSessionMemory_returns env sessionId limit w :
  exists items w',
    loadRecentSessionMemory env sessionId limit w = (Ok items, w')
    /\ w_pages w' = w_pages w.
Proof.
  destruct (getSupabaseMemoryConfig env) as [config|] eqn:Hconfig.
  - destruct (o_url (w_oracle w) (select_url config)) as [e|u] eqn:Hurl.
    + eexists _, _. split.
      * apply (loadRecentSessionMemory_unparsed _ _ _ _ _ _ Hconfig Hurl).
      * reflexivity.
    + destruct (loadRecentSessionMemory_configured env sessionId limit config
                  w u Hconfig Hurl) as (w' & Hload & Hpages).
      eexists _, w'. split; [exact Hload|exact Hpages].
  - exists [], w.
    split; [apply loadRecentSessionMemory_unconfigured; assumption|reflexivity].
Qed.

Lemma saveSessionMemory_returns env input w :
  exists w', saveSessionMemory env input w = (Ok tt, w')
             /\ w_pages w' = w_pages w
             /\ (getSupabaseMemoryConfig env = None -> w' = w).
Proof.
  unfold saveSessionMemory.
  destruct (getSupabaseMemoryConfig env) as [config|].
  - unfold try_catch, fetch, ask, mbind, M_bind, settle, warn, mret, M_ret.
    destruct (o_fetch _ _ _) as [e|[ok text json]]; simpl.
    + eexists. repeat split. discriminate.
    + destruct ok; simpl.
      * eexists. repeat split. discriminate.
      * destruct text as [e|t]; simpl; eexists; repeat split; discriminate.
  - exists w. repeat split.
Qed.

(** C10 as stated fails: the bound by [limit] is the store's to keep. The
    function sends the limit with its request and returns the rows of the
    answer as they are: asked for 2 items, it returns the 3 rows of a store
    that sends all it has. *)
Lemma loadRecentSessionMemory_returns_all_rows :
  fst (loadRecentSessionMemory memory_env "session-1" (Some 2%Z)
         (world_of [] (store_sending_all
            [memory_row "a"; memory_row "b"; memory_row "c"])))
  = Ok [memory_row "a"; memory_row "b"; memory_row "c"]
  /\ ~ (Z.of_nat (length [memory_row "a"; memory_row "b"; memory_row "c"])
        <= 2)%Z.
Proof. split; [vm_compute; reflexivity|simpl; lia]. Qed.

(** C10, amended. Loading and saving session memory never throw. With no
    store configured, loading gives the empty list and neither makes a
    request. With a store, loading gives the empty list when the platform
    does not parse the URL of the store (nothing is sent then: only the
    failure is logged), when the request fails and when the response is not
    ok; otherwise it gives the rows of the response, all of them, and the
    empty list for a body that is no array of JSON. Saving returns normally
    whatever the store answers, and neither touches the browser. *)
Theorem session_memory_never_throws (env : Env) (w : World) :
  (forall sessionId limit,
     exists items w',
       loadRecentSessionMemory env sessionId limit w = (Ok items, w')
       /\ w_pages w' = w_pages w
       /\ match getSupabaseMemoryConfig env with
          | None => items = [] /\ w' = w
          | Some config =>
              match o_url (w_oracle w) (select_url config) with
              | Throw e =>
                  items = []
                  /\ w' = record_event
                            {| ev_op :=
                                 console_warn
                                   ("Error loading Supabase memory: " ++ e)%string;
                               ev_ok := true |} w
              | Ok _ =>
                  match o_fetch (w_oracle w) (w_trace w)
                          (select_of config sessionId limit) with
                  | Throw _ => items = []
                  | Ok response =>
                      items = if resp_ok response then rows_of response else []
                  end
              end
          end)
  /\ (forall input,
        exists w',
          saveSessionMemory env input w = (Ok tt, w')
          /\ w_pages w' = w_pages w
          /\ (getSupabaseMemoryConfig env = None -> w' = w)).
Proof.
  split; [|intros; apply saveSessionMemory_returns].
  intros sessionId limit.
  destruct (getSupabaseMemoryConfig env) as [config|] eqn:Hconfig.
  - destruct (o_url (w_oracle w) (select_url config)) as [e|u] eqn:Hurl.
    + eexists _, _. split.
      * apply (loadRecentSessionMemory_unparsed _ _ _ _ _ _ Hconfig Hurl).
      * repeat split.
    + destruct (loadRecentSessionMemory_configured env sessionId limit config
                  w u Hconfig Hurl) as (w' & Hload & Hpages).
      eexists _, w'. split; [exact Hload|]. split; [exact Hpages|].
      destruct (o_fetch _ _ _); reflexivity.
  - exists [], w. split; [apply loadRecentSessionMemory_unconfigured; assumption|].
    repeat split.
Qed.

Lemma session_memory_never_throws_witness :
  exists items,
    fst (loadRecentSessionMemory memory_env "session-1" (Some 2%Z)
           (world_of [] (store_with
              [memory_row "a"; memory_row "b"; memory_row "c"])))
    = Ok items
    /\ items = [memory_row "a"; memory_row "b"].
Proof.
  destruct (session_memory_never_throws memory_env
              (world_of [] (store_with
                 [memory_row "a"; memory_row "b"; memory_row "c"])))
    as [Hload _].
  destruct (Hload "session-1" (Some 2%Z)) as (items & w' & Hrun & _ & Hitems).
  exists items. rewrite Hrun. split; [reflexivity|].
  vm_compute in Hitems. exact Hitems.
Defined.

(** ** Session normalizer *)

Lemma ask_run {A} (oracle : Oracle -> list Event -> Op -> Result A) op w :
  ask oracle op w
  = (oracle (w_oracle w) (w_trace w) op,
     record_event {| ev_op := op;
                     ev_ok := succeeded (oracle (w_oracle w) (w_trace w) op) |} w).
Proof. reflexivity. Qed.

Lemma attempted_later op w w1 w2 allowed :
  attempted op w w1 -> adds_only allowed w1 w2 -> attempted op w w2.
Proof.
  intros (before & ok & after & Ht) (_ & added & Ht' & _).
  exists before, ok, (after ++ added). rewrite Ht', Ht.
  rewrite <- !app_assoc. reflexivity.
Qed.

Lemma attempted_earlier op w w1 w2 allowed :
  adds_only allowed w w1 -> attempted op w1 w2 -> attempted op w w2.
Proof.
  intros (_ & added & Ht' & _) (before & ok & after & Ht).
  exists (added ++ before), ok, after. rewrite Ht, Ht'.
  rewrite <- !app_assoc. reflexivity.
Qed.

(** One pass of the loop on a page that is not the primary one: the close
    is attempted; the page is gone when it succeeds and stays when it
    fails; the loop goes on in both cases. *)
Lemma swallow_close_page p w :
  let ok := succeeded (o_reply (w_oracle w) (w_trace w) (page_close p)) in
  let w1 := record_event {| ev_op := page_close p; ev_ok := ok |} w in
  swallow (close_page p) w
  = (Ok tt,
     if ok
     then with_pages (List.filter (fun q => negb (same_page p q)) (w_pages w)) w1
     else w1).
Proof.
  unfold swallow, close_page, try_catch, call, mbind, M_bind. rewrite ask_run.
  destruct (o_reply _ _ _); reflexivity.
Qed.

Lemma filter_filter_and {A} (f g : A -> bool) (l : list A) :
  List.filter f (List.filter g l) = List.filter (fun x => g x && f x) l.
Proof.
  induction l as [|a l IH]; simpl; [reflexivity|].
  destruct (g a); simpl; [destruct (f a)|]; simpl; congruence.
Qed.

Lemma close_others_spec primary enumerated w :
  exists w',
    close_others primary enumerated w = (Ok tt, w')
    /\ adds_only is_page_close w w'
    /\ w_has_context w' = w_has_context w
    /\ (forall p, p ∈ enumerated -> pid p <> primary ->
          attempted (page_close (pid p)) w w')
    /\ (forall q, q ∈ w_pages w -> pid q = primary -> q ∈ w_pages w')
    /\ (closes_succeed w ->
        w_pages w' = List.filter (survives primary enumerated) (w_pages w)).
Proof.
  revert w. induction enumerated as [|c rest IH]; intros w.
  - exists w. split; [reflexivity|]. split; [apply adds_only_refl|].
    split; [reflexivity|]. split; [intros p H; inversion H|].
    split; [auto|]. intros _. simpl. symmetry.
    apply forallb_filter_id. apply forallb_forall. reflexivity.
  - unfold close_others. simpl. fold (close_others primary rest).
    destruct (same_page primary c) eqn:Hc; simpl.
    + destruct (IH w) as (w' & Hrun & Hadds & Hctx & Hatt & Hkeep & Hpages).
      exists w'. split; [exact Hrun|]. split; [exact Hadds|].
      split; [exact Hctx|]. split; [|split; [exact Hkeep|]].
      * intros p Hp Hne. apply elem_of_cons in Hp as [->|Hp]; [|auto].
        apply Nat.eqb_eq in Hc. contradiction.
      * intros Hok. rewrite (Hpages Hok). apply filter_ext. intros q.
        unfold survives. simpl. rewrite Hc. reflexivity.
    + erewrite bind_Ok by apply swallow_close_page.
      set (ok := succeeded (o_reply (w_oracle w) (w_trace w) (page_close (pid c)))).
      set (w0 := record_event {| ev_op := page_close (pid c); ev_ok := ok |} w).
      set (w1 := if ok then with_pages _ w0 else w0).
      assert (Hw1 : adds_only is_page_close w w1).
      { split; [subst w1; destruct ok; reflexivity|].
        exists [{| ev_op := page_close (pid c); ev_ok := ok |}].
        split; [subst w1; destruct ok; reflexivity|].
        constructor; [reflexivity|constructor]. }
      destruct (IH w1) as (w' & Hrun & Hadds & Hctx & Hatt & Hkeep & Hpages).
      exists w'. split; [exact Hrun|].
      split; [eapply adds_only_trans; eassumption|].
      split; [rewrite Hctx; subst w1; destruct ok; reflexivity|].
      split; [|split].
      * intros p Hp Hne. apply elem_of_cons in Hp as [->|Hp].
        -- eapply attempted_later; [|exact Hadds].
           exists [], ok, []. subst w1. destruct ok; reflexivity.
        -- eapply attempted_earlier; [exact Hw1|]. auto.
      * intros q Hq Hprimary. apply Hkeep; [|assumption].
        subst w1. destruct ok; simpl; [|assumption].
        apply list_elem_of_In, filter_In. split; [apply list_elem_of_In, Hq|].
        unfold same_page in *. rewrite Hprimary.
        rewrite Nat.eqb_sym. rewrite Hc. reflexivity.
      * intros Hok. rewrite Hpages.
        2:{ intros history p. destruct Hw1 as [-> _]. apply Hok. }
        assert (ok = true) as Hoktrue by apply Hok. subst w1. rewrite Hoktrue.
        simpl. rewrite filter_filter_and. apply filter_ext. intros q.
        unfold survives. simpl. rewrite Hc. reflexivity.
Qed.

Lemma swallow_call op w :
  swallow (call op) w
  = (Ok tt,
     record_event
       {| ev_op := op;
          ev_ok := succeeded (o_reply (w_oracle w) (w_trace w) op) |} w).
Proof.
  unfold swallow, try_catch, call, mbind, M_bind. rewrite ask_run.
  destruct (o_reply _ _ _); reflexivity.
Qed.

Lemma swallow_bringToFront p w :
  swallow (bringToFront p) w
  = (Ok tt,
     record_event
       {| ev_op := page_bringToFront p;
          ev_ok := succeeded (o_reply (w_oracle w) (w_trace w)
                                (page_bringToFront p)) |} w).
Proof.
  unfold swallow, bringToFront, try_catch, call, mbind, M_bind. rewrite ask_run.
  destruct (o_reply _ _ _); reflexivity.
Qed.

Lemma selectPrimaryPage_cons first rest :
  selectPrimaryPage (first :: rest)
  = Some (Js.nullish (List.find is_content_page (first :: rest)) first).
Proof.
  unfold selectPrimaryPage. destruct (List.find _ _); reflexivity.
Qed.

(** [selectPrimaryPage] picks the first content page, or the first page. *)
Lemma selectPrimaryPage_first pages primary :
  selectPrimaryPage pages = Some primary ->
  first_content_or_first pages primary.
Proof.
  unfold selectPrimaryPage.
  pose proof (find_first is_content_page pages) as Hfind.
  destruct (List.find is_content_page pages) as [p|].
  - intros [= ->]. destruct Hfind as (i & Hi & Hp & Hbefore).
    exists i. split; [exact Hi|]. left. split; [exact Hp|exact Hbefore].
  - intros Hhead. exists 0. split.
    + destruct pages; simpl in *; congruence.
    + right. split; [reflexivity|].
      intros q Hq. apply list_elem_of_lookup in Hq as [i Hi]. eauto.
Qed.

Lemma selectPrimaryPage_elem pages primary :
  selectPrimaryPage pages = Some primary -> primary ∈ pages.
Proof.
  intros H. apply selectPrimaryPage_first in H as (i & Hi & _).
  apply list_elem_of_lookup. eauto.
Qed.

Lemma filter_none {A} (f : A -> bool) (l : list A) :
  (forall x, In x l -> f x = false) -> List.filter f l = [].
Proof.
  induction l as [|a l IH]; simpl; intros H; [reflexivity|].
  rewrite (H a) by auto. apply IH. auto.
Qed.

(** With page objects that are all different, the loop leaves the primary
    page alone when every close succeeds. *)
Lemma survivors_primary pages primary :
  NoDup (pid <$> pages) -> primary ∈ pages ->
  List.filter (survives (pid primary) pages) pages = [primary].
Proof.
  intros Hnd Hin.
  assert (Hsurv : forall q, q ∈ pages ->
            survives (pid primary) pages q = Nat.eqb (pid q) (pid primary)).
  { intros q Hq. unfold survives, same_page.
    destruct (Nat.eqb_spec (pid q) (pid primary)) as [Heq|Hne].
    - apply forallb_forall. intros c _.
      destruct (Nat.eqb_spec (pid c) (pid primary)); [reflexivity|]. simpl.
      destruct (Nat.eqb_spec (pid q) (pid c)); [congruence|reflexivity].
    - apply not_true_is_false. intros Hall.
      rewrite forallb_forall in Hall.
      specialize (Hall q (proj1 (list_elem_of_In _ _) Hq)).
      rewrite Nat.eqb_refl in Hall.
      destruct (Nat.eqb_spec (pid q) (pid primary)); [contradiction|].
      discriminate. }
  rewrite (filter_ext_in _ (fun q => Nat.eqb (pid q) (pid primary))).
  2:{ intros q Hq. apply Hsurv, list_elem_of_In, Hq. }
  clear Hsurv. induction pages as [|a pages IH]; [inversion Hin|].
  simpl in Hnd. apply NoDup_cons in Hnd as [Hnotin Hnd].
  apply elem_of_cons in Hin as [->|Hin]; simpl.
  - rewrite Nat.eqb_refl. f_equal.
    apply filter_none.
    intros q Hq. apply Nat.eqb_neq. intros Heq.
    apply Hnotin. rewrite <- Heq.
    apply list_elem_of_fmap_2, list_elem_of_In, Hq.
  - destruct (Nat.eqb_spec (pid a) (pid primary)) as [Heq|Hne]; [|auto].
    exfalso. apply Hnotin. rewrite Heq. apply list_elem_of_fmap_2, Hin.
Qed.

Lemma bind_read {A B} (f : World -> A) (k : A -> M B) w :
  (read f ≫= k) w = k (f w) w.
Proof. reflexivity. Qed.

Lemma bind_ret {A B} (a : A) (k : A -> M B) w :
  (mret a ≫= k) w = k a w.
Proof. reflexivity. Qed.

(** A run of the normalization text on a session with a page. *)
Lemma normalizeScript_run w first rest :
  w_pages w = first :: rest ->
  let primary := Js.nullish (List.find is_content_page (w_pages w)) first in
  exists w1 w2 report,
    close_others (pid primary) (w_pages w) w = (Ok tt, w1)
    /\ normalizeScript w = (Ok report, w2)
    /\ w_pages w2 = w_pages w1
    /\ adds_only any_op w1 w2
    /\ pageCountBefore report = length (w_pages w)
    /\ pageCountAfter report = length (w_pages w2).
Proof.
  intros Hpages primary.
  destruct (close_others_spec (pid primary) (w_pages w) w) as (w1 & Hloop & _).
  exists w1. unfold normalizeScript, context_pages. rewrite bind_read.
  subst primary. rewrite Hpages in *.
  change (for_of (first :: rest) _)
    with (close_others
            (pid (Js.nullish (List.find is_content_page (first :: rest)) first))
            (first :: rest)).
  erewrite bind_Ok by exact Hloop.
  erewrite bind_Ok by apply swallow_bringToFront.
  rewrite bind_read. unfold url_of. rewrite bind_read.
  eexists _, _. split; [exact Hloop|]. split; [reflexivity|].
  split; [reflexivity|]. split; [|split; reflexivity].
  apply adds_only_event. reflexivity.
Qed.

Lemma normalizeScript_total : total normalizeScript.
Proof.
  intros w. destruct (w_pages w) as [|first rest] eqn:Hpages.
  - unfold normalizeScript, context_pages. rewrite bind_read, Hpages.
    eexists. reflexivity.
  - destruct (normalizeScript_run w first rest Hpages)
      as (w1 & w2 & report & _ & Hrun & _).
    exists report. rewrite Hrun. reflexivity.
Qed.

Lemma normalizeToSinglePageKernel_total sessionId :
  total (normalizeToSinglePageKernel sessionId).
Proof. apply total_try_catch. intros. apply total_warn. Qed.

Lemma normalizeToSinglePageVps_total cdpWsUrl :
  total (normalizeToSinglePageVps cdpWsUrl).
Proof. apply total_try_catch. intros. apply total_warn. Qed.

(** A run of the managed normalizer whose request is accepted. *)
Lemma normalizeToSinglePageKernel_run sessionId w first rest v :
  w_pages w = first :: rest ->
  o_reply (w_oracle w) (w_trace w)
    (kernel_playwright_execute sessionId normalizeScriptSource 20) = Ok v ->
  let primary := Js.nullish (List.find is_content_page (w_pages w)) first in
  exists w0 w1 w2,
    adds_only any_op w w0 /\ w_pages w0 = w_pages w
    /\ close_others (pid primary) (w_pages w) w0 = (Ok tt, w1)
    /\ normalizeToSinglePageKernel sessionId w = (Ok tt, w2)
    /\ w_pages w2 = w_pages w1
    /\ adds_only any_op w1 w2.
Proof.
  intros Hpages Hreply primary.
  set (w0 := record_event
               {| ev_op := kernel_playwright_execute sessionId normalizeScriptSource 20;
                  ev_ok := true |} w).
  destruct (normalizeScript_run w0 first rest Hpages)
    as (w1 & w2 & report & Hloop & Hrun & Hsame & Hadds & _).
  exists w0, w1, w2. split; [apply adds_only_event; reflexivity|].
  split; [reflexivity|]. split; [exact Hloop|].
  split; [|split; assumption].
  unfold normalizeToSinglePageKernel, kernel_execute, try_catch, call,
    mbind, M_bind.
  rewrite ask_run, Hreply. simpl. fold w0. rewrite Hrun. reflexivity.
Qed.

Lemma call_Ok op w v :
  o_reply (w_oracle w) (w_trace w) op = Ok v ->
  call op w = (Ok v, record_event {| ev_op := op; ev_ok := true |} w).
Proof. intros H. unfold call. rewrite ask_run, H. reflexivity. Qed.

Lemma call_Throw op w e :
  o_reply (w_oracle w) (w_trace w) op = Throw e ->
  call op w = (Throw e, record_event {| ev_op := op; ev_ok := false |} w).
Proof. intros H. unfold call. rewrite ask_run, H. reflexivity. Qed.

Lemma try_finally_close {A} (m : M A) w :
  try_finally m (swallow (call browser_close)) w
  = (fst (m w), record_event (closing_event (snd (m w))) (snd (m w))).
Proof.
  unfold try_finally. destruct (m w) as [r w']. rewrite swallow_call.
  reflexivity.
Qed.

(** The three ways an operation of the direct backend goes: the endpoint
    cannot be reached; it has no browser context; the operation runs on the
    primary page. In the last two the connection is closed at the end. *)
Lemma withVpsBrowser_unreachable {T} cdpWsUrl (run : nat -> M T) w e :
  o_reply (w_oracle w) (w_trace w) (connectOverCDP cdpWsUrl) = Throw e ->
  withVpsBrowser cdpWsUrl run w
  = (Throw e,
     record_event {| ev_op := connectOverCDP cdpWsUrl; ev_ok := false |} w).
Proof.
  intros H. unfold withVpsBrowser.
  erewrite bind_Throw by (apply call_Throw; exact H). reflexivity.
Qed.

Lemma withVpsBrowser_no_context {T} cdpWsUrl (run : nat -> M T) w v :
  o_reply (w_oracle w) (w_trace w) (connectOverCDP cdpWsUrl) = Ok v ->
  w_has_context w = false ->
  let w0 := record_event {| ev_op := connectOverCDP cdpWsUrl; ev_ok := true |} w in
  withVpsBrowser cdpWsUrl run w
  = (Throw "No browser context found on VPS CDP endpoint",
     record_event (closing_event w0) w0).
Proof.
  intros H Hctx w0. unfold withVpsBrowser.
  erewrite bind_Ok by (apply call_Ok; exact H). fold w0.
  rewrite try_finally_close. unfold first_context. rewrite bind_read.
  change (w_has_context w0) with (w_has_context w). rewrite Hctx. reflexivity.
Qed.

Lemma withVpsBrowser_connected {T} cdpWsUrl (run : nat -> M T) w v primary :
  o_reply (w_oracle w) (w_trace w) (connectOverCDP cdpWsUrl) = Ok v ->
  w_has_context w = true ->
  selectPrimaryPage (w_pages w) = Some primary ->
  let w0 := record_event {| ev_op := connectOverCDP cdpWsUrl; ev_ok := true |} w in
  withVpsBrowser cdpWsUrl run w
  = (fst (run (pid primary) w0),
     record_event (closing_event (snd (run (pid primary) w0)))
       (snd (run (pid primary) w0))).
Proof.
  intros H Hctx Hprimary w0. unfold withVpsBrowser.
  erewrite bind_Ok by (apply call_Ok; exact H). fold w0.
  rewrite try_finally_close. unfold first_context, context_pages.
  rewrite !bind_read.
  change (w_has_context w0) with (w_has_context w). rewrite Hctx. simpl.
  rewrite bind_read.
  change (w_pages w0) with (w_pages w). rewrite Hprimary.
  rewrite bind_ret. reflexivity.
Qed.

(** A run of the direct normalizer that connects and finds a context. *)
Lemma normalizeToSinglePageVps_run cdpWsUrl w primary v :
  selectPrimaryPage (w_pages w) = Some primary ->
  w_has_context w = true ->
  o_reply (w_oracle w) (w_trace w) (connectOverCDP cdpWsUrl) = Ok v ->
  exists w0 w1 w2,
    adds_only any_op w w0 /\ w_pages w0 = w_pages w
    /\ close_others (pid primary) (w_pages w) w0 = (Ok tt, w1)
    /\ normalizeToSinglePageVps cdpWsUrl w = (Ok tt, w2)
    /\ w_pages w2 = w_pages w1
    /\ adds_only any_op w1 w2.
Proof.
  intros Hprimary Hctx Hreply.
  set (w0 := record_event
               {| ev_op := connectOverCDP cdpWsUrl; ev_ok := true |} w).
  destruct (close_others_spec (pid primary) (w_pages w) w0)
    as (w1 & Hloop & _).
  exists w0, w1. eexists.
  split; [apply adds_only_event; reflexivity|].
  split; [reflexivity|]. split; [exact Hloop|].
  unfold normalizeToSinglePageVps, try_catch.
  erewrite bind_Ok.
  2:{ rewrite (withVpsBrowser_connected _ _ _ _ _ Hreply Hctx Hprimary).
      fold w0. unfold context_pages. rewrite bind_read.
      change (w_pages w0) with (w_pages w).
      change (for_of (w_pages w) _) with (close_others (pid primary) (w_pages w)).
      erewrite bind_Ok by exact Hloop.
      erewrite bind_Ok by apply swallow_bringToFront.
      rewrite bind_read. reflexivity. }
  split; [reflexivity|]. split; [reflexivity|].
  eapply adds_only_trans; apply adds_only_event; reflexivity.
Qed.

(** C8. Normalization never raises: both normalizers return normally in
    every world, whatever fails on the way. A request that is refused is
    logged and nothing else happens. Once the pages are enumerated, every
    page other than the primary one gets its close attempted, whether or not
    the close of another page failed. *)
Theorem normalization_never_raises (w : World) :
  (forall sessionId, fst (normalizeToSinglePageKernel sessionId w) = Ok tt)
  /\ (forall cdpWsUrl, fst (normalizeToSinglePageVps cdpWsUrl w) = Ok tt)
  /\ (forall sessionId e,
        o_reply (w_oracle w) (w_trace w)
          (kernel_playwright_execute sessionId normalizeScriptSource 20)
        = Throw e ->
        exists msg,
          snd (normalizeToSinglePageKernel sessionId w)
          = record_event {| ev_op := console_warn msg; ev_ok := true |}
              (record_event
                 {| ev_op := kernel_playwright_execute sessionId
                               normalizeScriptSource 20;
                    ev_ok := false |} w))
  /\ (forall cdpWsUrl e,
        o_reply (w_oracle w) (w_trace w) (connectOverCDP cdpWsUrl) = Throw e ->
        exists msg,
          snd (normalizeToSinglePageVps cdpWsUrl w)
          = record_event {| ev_op := console_warn msg; ev_ok := true |}
              (record_event
                 {| ev_op := connectOverCDP cdpWsUrl; ev_ok := false |} w))
  /\ (forall sessionId v primary p,
        o_reply (w_oracle w) (w_trace w)
          (kernel_playwright_execute sessionId normalizeScriptSource 20)
        = Ok v ->
        selectPrimaryPage (w_pages w) = Some primary ->
        p ∈ w_pages w -> pid p <> pid primary ->
        attempted (page_close (pid p)) w
          (snd (normalizeToSinglePageKernel sessionId w)))
  /\ (forall cdpWsUrl v primary p,
        o_reply (w_oracle w) (w_trace w) (connectOverCDP cdpWsUrl) = Ok v ->
        w_has_context w = true ->
        selectPrimaryPage (w_pages w) = Some primary ->
        p ∈ w_pages w -> pid p <> pid primary ->
        attempted (page_close (pid p)) w
          (snd (normalizeToSinglePageVps cdpWsUrl w))).
Proof.
  split; [intros; apply total_unit, normalizeToSinglePageKernel_total|].
  split; [intros; apply total_unit, normalizeToSinglePageVps_total|].
  split; [|split; [|split]].
  - intros sessionId e Hreply. eexists.
    unfold normalizeToSinglePageKernel, kernel_execute, try_catch.
    erewrite bind_Throw.
    2:{ erewrite bind_Throw by (apply call_Throw; exact Hreply). reflexivity. }
    reflexivity.
  - intros cdpWsUrl e Hreply. eexists.
    unfold normalizeToSinglePageVps, try_catch.
    erewrite bind_Throw
      by (apply withVpsBrowser_unreachable; exact Hreply).
    reflexivity.
  - intros sessionId v primary p Hreply Hprimary Hp Hne.
    destruct (w_pages w) as [|first rest] eqn:Hpages; [inversion Hp|].
    rewrite selectPrimaryPage_cons in Hprimary. injection Hprimary as <-.
    destruct (normalizeToSinglePageKernel_run sessionId w first rest v Hpages Hreply)
      as (w0 & w1 & w2 & Hw0 & Hsame & Hloop & Hrun & _ & Hw2).
    rewrite Hrun. simpl. rewrite Hpages in Hloop.
    destruct (close_others_spec
                (pid (Js.nullish (List.find is_content_page (first :: rest)) first))
                (first :: rest) w0) as (w1' & Hloop' & _ & _ & Hatt & _).
    rewrite Hloop in Hloop'. injection Hloop' as <-.
    eapply attempted_earlier; [exact Hw0|].
    eapply attempted_later; [|exact Hw2]. apply Hatt; assumption.
  - intros cdpWsUrl v primary p Hreply Hctx Hprimary Hp Hne.
    destruct (normalizeToSinglePageVps_run cdpWsUrl w primary v Hprimary Hctx Hreply)
      as (w0 & w1 & w2 & Hw0 & Hsame & Hloop & Hrun & _ & Hw2).
    rewrite Hrun. simpl.
    destruct (close_others_spec (pid primary) (w_pages w) w0)
      as (w1' & Hloop' & _ & _ & Hatt & _).
    rewrite Hloop in Hloop'. injection Hloop' as <-.
    eapply attempted_earlier; [exact Hw0|].
    eapply attempted_later; [|exact Hw2]. apply Hatt; assumption.
Qed.

(** Three tabs whose closes all fail: both normalizers still return, and
    the close of the second tab is attempted after the first one failed. *)
Lemma normalization_never_raises_witness :
  fst (normalizeToSinglePageKernel "s1" (world_of three_tabs closes_fail)) = Ok tt
  /\ attempted (page_close 1) (world_of three_tabs closes_fail)
       (snd (normalizeToSinglePageKernel "s1" (world_of three_tabs closes_fail)))
  /\ attempted (page_close 1) (world_of three_tabs closes_fail)
       (snd (normalizeToSinglePageVps "ws://vps" (world_of three_tabs closes_fail))).
Proof.
  destruct (normalization_never_raises (world_of three_tabs closes_fail))
    as (Hkernel & _ & _ & _ & Hattk & Hattv).
  split; [apply Hkernel|]. split.
  - apply (Hattk "s1" "" {| pid := 2; page_url := "https://example.com/" |}
             {| pid := 1; page_url := "about:blank" |});
      [reflexivity|reflexivity| |simpl; lia].
    apply list_elem_of_In. simpl. auto.
  - apply (Hattv "ws://vps" "" {| pid := 2; page_url := "https://example.com/" |}
             {| pid := 1; page_url := "about:blank" |});
      [reflexivity|reflexivity|reflexivity| |simpl; lia].
    apply list_elem_of_In. simpl. auto.
Defined.

(** What the loop leaves, from the world the enumeration was made in. *)
Lemma close_others_leaves primary w0 w1 :
  selectPrimaryPage (w_pages w0) = Some primary ->
  NoDup (pid <$> w_pages w0) ->
  close_others (pid primary) (w_pages w0) w0 = (Ok tt, w1) ->
  primary ∈ w_pages w1
  /\ (closes_succeed w0 -> w_pages w1 = [primary]).
Proof.
  intros Hprimary Hnd Hloop.
  destruct (close_others_spec (pid primary) (w_pages w0) w0)
    as (w1' & Hloop' & _ & _ & _ & Hkeep & Hpages).
  rewrite Hloop in Hloop'. injection Hloop' as <-.
  pose proof (selectPrimaryPage_elem _ _ Hprimary) as Hin.
  split; [apply Hkeep; auto|].
  intros Hok. rewrite (Hpages Hok). apply survivors_primary; assumption.
Qed.

(** C1 as stated fails: with two tabs whose closes fail, both are still
    open after normalization. *)
Lemma normalization_may_leave_two_pages :
  1 <= length (w_pages (world_of two_tabs closes_fail))
  /\ length (w_pages (snd (normalizeToSinglePageKernel "s1"
                             (world_of two_tabs closes_fail)))) <> 1
  /\ length (w_pages (snd (normalizeToSinglePageVps "ws://vps"
                             (world_of two_tabs closes_fail)))) <> 1.
Proof. vm_compute. repeat split; [lia|discriminate|discriminate]. Qed.

(** C1, amended. For a session with at least one open page, whose page
    objects are all different: the primary page is the first enumerated page
    whose URL neither starts with [chrome-extension://] nor equals
    [about:blank], or the first page when no page qualifies; once the
    normalizer reaches the browser (the managed request is accepted; the
    direct endpoint connects and has a context) that page is still open
    afterwards, and it is the only page open when no close failed. *)
Theorem normalization_leaves_primary (w : World) :
  w_pages w <> [] -> NoDup (pid <$> w_pages w) ->
  exists primary,
    first_content_or_first (w_pages w) primary
    /\ (forall sessionId v,
          o_reply (w_oracle w) (w_trace w)
            (kernel_playwright_execute sessionId normalizeScriptSource 20)
          = Ok v ->
          let after := w_pages (snd (normalizeToSinglePageKernel sessionId w)) in
          primary ∈ after /\ (closes_succeed w -> after = [primary]))
    /\ (forall cdpWsUrl v,
          o_reply (w_oracle w) (w_trace w) (connectOverCDP cdpWsUrl) = Ok v ->
          w_has_context w = true ->
          let after := w_pages (snd (normalizeToSinglePageVps cdpWsUrl w)) in
          primary ∈ after /\ (closes_succeed w -> after = [primary])).
Proof.
  intros Hne Hnd.
  destruct (w_pages w) as [|first rest] eqn:Hpages; [contradiction|].
  rewrite <- Hpages in Hnd |- *.
  set (primary := Js.nullish (List.find is_content_page (w_pages w)) first).
  assert (Hprimary : selectPrimaryPage (w_pages w) = Some primary).
  { subst primary. rewrite Hpages. apply selectPrimaryPage_cons. }
  exists primary. split; [apply selectPrimaryPage_first, Hprimary|].
  split.
  - intros sessionId v Hreply after. subst after.
    destruct (normalizeToSinglePageKernel_run sessionId w first rest v Hpages Hreply)
      as (w0 & w1 & w2 & (Horacle & _) & Hsame & Hloop & Hrun & Hafter & _).
    rewrite Hrun. simpl. rewrite Hafter.
    fold primary in Hloop. rewrite <- Hsame in Hloop.
    destruct (close_others_leaves primary w0 w1) as [Hstay Honly];
      [rewrite Hsame; exact Hprimary|rewrite Hsame; exact Hnd|exact Hloop|].
    split; [exact Hstay|]. intros Hok. apply Honly.
    intros history p. rewrite Horacle. apply Hok.
  - intros cdpWsUrl v Hreply Hctx after. subst after.
    destruct (normalizeToSinglePageVps_run cdpWsUrl w primary v Hprimary Hctx Hreply)
      as (w0 & w1 & w2 & (Horacle & _) & Hsame & Hloop & Hrun & Hafter & _).
    rewrite Hrun. simpl. rewrite Hafter. rewrite <- Hsame in Hloop.
    destruct (close_others_leaves primary w0 w1) as [Hstay Honly];
      [rewrite Hsame; exact Hprimary|rewrite Hsame; exact Hnd|exact Hloop|].
    split; [exact Hstay|]. intros Hok. apply Honly.
    intros history p. rewrite Horacle. apply Hok.
Qed.

Lemma three_tabs_distinct : NoDup (pid <$> three_tabs).
Proof. apply NoDup_ListNoDup. repeat constructor; simpl; intuition lia. Qed.

Lemma normalization_leaves_primary_witness :
  w_pages (snd (normalizeToSinglePageKernel "s1" (world_of three_tabs always_ok)))
  = [ {| pid := 2; page_url := "https://example.com/" |} ]
  /\ w_pages (snd (normalizeToSinglePageVps "ws://vps" (world_of three_tabs always_ok)))
     = [ {| pid := 2; page_url := "https://example.com/" |} ].
Proof.
  destruct (normalization_leaves_primary (world_of three_tabs always_ok))
    as (primary & Hfirst & Hkernel & Hvps);
    [discriminate|exact three_tabs_distinct|].
  assert (primary = {| pid := 2; page_url := "https://example.com/" |}) as ->.
  { destruct (Hkernel "s1" "" eq_refl) as [_ Honly].
    specialize (Honly (fun _ _ => eq_refl)). vm_compute in Honly.
    congruence. }
  split.
  - destruct (Hkernel "s1" "" eq_refl) as [_ Honly].
    apply Honly. intros history p. reflexivity.
  - destruct (Hvps "ws://vps" "" eq_refl eq_refl) as [_ Honly].
    apply Honly. intros history p. reflexivity.
Defined.

Lemma close_others_single p w :
  close_others (pid p) [p] w = (Ok tt, w).
Proof.
  unfold close_others, same_page. simpl. rewrite Nat.eqb_refl. reflexivity.
Qed.

Lemma selectPrimaryPage_single p : selectPrimaryPage [p] = Some p.
Proof.
  unfold selectPrimaryPage. simpl. destruct (is_content_page p); reflexivity.
Qed.

(** X3. Normalizing a session that has a single page closes nothing: the page
    is still the only one open, whatever the outside answers. *)
Theorem normalization_is_idempotent (w : World) (p : Page) :
  w_pages w = [p] ->
  (forall sessionId,
     w_pages (snd (normalizeToSinglePageKernel sessionId w)) = [p])
  /\ (forall cdpWsUrl,
        w_pages (snd (normalizeToSinglePageVps cdpWsUrl w)) = [p]).
Proof.
  intros Hpages.
  assert (Hprimary : selectPrimaryPage (w_pages w) = Some p)
    by (rewrite Hpages; apply selectPrimaryPage_single).
  split.
  - intros sessionId.
    destruct (o_reply (w_oracle w) (w_trace w)
                (kernel_playwright_execute sessionId normalizeScriptSource 20))
      as [e|v] eqn:Hreply.
    + unfold normalizeToSinglePageKernel, kernel_execute, try_catch.
      erewrite bind_Throw.
      2:{ erewrite bind_Throw by (apply call_Throw; exact Hreply). reflexivity. }
      exact Hpages.
    + destruct (normalizeToSinglePageKernel_run sessionId w p [] v Hpages Hreply)
        as (w0 & w1 & w2 & _ & Hsame & Hloop & Hrun & Hafter & _).
      rewrite Hrun. simpl. rewrite Hafter.
      rewrite Hpages in Hloop.
      assert (Js.nullish (List.find is_content_page [p]) p = p) as Hp
        by (simpl; destruct (is_content_page p); reflexivity).
      rewrite Hp in Hloop. rewrite close_others_single in Hloop.
      injection Hloop as <-. rewrite Hsame. exact Hpages.
  - intros cdpWsUrl.
    destruct (o_reply (w_oracle w) (w_trace w) (connectOverCDP cdpWsUrl))
      as [e|v] eqn:Hreply.
    + unfold normalizeToSinglePageVps, try_catch.
      erewrite bind_Throw by (apply withVpsBrowser_unreachable; exact Hreply).
      exact Hpages.
    + destruct (w_has_context w) eqn:Hctx.
      * destruct (normalizeToSinglePageVps_run cdpWsUrl w p v Hprimary Hctx Hreply)
          as (w0 & w1 & w2 & _ & Hsame & Hloop & Hrun & Hafter & _).
        rewrite Hrun. simpl. rewrite Hafter.
        rewrite Hpages, close_others_single in Hloop.
        injection Hloop as <-. rewrite Hsame. exact Hpages.
      * unfold normalizeToSinglePageVps, try_catch.
        erewrite bind_Throw
          by (apply (withVpsBrowser_no_context _ _ _ _ Hreply Hctx)).
        exact Hpages.
Qed.

Lemma normalization_is_idempotent_witness :
  w_pages (snd (normalizeToSinglePageVps "ws://vps"
                  (world_of [ {| pid := 0; page_url := "about:blank" |} ]
                     closes_fail)))
  = [ {| pid := 0; page_url := "about:blank" |} ].
Proof.
  apply (normalization_is_idempotent
           (world_of [ {| pid := 0; page_url := "about:blank" |} ] closes_fail)
           {| pid := 0; page_url := "about:blank" |} eq_refl).
Defined.

(** ** Backend connector *)

Lemma balanced_refl w : balanced w w.
Proof. reflexivity. Qed.

Lemma balanced_trans w1 w2 w3 : balanced w1 w2 -> balanced w2 w3 -> balanced w1 w3.
Proof. unfold balanced. congruence. Qed.

Ltac rel_refl :=
  first [apply adds_only_refl | apply balanced_refl | apply adds_only_if_refl].
Ltac rel_trans :=
  first [apply adds_only_trans | apply balanced_trans
        | apply adds_only_if_trans].

(** Steps through a computation to show what it keeps. *)
Ltac keeps_step :=
  lazymatch goal with
  | |- keeps _ (mret _) => apply keeps_ret; rel_refl
  | |- keeps _ (throw _) => apply keeps_throw; rel_refl
  | |- keeps _ (read _) => apply keeps_read; rel_refl
  | |- keeps _ (settle _) => apply keeps_settle; rel_refl
  | |- keeps _ (new_URL _) => apply keeps_new_URL; rel_refl
  | |- keeps _ (_ ≫= _) => apply keeps_bind; [rel_trans | | intros ?]
  | |- keeps _ (try_catch _ _) =>
      apply keeps_try_catch; [rel_trans | | intros ?]
  | |- keeps _ (try_finally _ _) => apply keeps_try_finally; [rel_trans | | ]
  | |- keeps _ (swallow _) => apply keeps_swallow; [rel_refl | rel_trans | ]
  | |- keeps _ (for_of _ _) =>
      apply keeps_for_of; [rel_refl | rel_trans | intros ?]
  | |- keeps _ (for_each _ _) =>
      apply keeps_for_each; [rel_refl | rel_trans | intros ?]
  | |- keeps (adds_only _) (call _) => apply keeps_ask; reflexivity
  | |- keeps (adds_only _) (fetch _) => apply keeps_ask; reflexivity
  | |- keeps (adds_only _) (generateText _) => apply keeps_ask; reflexivity
  | |- keeps (adds_only _) (warn _) => apply keeps_warn; reflexivity
  | |- keeps (adds_only _) (executeCode _ _) =>
      apply keeps_executeCode; [reflexivity|intros ?; reflexivity]
  | |- keeps (adds_only _) (update _) =>
      apply keeps_update; intros ?; split; reflexivity
  | |- keeps (adds_only_if _ _) (call _) =>
      apply keeps_if, keeps_ask; reflexivity
  | |- keeps (adds_only_if _ _) (fetch _) =>
      apply keeps_if, keeps_ask; reflexivity
  | |- keeps (adds_only_if _ _) (generateText _) =>
      apply keeps_if, keeps_ask; reflexivity
  | |- keeps (adds_only_if _ _) (warn _) =>
      apply keeps_if, keeps_warn; reflexivity
  | |- keeps (adds_only_if _ _) (update _) =>
      apply keeps_if, keeps_update; intros ?; split; reflexivity
  | |- keeps _ (match ?x with _ => _ end) => destruct x
  end.

Ltac keeps_auto := repeat keeps_step.

Lemma open_connections_app h1 h2 :
  open_connections (h1 ++ h2) = (open_connections h1 + open_connections h2)%Z.
Proof.
  induction h1 as [|e h1 IH]; simpl; [reflexivity|]. rewrite IH. lia.
Qed.

Lemma open_connections_neutral added :
  Forall (fun e => not_connection (ev_op e) = true) added ->
  open_connections added = 0%Z.
Proof.
  induction 1 as [|e added He _ IH]; simpl; [reflexivity|]. rewrite IH.
  unfold connection_delta. destruct (ev_op e); simpl in He; try discriminate;
    reflexivity.
Qed.

Lemma adds_only_balance w w' :
  adds_only not_connection w w' ->
  open_connections (w_trace w') = open_connections (w_trace w).
Proof.
  intros (_ & added & -> & Hadded). rewrite open_connections_app.
  rewrite (open_connections_neutral _ Hadded). lia.
Qed.

Lemma open_connections_event e w :
  open_connections (w_trace (record_event e w))
  = (open_connections (w_trace w) + connection_delta e)%Z.
Proof. simpl. rewrite open_connections_app. simpl. lia. Qed.

Lemma newPage_keeps allowed :
  allowed context_newPage = true -> keeps (adds_only allowed) newPage.
Proof.
  intros H. unfold newPage. keeps_auto. apply keeps_ask. exact H.
Qed.

Lemma withVpsBrowser_opened {T} cdpWsUrl (run : nat -> M T) w v :
  o_reply (w_oracle w) (w_trace w) (connectOverCDP cdpWsUrl) = Ok v ->
  let w0 := record_event {| ev_op := connectOverCDP cdpWsUrl; ev_ok := true |} w in
  let w1 := snd (connected_body run w0) in
  withVpsBrowser cdpWsUrl run w
  = (fst (connected_body run w0), record_event (closing_event w1) w1).
Proof.
  intros H w0 w1. unfold withVpsBrowser.
  erewrite bind_Ok by (apply call_Ok; exact H). fold w0.
  rewrite try_finally_close. reflexivity.
Qed.

(** What runs between the connect and the close, by the pages of the
    context. *)
Lemma connected_body_page {T} (run : nat -> M T) (w0 : World) :
  w_has_context w0 = true ->
  (w_pages w0 <> [] ->
   exists primary,
     primary ∈ w_pages w0
     /\ first_content_or_first (w_pages w0) primary
     /\ connected_body run w0 = run (pid primary) w0)
  /\ (w_pages w0 = [] ->
      match o_reply (w_oracle w0) (w_trace w0) context_newPage with
      | Ok _ =>
          let w1 :=
            add_blank_page
              (record_event {| ev_op := context_newPage; ev_ok := true |} w0) in
          w_pages w1 = [blank_page w0]
          /\ connected_body run w0 = run (pid (blank_page w0)) w1
      | Throw e =>
          connected_body run w0
          = (Throw e,
             record_event {| ev_op := context_newPage; ev_ok := false |} w0)
      end).
Proof.
  intros Hcontext. unfold connected_body, first_context, context_pages.
  rewrite bind_read, Hcontext. cbn [negb]. rewrite bind_read.
  split.
  - intros Hpages. destruct (w_pages w0) as [|first rest] eqn:Hw; [congruence|].
    pose proof (selectPrimaryPage_cons first rest) as Hprimary.
    exists (Js.nullish (List.find is_content_page (first :: rest)) first).
    split; [apply selectPrimaryPage_elem; exact Hprimary|].
    split; [apply selectPrimaryPage_first; exact Hprimary|].
    rewrite Hprimary, bind_ret. reflexivity.
  - intros Hpages. rewrite Hpages. cbn [selectPrimaryPage List.find head].
    unfold newPage.
    destruct (o_reply (w_oracle w0) (w_trace w0) context_newPage) as [e|page]
      eqn:Hnew.
    + erewrite bind_Throw; [reflexivity|].
      erewrite bind_Throw; [reflexivity|]. apply call_Throw. exact Hnew.
    + cbv zeta. split.
      * simpl. rewrite Hpages. reflexivity.
      * erewrite bind_Ok; [reflexivity|].
        erewrite bind_Ok by (apply call_Ok; exact Hnew).
        rewrite bind_read. reflexivity.
Qed.

Lemma connected_body_keeps {T} (run : nat -> M T) :
  (forall p, keeps (adds_only not_connection) (run p)) ->
  keeps (adds_only not_connection) (connected_body run).
Proof.
  intros Hrun. unfold connected_body, first_context, context_pages.
  keeps_auto; try apply Hrun. apply newPage_keeps. reflexivity.
Qed.

(** Whatever the operation does and however it ends, the connection it
    opened is closed when [withVpsBrowser] returns, and that close is the
    last call it makes. *)
Lemma withVpsBrowser_releases {T} cdpWsUrl (run : nat -> M T) w :
  (forall p, keeps (adds_only not_connection) (run p)) ->
  let w' := snd (withVpsBrowser cdpWsUrl run w) in
  open_connections (w_trace w') = open_connections (w_trace w)
  /\ (forall v,
        o_reply (w_oracle w) (w_trace w) (connectOverCDP cdpWsUrl) = Ok v ->
        exists ok, last (w_trace w') = Some {| ev_op := browser_close; ev_ok := ok |}).
Proof.
  intros Hrun w'. subst w'.
  destruct (o_reply (w_oracle w) (w_trace w) (connectOverCDP cdpWsUrl))
    as [e|v] eqn:Hreply.
  - rewrite (withVpsBrowser_unreachable _ _ _ _ Hreply).
    split; [|discriminate]. cbn [snd]. rewrite open_connections_event.
    change (connection_delta _) with 0%Z. lia.
  - rewrite (withVpsBrowser_opened _ _ _ _ Hreply). cbn [snd]. split.
    + rewrite open_connections_event.
      rewrite (adds_only_balance _ _ (connected_body_keeps run Hrun _)).
      rewrite open_connections_event.
      change (connection_delta (closing_event _)) with (-1)%Z.
      change (connection_delta _) with 1%Z. lia.
    + intros _ _. eexists. simpl. rewrite last_snoc. reflexivity.
Qed.

Lemma keeps_balanced_of_adds {A} (m : M A) :
  keeps (adds_only not_connection) m -> keeps balanced m.
Proof. intros H w. apply adds_only_balance, H. Qed.

Lemma withVpsBrowser_balanced {T} cdpWsUrl (run : nat -> M T) :
  (forall p, keeps (adds_only not_connection) (run p)) ->
  keeps balanced (withVpsBrowser cdpWsUrl run).
Proof. intros Hrun w. apply withVpsBrowser_releases, Hrun. Qed.

Lemma warn_balanced msg : keeps balanced (warn msg).
Proof. apply keeps_balanced_of_adds, keeps_warn. reflexivity. Qed.

Lemma close_page_keeps allowed p :
  allowed (page_close p) = true -> keeps (adds_only allowed) (close_page p).
Proof. intros H. unfold close_page. keeps_auto. apply keeps_ask, H. Qed.

Lemma bringToFront_keeps allowed p :
  allowed (page_bringToFront p) = true ->
  keeps (adds_only allowed) (bringToFront p).
Proof. intros H. unfold bringToFront. keeps_auto. apply keeps_ask, H. Qed.

Lemma goto_keeps allowed p url :
  allowed (page_goto p url) = true -> keeps (adds_only allowed) (goto p url).
Proof. intros H. unfold goto. keeps_auto. apply keeps_ask, H. Qed.

(** The three operations of the direct backend, between connect and close,
    make no call that opens or closes a connection. *)
Lemma normalize_callback_keeps page :
  keeps (adds_only not_connection)
    (pages ← context_pages;
     for_of pages (fun currentPage =>
       if negb (same_page page currentPage)
       then swallow (close_page (pid currentPage))
       else mret tt);;
     swallow (bringToFront page);;
     after ← context_pages;
     mret (length after)).
Proof.
  unfold context_pages. keeps_auto.
  - apply close_page_keeps. reflexivity.
  - apply bringToFront_keeps. reflexivity.
Qed.

Lemma normalizeToSinglePageVps_balanced cdpWsUrl :
  keeps balanced (normalizeToSinglePageVps cdpWsUrl).
Proof.
  unfold normalizeToSinglePageVps. keeps_auto.
  - apply withVpsBrowser_balanced. intros p. apply normalize_callback_keeps.
  - apply warn_balanced.
Qed.

Lemma createVpsPlaywrightExecuteTool_balanced cdpWsUrl code :
  keeps balanced (createVpsPlaywrightExecuteTool cdpWsUrl code).
Proof.
  unfold createVpsPlaywrightExecuteTool. keeps_auto.
  apply withVpsBrowser_balanced. intros p. keeps_auto.
Qed.

Lemma createVpsComputerUseTool_balanced cdpWsUrl input :
  keeps balanced (createVpsComputerUseTool cdpWsUrl input).
Proof.
  unfold createVpsComputerUseTool. apply withVpsBrowser_balanced. intros p.
  unfold url_of. keeps_auto; apply goto_keeps; reflexivity.
Qed.

Lemma perform_balanced cdpWsUrl op : keeps balanced (perform cdpWsUrl op).
Proof.
  destruct op; simpl.
  - apply normalizeToSinglePageVps_balanced.
  - keeps_auto. apply createVpsComputerUseTool_balanced.
  - keeps_auto. apply createVpsPlaywrightExecuteTool_balanced.
Qed.

Lemma worlds_between_balanced cdpWsUrl ops w :
  Forall (fun w' => balanced w w') (worlds_between cdpWsUrl ops w).
Proof.
  revert w. induction ops as [|op ops IH]; intros w; simpl; constructor.
  - apply perform_balanced.
  - eapply Forall_impl; [apply IH|]. intros w' Hw'.
    eapply balanced_trans; [apply perform_balanced|exact Hw'].
Qed.

(** C3. Every operation on the direct backend closes the connection it
    opened before it returns, however it ends: [withVpsBrowser] leaves as
    many connections open as it found, for any operation that itself
    neither connects nor closes, and when it did connect the close of the
    browser is the last call it makes; so it is for the normalizer and for
    each call of the two tools, and between the operations of any sequence
    no connection is held. *)
Theorem direct_connection_is_scoped (cdpWsUrl : string) (w : World) :
  (forall T (run : nat -> M T),
     (forall p, keeps (adds_only not_connection) (run p)) ->
     let w' := snd (withVpsBrowser cdpWsUrl run w) in
     open_connections (w_trace w') = open_connections (w_trace w)
     /\ (forall v,
           o_reply (w_oracle w) (w_trace w) (connectOverCDP cdpWsUrl) = Ok v ->
           exists ok,
             last (w_trace w') = Some {| ev_op := browser_close; ev_ok := ok |}))
  /\ (forall op,
        open_connections (w_trace (snd (perform cdpWsUrl op w)))
        = open_connections (w_trace w))
  /\ (forall ops,
        Forall (fun w' => open_connections (w_trace w') = open_connections (w_trace w))
          (worlds_between cdpWsUrl ops w)).
Proof.
  split; [intros T run Hrun; apply withVpsBrowser_releases, Hrun|].
  split; [intros op; apply perform_balanced|].
  intros ops. apply worlds_between_balanced.
Qed.

Lemma direct_connection_is_scoped_witness :
  open_connections
    (w_trace (snd (withVpsBrowser "ws://vps" (fun page => call (page_title page))
                     (world_of three_tabs always_ok)))) = 0%Z
  /\ last (w_trace (snd (withVpsBrowser "ws://vps"
                           (fun page => call (page_title page))
                           (world_of three_tabs always_ok))))
     = Some {| ev_op := browser_close; ev_ok := true |}.
Proof.
  destruct (direct_connection_is_scoped "ws://vps" (world_of three_tabs always_ok))
    as [Hgeneric _].
  destruct (Hgeneric string (fun page => call (page_title page))) as [Hbalance Hlast].
  { intros p. apply keeps_ask. reflexivity. }
  split; [exact Hbalance|].
  destruct (Hlast "" eq_refl) as [ok Hok]. rewrite Hok. vm_compute in Hok.
  congruence.
Defined.

(** ** The route *)

Lemma run_total_keeps {A} R (m : M A) w :
  total m -> keeps R m -> exists a w', m w = (Ok a, w') /\ R w w'.
Proof.
  intros Ht Hk. destruct (Ht w) as [a Ha]. specialize (Hk w).
  destruct (m w) as [r w']. simpl in *. subst r. eauto.
Qed.

Lemma isOpenAICompatibleEndpointReachable_total baseURL apiKey :
  total (isOpenAICompatibleEndpointReachable baseURL apiKey).
Proof. apply total_try_catch. intros. apply total_ret. Qed.

Lemma resolveOllamaRuntimeConfig_total env : total (resolveOllamaRuntimeConfig env).
Proof.
  unfold resolveOllamaRuntimeConfig. cbv zeta.
  apply total_bind; [apply isOpenAICompatibleEndpointReachable_total|].
  intros [|]; [apply total_ret|].
  destruct (env !! "OLLAMA_CLOUD_BASE_URL"); [|apply total_ret].
  destruct (_ && _); apply total_ret.
Qed.

Lemma resolveOllamaRuntimeConfig_keeps env :
  keeps (adds_only is_preflight) (resolveOllamaRuntimeConfig env).
Proof.
  unfold resolveOllamaRuntimeConfig, isOpenAICompatibleEndpointReachable.
  cbv zeta. keeps_auto.
Qed.

Lemma loadRecentSessionMemory_total env sessionId limit :
  total (loadRecentSessionMemory env sessionId limit).
Proof.
  intros w. destruct (loadRecentSessionMemory_returns env sessionId limit w)
    as (items & w' & Hrun & _).
  exists items. rewrite Hrun. reflexivity.
Qed.

Lemma loadRecentSessionMemory_keeps env sessionId limit :
  keeps (adds_only is_preflight) (loadRecentSessionMemory env sessionId limit).
Proof. unfold loadRecentSessionMemory. cbv zeta. keeps_auto. Qed.

Lemma resolveOllamaRuntimeConfig_pages env w :
  w_pages (snd (resolveOllamaRuntimeConfig env w)) = w_pages w.
Proof.
  unfold resolveOllamaRuntimeConfig, isOpenAICompatibleEndpointReachable,
    try_catch, fetch. cbv zeta. unfold mbind, M_bind. rewrite ask_run.
  destruct (o_fetch _ _ _) as [e|response]; simpl.
  - destruct (env !! "OLLAMA_CLOUD_BASE_URL"); [|reflexivity].
    destruct (_ && _); reflexivity.
  - destruct (resp_ok response); [reflexivity|].
    destruct (env !! "OLLAMA_CLOUD_BASE_URL"); [|reflexivity].
    destruct (_ && _); reflexivity.
Qed.

(** No default is configured when the endpoint variable is unset. *)
Lemma getVpsSandboxConfig_no_endpoint env :
  Js.truthy (env !! "VPS_SANDBOX_CDP_WS_URL") = false ->
  getVpsSandboxConfig env = None.
Proof.
  unfold getVpsSandboxConfig, Js.truthy.
  destruct (env !! "VPS_SANDBOX_CDP_WS_URL") as [c|];
    destruct (env !! "VPS_SANDBOX_LIVE_VIEW_URL") as [l|]; try reflexivity.
  intros H. apply negb_false_iff in H. rewrite H.
  rewrite orb_true_r. reflexivity.
Qed.

Lemma falsy_truthy v : falsy v = negb (Js.truthy v).
Proof. reflexivity. Qed.

(** The route up to the binding of the tools, for a request with a task. *)
Lemma POST_preflight kt env body task w :
  req_task body = Some task -> Js.truthy (Some task) = true ->
  exists ollamaRuntime sessionMemory w2,
    adds_only is_preflight w w2 /\ w_pages w2 = w_pages w
    /\ POST kt env (json_request body) w
       = try_catch
           (bound ← bind_tools kt env body
                      (resolveSandboxProvider env (req_provider body))
                      (getVpsSandboxConfig env);
            match bound with
            | inl response => mret response
            | inr tools =>
                let memorySessionId :=
                  Js.or_lit (Js.or (req_sessionId body)
                               (vc_sessionId <$> getVpsSandboxConfig env))
                    "vps-sandbox-session" in
                let selectedModel :=
                  selectModelForTask task (rc_models ollamaRuntime) in
                let agent :=
                  {| ag_baseURL := rc_baseURL ollamaRuntime;
                     ag_model := sel_model selectedModel;
                     ag_tools := tools;
                     ag_stepLimit := 20;
                     ag_system := system_policy |} in
                result ← generate agent
                           (promptWithMemory task
                              (buildMemoryPromptContext sessionMemory));
                saveSessionMemory env
                  {| sv_sessionId := memorySessionId;
                     sv_task := Js.trim task;
                     sv_response := Js.or_lit (Some (gr_text result)) "";
                     sv_modelRole := role_name (sel_role selectedModel);
                     sv_modelName := sel_model selectedModel;
                     sv_llmProvider := provider_name (rc_provider ollamaRuntime);
                     sv_stepCount := length (gr_steps result);
                     sv_success := true |};;
                mret {| status := 200;
                        body := success_body
                          {| run_response := gr_text result;
                             run_executedCodes :=
                               executedCodes (detailedSteps (gr_steps result));
                             run_detailedSteps := detailedSteps (gr_steps result);
                             run_stepCount := length (gr_steps result);
                             run_usage := gr_usage result;
                             run_llmProvider := rc_provider ollamaRuntime;
                             run_llmModel := sel_model selectedModel;
                             run_llmRole := sel_role selectedModel;
                             run_memoryEnabled :=
                               negb (Nat.eqb (length sessionMemory) 0);
                             run_sandboxProvider :=
                               resolveSandboxProvider env (req_provider body) |} |}
            end)
           (fun error =>
              warn ("Agent execution error: " ++ error)%string;;
              mret {| status := 500;
                      body := failure_body
                        (Js.or_lit (Some error) "Failed to execute agent") |})
           w2.
Proof.
  intros Htask Htruthy.
  destruct (run_total_keeps _ _ w (resolveOllamaRuntimeConfig_total env)
              (resolveOllamaRuntimeConfig_keeps env))
    as (ollamaRuntime & w1 & Hrun1 & Hadds1).
  destruct (loadRecentSessionMemory_returns env
              (Js.or_lit (Js.or (req_sessionId body)
                            (vc_sessionId <$> getVpsSandboxConfig env))
                 "vps-sandbox-session") (Some 6%Z) w1)
    as (sessionMemory & w2 & Hrun2 & Hpages2).
  exists ollamaRuntime, sessionMemory, w2.
  split; [|split].
  - eapply adds_only_trans; [exact Hadds1|].
    pose proof (loadRecentSessionMemory_keeps env
                  (Js.or_lit (Js.or (req_sessionId body)
                                (vc_sessionId <$> getVpsSandboxConfig env))
                     "vps-sandbox-session") (Some 6%Z) w1) as H.
    rewrite Hrun2 in H. exact H.
  - rewrite Hpages2. pose proof (resolveOllamaRuntimeConfig_pages env w) as H.
    rewrite Hrun1 in H. exact H.
  - unfold POST, try_catch. unfold req_json. rewrite bind_ret. cbv zeta.
    rewrite Htask. rewrite falsy_truthy, Htruthy. cbn [negb].
    erewrite bind_Ok by exact Hrun1.
    erewrite bind_Ok by exact Hrun2.
    reflexivity.
Qed.

(** C6 as stated fails: a direct request without an endpoint is answered
    with status 400 and a body that has the error message and no [success]
    field; without a task the message is about the task. *)
Lemma direct_request_without_endpoint_body :
  fst (POST serviceExecuteTool ∅ (json_request direct_request)
         (world_of three_tabs always_ok))
  = Ok {| status := 400; body := error_body missing_endpoint |}
  /\ body_success (error_body missing_endpoint) <> Some false
  /\ fst (POST serviceExecuteTool ∅ (json_request direct_request_without_task)
            (world_of three_tabs always_ok))
     = Ok {| status := 400; body := error_body "Missing task" |}
  /\ "Missing task" <> missing_endpoint.
Proof. vm_compute. repeat split; discriminate. Qed.

(** C6, amended. A request with a task that selects the direct (vps)
    provider, with no [cdpWsUrl] of its own and no default configured
    ([getVpsSandboxConfig] gives none), is answered with status 400 and the
    body [{ error }] whose message names the missing endpoint (the body has
    no [success] field); before that the route has made only its probe and
    its read of the session memory: no connection to a backend and no call
    of the model. *)
Theorem direct_request_without_endpoint
    (kt : string -> string -> M ToolValue) (env : Env) (body : RequestBody)
    (w : World) :
  resolveSandboxProvider env (req_provider body) = vps ->
  Js.truthy (req_task body) = true ->
  Js.truthy (req_cdpWsUrl body) = false ->
  getVpsSandboxConfig env = None ->
  exists w',
    POST kt env (json_request body) w
    = (Ok {| status := 400; body := error_body missing_endpoint |}, w')
    /\ adds_only is_preflight w w'
    /\ w_pages w' = w_pages w.
Proof.
  intros Hprovider Htask Hurl Henv.
  destruct (req_task body) as [task|] eqn:Hbody; [|discriminate].
  destruct (POST_preflight kt env body task w Hbody Htask)
    as (ollamaRuntime & sessionMemory & w2 & Hadds & Hpages & Hrun).
  exists w2. split; [|split; assumption].
  rewrite Hrun. rewrite Hprovider. rewrite Henv.
  unfold try_catch, bind_tools. cbv zeta. unfold Js.or. rewrite Hurl.
  simpl. reflexivity.
Qed.

Lemma direct_request_without_endpoint_witness :
  exists w',
    POST serviceExecuteTool ∅ (json_request direct_request)
      (world_of three_tabs always_ok)
    = (Ok {| status := 400; body := error_body missing_endpoint |}, w')
    /\ Forall (fun e => is_preflight (ev_op e) = true) (w_trace w').
Proof.
  destruct (direct_request_without_endpoint serviceExecuteTool ∅ direct_request
              (world_of three_tabs always_ok))
    as (w' & Hrun & (_ & added & Htrace & Hadded) & _);
    [vm_compute; reflexivity..|].
  exists w'. split; [exact Hrun|]. rewrite Htrace. exact Hadded.
Defined.

(** A request whose task is absent or the empty text is answered at once:
    status 400, [Missing task], and the world is as it was (no call made). *)
Lemma POST_missing_task kt env body w :
  Js.truthy (req_task body) = false ->
  POST kt env (json_request body) w
  = (Ok {| status := 400; body := error_body "Missing task" |}, w).
Proof.
  intros Htask. unfold POST, try_catch, req_json. rewrite bind_ret. cbv zeta.
  destruct (req_task body) as [task|]; [|reflexivity].
  rewrite falsy_truthy, Htask. reflexivity.
Qed.

(** C7 at a task of three spaces, which is empty after trimming: the route
    does not reject it; it connects to the backend, normalizes the session
    and calls the model with the blank task, and answers with success. *)
Lemma blank_task_is_run :
  Js.trim "   " = ""
  /\ (let r := POST serviceExecuteTool ∅ (json_request blank_task_request)
                 (world_of three_tabs always_ok) in
      match fst r with
      | Ok response => (status response, body_success (body response))
      | Throw _ => (0, None)
      end = (200, Some true)
      /\ List.map ev_op (w_trace (snd r))
         = [ fetch_models "http://localhost:11434/v1/models";
             connectOverCDP "ws://vps"; page_close 0; page_close 1;
             page_bringToFront 2; browser_close;
             model_generate "http://localhost:11434/v1"
               "kimi-k2-thinking:cloud" "   " ]).
Proof. vm_compute. repeat split. Qed.

(** X6. The inference backend is always resolved: the local one when its probe
    answers ok; otherwise the cloud one when its base URL is configured;
    otherwise the local one as the last resort. *)
Theorem ollama_runtime_resolution (env : Env) (w : World) :
  exists config w',
    resolveOllamaRuntimeConfig env w = (Ok config, w')
    /\ rc_provider config
       = if local_reachable env w then local
         else if Js.truthy (env !! "OLLAMA_CLOUD_BASE_URL") then cloud
         else local.
Proof.
  unfold resolveOllamaRuntimeConfig, isOpenAICompatibleEndpointReachable,
    local_reachable, try_catch, fetch.
  cbv zeta. unfold mbind at 1. unfold M_bind at 1. unfold mbind at 1.
  unfold M_bind at 1. rewrite ask_run.
  set (cloudApiKey := Js.or_lit (env !! "OLLAMA_CLOUD_API_KEY")
                        (Js.or_lit (env !! "OLLAMA_API_KEY") "ollama")).
  assert (Hkey : Js.truthy (Some cloudApiKey) = true).
  { apply truthy_Some. subst cloudApiKey.
    apply or_lit_nonempty, or_lit_nonempty. discriminate. }
  destruct (o_fetch _ _ _) as [e|response]; simpl.
  - destruct (env !! "OLLAMA_CLOUD_BASE_URL") as [url|]; simpl;
      [|eexists _, _; split; reflexivity].
    fold cloudApiKey. simpl in Hkey. rewrite Hkey, andb_true_r.
    destruct (negb (String.eqb url "")); eexists _, _; split; reflexivity.
  - destruct (resp_ok response); [eexists _, _; split; reflexivity|].
    destruct (env !! "OLLAMA_CLOUD_BASE_URL") as [url|]; simpl;
      [|eexists _, _; split; reflexivity].
    fold cloudApiKey. simpl in Hkey. rewrite Hkey, andb_true_r.
    destruct (negb (String.eqb url "")); eexists _, _; split; reflexivity.
Qed.

(** ** Tool set *)

(** C2 at a [type_text] invocation with empty text. The managed tool
    rejects it without a call to the backend. The direct tool rejects it
    only inside the connection: it connects and closes, creates a page when
    the context has none, and against an endpoint that cannot be reached
    the failure it reports is the connection's, not the parameter's. *)
Lemma direct_tool_validates_after_connecting :
  createKernelComputerUseTool "s1" type_nothing (world_of three_tabs always_ok)
  = (Throw "type_text action requires 'text'", world_of three_tabs always_ok)
  /\ (let r := createVpsComputerUseTool "ws://vps" type_nothing
                 (world_of three_tabs always_ok) in
      fst r = Throw "type_text action requires 'text'"
      /\ List.map ev_op (w_trace (snd r))
         = [connectOverCDP "ws://vps"; browser_close])
  /\ (let r := createVpsComputerUseTool "ws://vps" type_nothing
                 (world_of [] always_ok) in
      fst r = Throw "type_text action requires 'text'"
      /\ List.map ev_op (w_trace (snd r))
         = [connectOverCDP "ws://vps"; context_newPage; browser_close]
      /\ w_pages (snd r) = [ {| pid := 1; page_url := "about:blank" |} ])
  /\ fst (createVpsComputerUseTool "ws://vps" type_nothing
            (world_of three_tabs unreachable))
     = Throw "connect ECONNREFUSED".
Proof. vm_compute. repeat split. Qed.

(** X1. On the managed backend an invocation that lacks a required parameter is
    rejected before any call: the tool throws, its message names every
    parameter that is missing, and the world is as it was. *)
Theorem kernel_tool_validates_first sessionId input w :
  missing_parameters input <> [] ->
  exists message,
    createKernelComputerUseTool sessionId input w = (Throw message, w)
    /\ Forall (fun name => names_parameter message name = true)
         (missing_parameters input).
Proof.
  unfold missing_parameters, createKernelComputerUseTool.
  destruct input as [action url x y button text key dx dy waitMs fullPage].
  simpl. destruct action; try (intros H; contradiction H; reflexivity).
  - destruct url as [url|]; simpl.
    + destruct (falsy (Some url)); [|intros H; contradiction H; reflexivity].
      intros _. eexists. split; [reflexivity|]. repeat constructor.
    + intros _. eexists. split; [reflexivity|]. repeat constructor.
  - destruct x, y; simpl; try (intros H; contradiction H; reflexivity);
      intros _; eexists; (split; [reflexivity|]); repeat constructor.
  - destruct x, y; simpl; try (intros H; contradiction H; reflexivity);
      intros _; eexists; (split; [reflexivity|]); repeat constructor.
  - destruct text as [text|]; simpl.
    + destruct (falsy (Some text)); [|intros H; contradiction H; reflexivity].
      intros _. eexists. split; [reflexivity|]. repeat constructor.
    + intros _. eexists. split; [reflexivity|]. repeat constructor.
  - destruct key as [key|]; simpl.
    + destruct (falsy (Some key)); [|intros H; contradiction H; reflexivity].
      intros _. eexists. split; [reflexivity|]. repeat constructor.
    + intros _. eexists. split; [reflexivity|]. repeat constructor.
Qed.

Lemma kernel_tool_validates_first_witness :
  exists message,
    createKernelComputerUseTool "s1" (bare click) (world_of three_tabs always_ok)
    = (Throw message, world_of three_tabs always_ok)
    /\ names_parameter message "x" = true
    /\ names_parameter message "y" = true.
Proof.
  destruct (kernel_tool_validates_first "s1" (bare click)
              (world_of three_tabs always_ok))
    as (message & Hrun & Hnames); [discriminate|].
  exists message. split; [exact Hrun|].
  simpl in Hnames. inversion Hnames as [|? ? Hx Hrest]. subst.
  inversion Hrest as [|? ? Hy _]. subst. split; assumption.
Defined.

Lemma withVpsBrowser_ensures {T} (P : T -> Prop) cdpWsUrl (run : nat -> M T) :
  (forall p, ensures P (run p)) -> ensures P (withVpsBrowser cdpWsUrl run).
Proof.
  intros Hrun. unfold withVpsBrowser.
  eapply ensures_bind; [apply ensures_any|]. intros _ _.
  apply ensures_try_finally.
  eapply ensures_bind; [apply ensures_any|]. intros context _.
  destruct (negb context); [apply ensures_throw|].
  eapply ensures_bind; [apply ensures_any|]. intros pages _.
  eapply ensures_bind; [apply ensures_any|]. intros page _. apply Hrun.
Qed.



(** ** Agent loop driver *)

(** The loop ends within its fuel when the fuel is what is left of the step
    limit, and it returns no more steps than the limit. *)
Lemma agent_loop_bound n next fuel steps w :
  length steps + fuel = n -> 1 <= fuel ->
  match fst (agent_loop fuel (stepCountIs n) next steps w) with
  | Ok (Some s) => length steps < length s <= n
  | Ok None => False
  | Throw _ => True
  end.
Proof.
  revert steps w. induction fuel as [|fuel IH]; intros steps w Hlen Hfuel;
    [lia|].
  simpl. unfold mbind, M_bind.
  destruct (next w) as [[e|step] w']; simpl; [exact I|].
  assert (Hlen' : length (steps ++ [step]) = length steps + 1)
    by (rewrite length_app; simpl; lia).
  destruct (negb (requests_tools step) || stepCountIs n (steps ++ [step]))
    eqn:Hstop; simpl.
  - lia.
  - apply orb_false_iff in Hstop as [_ Hstop].
    unfold stepCountIs in Hstop. apply Nat.eqb_neq in Hstop.
    specialize (IH (steps ++ [step]) w' ltac:(lia) ltac:(lia)).
    destruct (fst (agent_loop fuel (stepCountIs n) next (steps ++ [step]) w'))
      as [e|[s|]]; [exact I| |contradiction].
    lia.
Qed.

(** With a step limit of at least one, [generate] returns between one step
    and the limit; what its loop throws is what a step threw. *)
Lemma generate_bound agent prompt :
  1 <= ag_stepLimit agent ->
  ensures (fun result => 1 <= length (gr_steps result) <= ag_stepLimit agent)
    (generate agent prompt).
Proof.
  intros Hlimit w. unfold generate, mbind, M_bind.
  pose proof (agent_loop_bound (ag_stepLimit agent) (agent_step agent prompt)
                (ag_stepLimit agent) [] w eq_refl Hlimit) as Hloop.
  destruct (agent_loop _ _ _ _ w) as [[e|[steps|]] w']; simpl in *;
    [exact I| |contradiction].
  lia.
Qed.

Lemma detailedSteps_length steps : length (detailedSteps steps) = length steps.
Proof. apply length_imap. Qed.

Lemma bind_tools_ensures kt env body provider config :
  ensures (fun bound => match bound with
                        | inl response => well_formed_response response
                        | inr _ => True
                        end)
    (bind_tools kt env body provider config).
Proof.
  unfold bind_tools. cbv zeta.
  repeat first
    [ apply ensures_ret; reflexivity
    | apply ensures_ret; exact I
    | eapply ensures_bind; [apply ensures_any|intros ? _]
    | match goal with
      | |- ensures _ (match ?x with _ => _ end) => destruct x
      end ].
Qed.

(** Every request is answered, with one of the three answers. *)
Lemma POST_answers kt env req w :
  exists response w',
    POST kt env req w = (Ok response, w') /\ well_formed_response response.
Proof.
  assert (Htotal : total (POST kt env req)).
  { apply total_try_catch. intros e.
    apply total_bind; [apply total_warn|]. intros. apply total_ret. }
  assert (Hens : ensures well_formed_response (POST kt env req)).
  { unfold POST. apply ensures_try_catch.
    - eapply ensures_bind; [apply ensures_any|]. intros body _. cbv zeta.
      destruct (req_task body) as [task|]; [|apply ensures_ret; reflexivity].
      destruct (falsy (Some task)); [apply ensures_ret; reflexivity|].
      eapply ensures_bind; [apply ensures_any|]. intros ollamaRuntime _.
      eapply ensures_bind; [apply ensures_any|]. intros sessionMemory _.
      eapply ensures_bind; [apply bind_tools_ensures|].
      intros [response|tools] Hbound; [apply ensures_ret, Hbound|].
      eapply ensures_bind; [apply generate_bound; simpl; lia|].
      intros result Hsteps. simpl in Hsteps.
      eapply ensures_bind; [apply ensures_any|]. intros _ _.
      apply ensures_ret. unfold well_formed_response. simpl.
      rewrite detailedSteps_length. lia.
    - intros e. eapply ensures_bind; [apply ensures_any|]. intros _ _.
      apply ensures_ret. reflexivity. }
  destruct (Htotal w) as [response Hresponse]. specialize (Hens w).
  rewrite Hresponse in Hens.
  destruct (POST kt env req w) as [r w']. simpl in Hresponse. subst r.
  exists response, w'. split; [reflexivity|exact Hens].
Qed.

Lemma model_keeps_asking_later w w' :
  adds_only any_op w w' -> model_keeps_asking w -> model_keeps_asking w'.
Proof. intros [Horacle _] H history op. rewrite Horacle. apply H. Qed.

Lemma withVpsBrowser_keeps {T} cdpWsUrl (run : nat -> M T) :
  (forall p, keeps (adds_only any_op) (run p)) ->
  keeps (adds_only any_op) (withVpsBrowser cdpWsUrl run).
Proof.
  intros Hrun. unfold withVpsBrowser, first_context, context_pages.
  keeps_auto; try apply Hrun. apply newPage_keeps. reflexivity.
Qed.

Lemma normalizeToSinglePageVps_keeps cdpWsUrl :
  keeps (adds_only any_op) (normalizeToSinglePageVps cdpWsUrl).
Proof.
  unfold normalizeToSinglePageVps. keeps_auto.
  apply withVpsBrowser_keeps. intros p. unfold context_pages. keeps_auto.
  - apply close_page_keeps. reflexivity.
  - apply bringToFront_keeps. reflexivity.
Qed.

Lemma normalizeToSinglePageKernel_keeps sessionId :
  keeps (adds_only any_op) (normalizeToSinglePageKernel sessionId).
Proof.
  unfold normalizeToSinglePageKernel, kernel_execute, normalizeScript,
    context_pages, url_of.
  keeps_auto.
  - apply close_page_keeps. reflexivity.
  - apply bringToFront_keeps. reflexivity.
Qed.

Lemma createVpsComputerUseTool_keeps cdpWsUrl input :
  keeps (adds_only any_op) (createVpsComputerUseTool cdpWsUrl input).
Proof.
  unfold createVpsComputerUseTool. apply withVpsBrowser_keeps. intros p.
  unfold url_of. keeps_auto; apply goto_keeps; reflexivity.
Qed.

Lemma createVpsPlaywrightExecuteTool_keeps cdpWsUrl code :
  keeps (adds_only any_op) (createVpsPlaywrightExecuteTool cdpWsUrl code).
Proof.
  unfold createVpsPlaywrightExecuteTool. keeps_auto.
  apply withVpsBrowser_keeps. intros p. keeps_auto.
Qed.

Lemma createKernelComputerUseTool_keeps sessionId input :
  keeps (adds_only any_op) (createKernelComputerUseTool sessionId input).
Proof. unfold createKernelComputerUseTool. cbv zeta. keeps_auto. Qed.

Lemma saveSessionMemory_total env input : total (saveSessionMemory env input).
Proof.
  intros w. destruct (saveSessionMemory_returns env input w) as (w' & H & _).
  exists tt. rewrite H. reflexivity.
Qed.

Lemma dispatch_total tools c : total (dispatch tools c).
Proof. apply total_try_catch. intros. apply total_ret. Qed.

Lemma dispatch_keeps tools c :
  tools_keep_oracle tools -> keeps (adds_only any_op) (dispatch tools c).
Proof.
  intros [Hexecute Huse]. unfold dispatch. keeps_auto; auto.
Qed.

(** One pass of a model that asks for a tool: the step is made, it holds a
    tool call, and the oracle is as before. *)
Lemma agent_step_asking agent prompt w :
  model_keeps_asking w -> tools_keep_oracle (ag_tools agent) ->
  exists step w',
    agent_step agent prompt w = (Ok step, w')
    /\ requests_tools step = true
    /\ adds_only any_op w w'.
Proof.
  intros Hmodel Htools. unfold agent_step, generateText.
  destruct (Hmodel (w_trace w)
              (model_generate (ag_baseURL agent) (ag_model agent) prompt))
    as (turn & Hturn & Hcalls).
  erewrite bind_Ok by (rewrite ask_run, Hturn; reflexivity).
  set (w0 := record_event _ w).
  destruct (run_total_keeps (adds_only any_op)
              (for_each (mt_toolCalls turn) (dispatch (ag_tools agent))) w0)
    as (outcomes & w1 & Hrun & Hadds).
  { apply total_for_each. intros. apply dispatch_total. }
  { apply keeps_for_each; [apply adds_only_refl|apply adds_only_trans|].
    intros. apply dispatch_keeps, Htools. }
  erewrite bind_Ok by exact Hrun.
  eexists _, w1. split; [reflexivity|]. split.
  - unfold requests_tools. simpl. rewrite !existsb_app.
    destruct (mt_toolCalls turn) as [|c calls]; [contradiction|].
    simpl. rewrite orb_true_r. reflexivity.
  - eapply adds_only_trans; [|exact Hadds]. apply adds_only_event. reflexivity.
Qed.

(** The loop of a model that never stops asking ends at the step limit. *)
Lemma agent_loop_ceiling agent prompt n fuel steps w :
  model_keeps_asking w -> tools_keep_oracle (ag_tools agent) ->
  length steps + fuel = n -> 1 <= fuel ->
  exists s w',
    agent_loop fuel (stepCountIs n) (agent_step agent prompt) steps w
    = (Ok (Some s), w')
    /\ length s = n
    /\ adds_only any_op w w'.
Proof.
  intros Hmodel Htools. revert steps w Hmodel.
  induction fuel as [|fuel IH]; intros steps w Hmodel Hlen Hfuel; [lia|].
  destruct (agent_step_asking agent prompt w Hmodel Htools)
    as (step & w1 & Hstep & Hasks & Hadds).
  simpl. erewrite bind_Ok by exact Hstep. rewrite Hasks. simpl.
  assert (Hlen' : length (steps ++ [step]) = length steps + 1)
    by (rewrite length_app; simpl; lia).
  unfold stepCountIs at 1.
  destruct (Nat.eqb_spec (length (steps ++ [step])) n) as [Heq|Hneq].
  - eexists _, w1. split; [reflexivity|]. split; assumption.
  - destruct (IH (steps ++ [step]) w1) as (s & w' & Hrun & Hs & Hadds');
      [eapply model_keeps_asking_later; eassumption|lia|lia|].
    exists s, w'. split; [exact Hrun|]. split; [exact Hs|].
    eapply adds_only_trans; eassumption.
Qed.

Lemma generate_ceiling agent prompt w :
  model_keeps_asking w -> tools_keep_oracle (ag_tools agent) ->
  1 <= ag_stepLimit agent ->
  exists result w',
    generate agent prompt w = (Ok result, w')
    /\ length (gr_steps result) = ag_stepLimit agent.
Proof.
  intros Hmodel Htools Hlimit.
  destruct (agent_loop_ceiling agent prompt (ag_stepLimit agent)
              (ag_stepLimit agent) [] w Hmodel Htools eq_refl Hlimit)
    as (s & w' & Hrun & Hs & _).
  unfold generate. erewrite bind_Ok by exact Hrun.
  eexists _, w'. split; [reflexivity|exact Hs].
Qed.

Lemma truthy_inv v : Js.truthy v = true -> exists s, v = Some s /\ falsy (Some s) = false.
Proof.
  destruct v as [s|]; [|discriminate]. intros H. exists s.
  split; [reflexivity|]. rewrite falsy_truthy, H. reflexivity.
Qed.

(** A request that passes the checks gets the tools of its backend, after
    the normalization of its session. *)
Lemma bind_tools_ready kt env body w :
  request_ready env body = true ->
  (forall sessionId code, keeps (adds_only any_op) (kt sessionId code)) ->
  exists tools w',
    bind_tools kt env body (resolveSandboxProvider env (req_provider body))
      (getVpsSandboxConfig env) w
    = (Ok (inr tools), w')
    /\ tools_keep_oracle tools
    /\ adds_only any_op w w'.
Proof.
  intros Hready Hkt. unfold request_ready in Hready.
  apply andb_true_iff in Hready as [_ Hready]. unfold bind_tools. cbv zeta.
  destruct (resolveSandboxProvider env (req_provider body)).
  - apply andb_true_iff in Hready as [Hkey Hsession].
    rewrite falsy_truthy, Hkey. cbn [negb].
    destruct (truthy_inv _ Hsession) as (sessionId & -> & ->).
    destruct (run_total_keeps _ _ w (normalizeToSinglePageKernel_total sessionId)
                (normalizeToSinglePageKernel_keeps sessionId))
      as ([] & w' & Hrun & Hadds).
    erewrite bind_Ok by exact Hrun.
    eexists _, w'. split; [reflexivity|]. split; [|exact Hadds].
    split; simpl; [apply Hkt|apply createKernelComputerUseTool_keeps].
  - destruct (truthy_inv _ Hready) as (url & -> & ->).
    destruct (run_total_keeps _ _ w (normalizeToSinglePageVps_total url)
                (normalizeToSinglePageVps_keeps url))
      as ([] & w' & Hrun & Hadds).
    erewrite bind_Ok by exact Hrun.
    eexists _, w'. split; [reflexivity|]. split; [|exact Hadds].
    split; simpl;
      [apply createVpsPlaywrightExecuteTool_keeps
      |apply createVpsComputerUseTool_keeps].
Qed.

(** A run that reaches the step ceiling with the model still asking for
    tools is answered as a success, with the twenty steps it made. *)
Lemma POST_ceiling kt env body w :
  request_ready env body = true ->
  model_keeps_asking w ->
  (forall sessionId code, keeps (adds_only any_op) (kt sessionId code)) ->
  exists run w',
    POST kt env (json_request body) w
    = (Ok {| status := 200; body := success_body run |}, w')
    /\ run_stepCount run = 20
    /\ length (run_detailedSteps run) = 20.
Proof.
  intros Hready Hmodel Hkt.
  pose proof Hready as Htask. unfold request_ready in Htask.
  apply andb_true_iff in Htask as [Htask _].
  destruct (req_task body) as [task|] eqn:Hbody; [|discriminate].
  destruct (POST_preflight kt env body task w Hbody Htask)
    as (ollamaRuntime & sessionMemory & w2 & Hadds2 & _ & Hrun).
  apply (adds_only_weaken _ any_op) in Hadds2; [|reflexivity].
  destruct (bind_tools_ready kt env body w2 Hready Hkt)
    as (tools & w3 & Hbound & Htools & Hadds3).
  pose proof (adds_only_trans _ _ _ _ Hadds2 Hadds3) as Hadds.
  set (agent := {| ag_baseURL := rc_baseURL ollamaRuntime;
                   ag_model := sel_model (selectModelForTask task
                                            (rc_models ollamaRuntime));
                   ag_tools := tools; ag_stepLimit := 20;
                   ag_system := system_policy |}).
  destruct (generate_ceiling agent
              (promptWithMemory task (buildMemoryPromptContext sessionMemory)) w3)
    as (result & w4 & Hgenerate & Hsteps);
    [eapply model_keeps_asking_later; eassumption|exact Htools|simpl; lia|].
  simpl in Hsteps.
  rewrite Hrun. unfold try_catch.
  erewrite bind_Ok by exact Hbound. cbv beta iota zeta. fold agent.
  erewrite bind_Ok by exact Hgenerate.
  match goal with
  | |- context [saveSessionMemory env ?input] =>
      destruct (saveSessionMemory_returns env input w4) as (w5 & Hsave & _)
  end.
  erewrite bind_Ok by exact Hsave.
  eexists _, w5. split; [reflexivity|]. simpl.
  rewrite detailedSteps_length. split; exact Hsteps.
Qed.

(** C4. Every run is answered; a successful answer reports as [stepCount]
    the number of steps of its trace, which is at most 20; and a run whose
    model asks for a tool in every turn stops at the ceiling and is still
    answered with [success: true], its twenty steps included. *)
Theorem step_ceiling (kt : string -> string -> M ToolValue) (env : Env)
    (w : World) :
  (forall req,
     exists response w',
       POST kt env req w = (Ok response, w')
       /\ match body response with
          | success_body run =>
              run_stepCount run = length (run_detailedSteps run)
              /\ run_stepCount run <= 20
          | _ => True
          end)
  /\ (forall agent prompt,
        1 <= ag_stepLimit agent ->
        match fst (generate agent prompt w) with
        | Ok result => length (gr_steps result) <= ag_stepLimit agent
        | Throw _ => True
        end)
  /\ (forall body,
        request_ready env body = true ->
        model_keeps_asking w ->
        (forall sessionId code, keeps (adds_only any_op) (kt sessionId code)) ->
        exists run w',
          POST kt env (json_request body) w
          = (Ok {| status := 200; body := success_body run |}, w')
          /\ body_success (success_body run) = Some true
          /\ run_stepCount run = 20
          /\ length (run_detailedSteps run) = 20).
Proof.
  split; [|split].
  - intros req. destruct (POST_answers kt env req w) as (response & w' & Hrun & Hwf).
    exists response, w'. split; [exact Hrun|].
    unfold well_formed_response in Hwf.
    destruct (body response); try exact I. lia.
  - intros agent prompt Hlimit.
    pose proof (generate_bound agent prompt Hlimit w) as H.
    destruct (fst (generate agent prompt w)); [exact I|lia].
  - intros body Hready Hmodel Hkt.
    destruct (POST_ceiling kt env body w Hready Hmodel Hkt)
      as (run & w' & Hrun & Hcount & Hsteps).
    exists run, w'. repeat split; assumption.
Qed.

Lemma step_ceiling_witness :
  exists run w',
    POST serviceExecuteTool ∅ (json_request scroll_request)
      (world_of three_tabs asks_forever)
    = (Ok {| status := 200; body := success_body run |}, w')
    /\ run_stepCount run = 20.
Proof.
  destruct (step_ceiling serviceExecuteTool ∅ (world_of three_tabs asks_forever))
    as (_ & _ & Hceiling).
  destruct (Hceiling scroll_request) as (run & w' & Hrun & _ & Hcount & _).
  - vm_compute. reflexivity.
  - intros history op. eexists. split; [reflexivity|discriminate].
  - intros sessionId code. unfold serviceExecuteTool. keeps_auto.
  - exists run, w'. split; assumption.
Defined.

(** ** Base URLs and model selection *)

Lemma stripTrailingSlashes_slashes n : Js.stripTrailingSlashes (slashes n) = "".
Proof. induction n as [|n IH]; simpl; [|rewrite IH]; reflexivity. Qed.

Lemma stripTrailingSlashes_app s n :
  Js.stripTrailingSlashes (s ++ slashes n) = Js.stripTrailingSlashes s.
Proof.
  induction s as [|c r IH]; simpl.
  - apply stripTrailingSlashes_slashes.
  - rewrite IH. reflexivity.
Qed.

Lemma stripTrailingSlashes_split s :
  exists n, s = (Js.stripTrailingSlashes s ++ slashes n)%string.
Proof.
  induction s as [|c r [n IH]]; simpl.
  - exists 0. reflexivity.
  - destruct (Js.stripTrailingSlashes r) as [|c' r'] eqn:Hr.
    + destruct (Ascii.eqb_spec c "/") as [->|_].
      * exists (S n). simpl. rewrite IH at 1. reflexivity.
      * exists n. simpl. rewrite IH at 1. reflexivity.
    + exists n. simpl. rewrite IH at 1. reflexivity.
Qed.

Lemma stripTrailingSlashes_last s :
  last_char (Js.stripTrailingSlashes s) <> Some "/"%char.
Proof.
  induction s as [|c r IH]; simpl; [discriminate|].
  destruct (Js.stripTrailingSlashes r) as [|c' r'] eqn:Hr.
  - destruct (Ascii.eqb_spec c "/") as [->|Hc]; simpl; congruence.
  - exact IH.
Qed.

(** X7. Trailing slashes of a base URL do not count: what is left after
    stripping does not end with a slash, the base URL is that text followed
    by slashes only, and the endpoints built from a base URL are the same
    with any number of slashes added to it, so no endpoint has a doubled
    slash at the joint. *)
Theorem base_url_trailing_slashes (base : string) :
  (exists n, base = (Js.stripTrailingSlashes base ++ slashes n)%string)
  /\ last_char (Js.stripTrailingSlashes base) <> Some "/"%char
  /\ (forall n,
        buildModelsEndpoint (base ++ slashes n) = buildModelsEndpoint base
        /\ Stt.normalizeBaseUrl (base ++ slashes n) = Stt.normalizeBaseUrl base
        /\ Tts.normalizeBaseUrl (base ++ slashes n) = Tts.normalizeBaseUrl base)
  /\ buildModelsEndpoint (Js.stripTrailingSlashes base)
     = buildModelsEndpoint base.
Proof.
  split; [apply stripTrailingSlashes_split|].
  split; [apply stripTrailingSlashes_last|].
  split.
  - intros n. unfold buildModelsEndpoint, Stt.normalizeBaseUrl,
      Tts.normalizeBaseUrl.
    rewrite stripTrailingSlashes_app. auto.
  - destruct (stripTrailingSlashes_split base) as [n Hn].
    rewrite Hn at 2. unfold buildModelsEndpoint.
    rewrite stripTrailingSlashes_app. reflexivity.
Qed.

(** *** Keywords *)

Lemma is_word_char_lower c : is_word_char (Js.lower_ascii c) = is_word_char c.
Proof.
  destruct c as [[] [] [] [] [] [] [] []]; reflexivity.
Qed.

Lemma toLowerCase_app s t :
  Js.toLowerCase (s ++ t) = (Js.toLowerCase s ++ Js.toLowerCase t)%string.
Proof. induction s as [|c r IH]; simpl; [|rewrite IH]; reflexivity. Qed.

Lemma last_char_lower s :
  last_char (Js.toLowerCase s) = Js.lower_ascii <$> last_char s.
Proof.
  induction s as [|c r IH]; [reflexivity|].
  destruct r as [|c' r']; [reflexivity|].
  change (last_char (Js.toLowerCase (String c (String c' r'))))
    with (last_char (Js.toLowerCase (String c' r'))).
  rewrite IH. reflexivity.
Qed.

Lemma outside_word_lower_last s :
  outside_word (last_char (Js.toLowerCase s)) = outside_word (last_char s).
Proof.
  rewrite last_char_lower. destruct (last_char s); simpl; [|reflexivity].
  rewrite is_word_char_lower. reflexivity.
Qed.

Lemma outside_word_lower_first s :
  outside_word (first_char (Js.toLowerCase s)) = outside_word (first_char s).
Proof.
  destruct s; simpl; [reflexivity|]. rewrite is_word_char_lower. reflexivity.
Qed.

Lemma prefix_app p s : String.prefix p (p ++ s) = true.
Proof.
  induction p as [|c r IH]; simpl; [destruct s; reflexivity|].
  destruct (ascii_dec c c); [exact IH|congruence].
Qed.

Lemma prefix_split p s :
  String.prefix p s = true -> exists rest, s = (p ++ rest)%string.
Proof.
  revert s. induction p as [|c r IH]; intros s H.
  - exists s. reflexivity.
  - destruct s as [|c' s']; simpl in H; [discriminate|].
    destruct (ascii_dec c c') as [->|]; [|discriminate].
    destruct (IH _ H) as [rest ->]. exists rest. reflexivity.
Qed.

Lemma get_length_app p s : String.get (String.length p) (p ++ s) = first_char s.
Proof.
  induction p as [|c r IH]; simpl; [|exact IH].
  destruct s; reflexivity.
Qed.

Lemma word_here_app kw after :
  outside_word (first_char after) = true -> word_here kw (kw ++ after) = true.
Proof.
  intros H. unfold word_here. rewrite prefix_app, get_length_app.
  destruct after; simpl in *; [reflexivity|exact H].
Qed.

(** The key word stands in the text as a whole word. *)
Lemma has_word_from_at kw before after after_word :
  kw <> "" ->
  (before = "" -> after_word = false) ->
  outside_word (last_char before) = true ->
  outside_word (first_char after) = true ->
  has_word_from after_word kw (before ++ kw ++ after) = true.
Proof.
  intros Hkw. revert after_word.
  induction before as [|c r IH]; intros after_word Hstart Hbefore Hafter.
  - rewrite (Hstart eq_refl).
    change ("" ++ kw ++ after)%string with (kw ++ after)%string.
    pose proof (word_here_app kw after Hafter) as Hhere.
    destruct (kw ++ after)%string as [|c r] eqn:Htext.
    + destruct kw; [congruence|discriminate].
    + cbn [has_word_from negb andb]. rewrite Hhere. reflexivity.
  - change (String c r ++ kw ++ after)%string
      with (String c (r ++ kw ++ after)).
    cbn [has_word_from]. apply orb_true_iff. right.
    apply IH; [| |exact Hafter].
    + intros ->. simpl in Hbefore. apply negb_true_iff. exact Hbefore.
    + destruct r; [reflexivity|exact Hbefore].
Qed.

(** A key word that is found occurs in the text. *)
Lemma has_word_from_occurs kw s after_word :
  has_word_from after_word kw s = true -> occurs kw s.
Proof.
  revert after_word. induction s as [|c r IH]; intros after_word H;
    [discriminate|].
  cbn [has_word_from] in H. apply orb_true_iff in H as [H|H].
  - apply andb_true_iff in H as [_ H]. unfold word_here in H.
    apply andb_true_iff in H as [H _].
    destruct (prefix_split _ _ H) as [rest ->]. exists "", rest. reflexivity.
  - destruct (IH _ H) as (before & after & ->).
    exists (String c before), after. reflexivity.
Qed.

Lemma has_any_word_occurs kws s :
  has_any_word kws s = true -> exists kw, In kw kws /\ occurs kw s.
Proof.
  unfold has_any_word. intros H. apply existsb_exists in H as (kw & Hin & H).
  exists kw. split; [exact Hin|]. exact (has_word_from_occurs _ _ _ H).
Qed.

Lemma has_any_word_at kws kw before word after :
  In kw kws -> kw <> "" -> Js.toLowerCase word = kw ->
  outside_word (last_char before) = true ->
  outside_word (first_char after) = true ->
  has_any_word kws (Js.toLowerCase (before ++ word ++ after)) = true.
Proof.
  intros Hin Hkw Hword Hbefore Hafter. unfold has_any_word.
  apply existsb_exists. exists kw. split; [exact Hin|].
  rewrite !toLowerCase_app, Hword.
  apply has_word_from_at; auto.
  - rewrite outside_word_lower_last. exact Hbefore.
  - rewrite outside_word_lower_first. exact Hafter.
Qed.

Lemma keywords_nonempty r kw : In kw (keywords_of r) -> kw <> "".
Proof.
  destruct r; simpl; intros H; intuition (subst; discriminate).
Qed.

(** X8. A task in ASCII that holds a key word of the OCR role as a whole
    word, in any letter case, is given to the OCR model, whatever else it
    holds (key words of the reasoning role included); a task that holds a
    key word of the reasoning role as a whole word, and in which no key word
    of the OCR role occurs at all, is given to the reasoning model. *)
Theorem keyword_selects_role (before word after : string) (models : Models) :
  is_ascii_text (before ++ word ++ after) = true ->
  outside_word (last_char before) = true ->
  outside_word (first_char after) = true ->
  (In (Js.toLowerCase word) ocr_words ->
   selectModelForTask (before ++ word ++ after) models
   = {| sel_role := ocr; sel_model := m_ocr models |})
  /\ (In (Js.toLowerCase word) reasoning_words ->
      (forall kw, In kw ocr_words ->
                  ~ occurs kw (Js.toLowerCase (before ++ word ++ after))) ->
      selectModelForTask (before ++ word ++ after) models
      = {| sel_role := reasoning; sel_model := m_reasoning models |}).
Proof.
  intros _ Hbefore Hafter. split.
  - intros Hin. unfold selectModelForTask.
    rewrite (has_any_word_at ocr_words (Js.toLowerCase word)); auto.
    exact (keywords_nonempty ocr _ Hin).
  - intros Hin Hnone. unfold selectModelForTask.
    destruct (has_any_word ocr_words _) eqn:Hocr.
    + destruct (has_any_word_occurs _ _ Hocr) as (kw & Hkw & Hoccurs).
      destruct (Hnone kw Hkw Hoccurs).
    + rewrite (has_any_word_at reasoning_words (Js.toLowerCase word)); auto.
      exact (keywords_nonempty reasoning _ Hin).
Qed.

Lemma occurs_from_complete part s : occurs part s -> occurs_from part s = true.
Proof.
  intros (before & after & ->). induction before as [|c r IH].
  - change ("" ++ part ++ after)%string with (part ++ after)%string.
    pose proof (prefix_app part after) as Hprefix.
    destruct (part ++ after)%string; cbn [occurs_from];
      rewrite Hprefix; reflexivity.
  - change (String c r ++ part ++ after)%string
      with (String c (r ++ part ++ after)).
    cbn [occurs_from]. rewrite IH. apply orb_true_r.
Qed.

Lemma keyword_selects_role_witness :
  selectModelForTask "Compare the PDF, then explain it" DEFAULT_MODELS
  = {| sel_role := ocr; sel_model := "glm-ocr:latest" |}
  /\ selectModelForTask "Explain the plan." DEFAULT_MODELS
     = {| sel_role := reasoning; sel_model := "deepseek-v3.1:671b-cloud" |}.
Proof.
  split.
  - apply (keyword_selects_role "Compare the " "PDF" ", then explain it");
      vm_compute; auto 10.
  - apply (keyword_selects_role "Explain the " "plan" ".");
      [reflexivity|reflexivity|reflexivity|vm_compute; auto 20|].
    intros kw Hin Hoccurs. apply occurs_from_complete in Hoccurs.
    simpl in Hin.
    repeat (destruct Hin as [<-|Hin]; [vm_compute in Hoccurs; discriminate|]).
    destruct Hin.
Defined.

(** X9. The role a task is given needs a key word: a task given to the OCR
    or to the reasoning model holds one of the key words of that role (in
    lower case, once the task is lowered), a task given to the reasoning
    model is one the OCR key words did not match, and the model of the
    selection is always the one configured for its role. So a task in which
    no key word occurs goes to the automation model. *)
Theorem role_needs_keyword (task : string) (models : Models) :
  let selection := selectModelForTask task models in
  sel_model selection = model_of (sel_role selection) models
  /\ (sel_role selection <> automation ->
      exists kw, In kw (keywords_of (sel_role selection))
                 /\ occurs kw (Js.toLowerCase task))
  /\ ((forall kw, In kw (ocr_words ++ reasoning_words) ->
                  ~ occurs kw (Js.toLowerCase task)) ->
      sel_role selection = automation).
Proof.
  unfold selectModelForTask.
  destruct (has_any_word ocr_words _) eqn:Hocr;
    [|destruct (has_any_word reasoning_words _) eqn:Hreasoning];
    cbv zeta; cbn [sel_role sel_model model_of keywords_of].
  - split; [reflexivity|]. split.
    + intros _. exact (has_any_word_occurs _ _ Hocr).
    + intros Hnone. destruct (has_any_word_occurs _ _ Hocr) as (kw & Hin & H).
      destruct (Hnone kw); [apply in_or_app; left; exact Hin|exact H].
  - split; [reflexivity|]. split.
    + intros _. exact (has_any_word_occurs _ _ Hreasoning).
    + intros Hnone.
      destruct (has_any_word_occurs _ _ Hreasoning) as (kw & Hin & H).
      destruct (Hnone kw); [apply in_or_app; right; exact Hin|exact H].
  - split; [reflexivity|]. split; [congruence|reflexivity].
Qed.

(** ** Session memory: requests and prompt *)

Lemma getSupabaseMemoryConfig_key env config :
  getSupabaseMemoryConfig env = Some config ->
  sm_key config <> ""
  /\ Js.or (env !! "SUPABASE_SERVICE_ROLE_KEY") (env !! "SUPABASE_ANON_KEY")
     = Some (sm_key config)
  /\ (exists url, env !! "SUPABASE_URL" = Some url /\ url <> ""
                  /\ sm_url config = Js.stripTrailingSlashes url)
  /\ sm_table config = Js.or_lit (env !! "SUPABASE_MEMORY_TABLE") "agent_memory".
Proof.
  unfold getSupabaseMemoryConfig.
  destruct (env !! "SUPABASE_URL") as [url|]; [|discriminate].
  destruct (Js.or _ _) as [key|]; [|discriminate].
  unfold falsy.
  destruct (Js.truthy (Some url)) eqn:Hurl; [|discriminate].
  destruct (Js.truthy (Some key)) eqn:Hkey; [|discriminate].
  simpl. intros [= <-]. simpl.
  apply truthy_Some in Hurl, Hkey.
  split; [exact Hkey|]. split; [reflexivity|].
  split; [|reflexivity]. exists url. auto.
Qed.

Lemma loadRecentSessionMemory_one_request env config sessionId limit w u :
  getSupabaseMemoryConfig env = Some config ->
  o_url (w_oracle w) (select_url config) = Ok u ->
  one_request
    (memory_select (sm_url config) (sm_table config) (sm_key config)
       sessionId (Js.nullish limit 6%Z))
    w (snd (loadRecentSessionMemory env sessionId limit w)).
Proof.
  intros Hconfig Hurl. unfold loadRecentSessionMemory. rewrite Hconfig.
  unfold one_request, try_catch, new_URL, fetch, ask, mbind, M_bind, settle,
    warn, mret, M_ret.
  fold (select_url config). rewrite Hurl.
  destruct (o_fetch _ _ _) as [e|[ok text json]]; simpl;
    [|destruct ok; simpl;
      [destruct json as [e|rows]|destruct text as [e|t]]; simpl];
    (split; [reflexivity|]; split; [reflexivity|]; eexists _, _;
     split; [rewrite <- ?app_assoc; reflexivity|];
     split; [simpl; lia|repeat constructor]).
Qed.

Lemma saveSessionMemory_one_request env config input w :
  getSupabaseMemoryConfig env = Some config ->
  one_request
    (memory_insert (sm_url config) (sm_table config) (sm_key config) input)
    w (snd (saveSessionMemory env input w)).
Proof.
  intros Hconfig. unfold saveSessionMemory. rewrite Hconfig.
  unfold one_request, try_catch, fetch, ask, mbind, M_bind, settle, warn,
    mret, M_ret.
  destruct (o_fetch _ _ _) as [e|[ok text json]]; simpl;
    [|destruct ok; simpl; [|destruct text as [e|t]]; simpl];
    (split; [reflexivity|]; split; [reflexivity|]; eexists _, _;
     split; [rewrite <- ?app_assoc; reflexivity|];
     split; [simpl; lia|repeat constructor]).
Qed.

(** X10. The requests of the session memory, with a store configured. A
    load first has the platform parse the URL of the table, the configured
    endpoint without its trailing slashes followed by [/rest/v1/] and the
    table: when that fails (an endpoint that is no absolute URL) nothing is
    sent and one warning is logged. Otherwise a load makes exactly one
    request, and so does every save; each logs at most one warning after
    it, and does nothing else. The request goes to the configured table
    ([agent_memory] by default); it carries the service-role key when that
    is set, and the anonymous key only otherwise. A load asks for the given
    session and limit (6 by default), a save carries the row it was
    given. *)
Theorem session_memory_requests (env : Env) (config : SupabaseMemoryConfig)
    (w : World) :
  getSupabaseMemoryConfig env = Some config ->
  (forall sessionId limit,
     let w' := snd (loadRecentSessionMemory env sessionId limit w) in
     match o_url (w_oracle w) (select_url config) with
     | Ok _ =>
         one_request
           (memory_select (sm_url config) (sm_table config) (sm_key config)
              sessionId (Js.nullish limit 6%Z))
           w w'
     | Throw e =>
         w' = record_event
                {| ev_op :=
                     console_warn ("Error loading Supabase memory: " ++ e)%string;
                   ev_ok := true |} w
     end)
  /\ (forall input,
        one_request
          (memory_insert (sm_url config) (sm_table config) (sm_key config) input)
          w (snd (saveSessionMemory env input w)))
  /\ last_char (sm_url config) <> Some "/"%char
  /\ (forall key, env !! "SUPABASE_SERVICE_ROLE_KEY" = Some key -> key <> "" ->
                  sm_key config = key)
  /\ (Js.truthy (env !! "SUPABASE_SERVICE_ROLE_KEY") = false ->
      env !! "SUPABASE_ANON_KEY" = Some (sm_key config))
  /\ (Js.truthy (env !! "SUPABASE_MEMORY_TABLE") = false ->
      sm_table config = "agent_memory").
Proof.
  intros Hconfig.
  destruct (getSupabaseMemoryConfig_key env config Hconfig)
    as (Hkey & Hor & (url & Hurl & Hnonempty & Hstripped) & Htable).
  split; [|split; [|split; [|split; [|split]]]].
  - intros sessionId limit. cbv zeta.
    destruct (o_url (w_oracle w) (select_url config)) as [e|u] eqn:Hparse.
    + rewrite (loadRecentSessionMemory_unparsed _ _ _ _ _ _ Hconfig Hparse).
      reflexivity.
    + apply (loadRecentSessionMemory_one_request _ _ _ _ _ u); assumption.
  - intros. apply saveSessionMemory_one_request. exact Hconfig.
  - rewrite Hstripped. apply stripTrailingSlashes_last.
  - intros key Hservice Hk. rewrite Hservice in Hor. unfold Js.or in Hor.
    apply truthy_Some in Hk. rewrite Hk in Hor. congruence.
  - intros Hservice. unfold Js.or in Hor. rewrite Hservice in Hor. exact Hor.
  - intros Hunset. rewrite Htable. apply or_lit_falsy. exact Hunset.
Qed.

Lemma session_memory_requests_witness :
  one_request
    (memory_select "https://db.example" "agent_memory" "service" "session-1" 6)
    (world_of [] always_ok)
    (snd (loadRecentSessionMemory
            {[ "SUPABASE_URL" := "https://db.example//";
               "SUPABASE_SERVICE_ROLE_KEY" := "service";
               "SUPABASE_ANON_KEY" := "anon" ]}
            "session-1" None (world_of [] always_ok)))
  /\ List.map ev_op
       (w_trace (snd (loadRecentSessionMemory relative_memory_env "session-1"
                        None (world_of [] absolute_urls_only))))
     = [console_warn "Error loading Supabase memory: Invalid URL"].
Proof.
  split.
  - destruct (session_memory_requests
                {[ "SUPABASE_URL" := "https://db.example//";
                   "SUPABASE_SERVICE_ROLE_KEY" := "service";
                   "SUPABASE_ANON_KEY" := "anon" ]}
                {| sm_url := "https://db.example"; sm_table := "agent_memory";
                   sm_key := "service" |}
                (world_of [] always_ok)) as [Hload _];
      [vm_compute; reflexivity|].
    exact (Hload "session-1" None).
  - destruct (session_memory_requests relative_memory_env
                {| sm_url := "db.example"; sm_table := "agent_memory";
                   sm_key := "anon" |}
                (world_of [] absolute_urls_only)) as [Hload _];
      [vm_compute; reflexivity|].
    specialize (Hload "session-1" None). cbv zeta in Hload.
    change (o_url (w_oracle (world_of [] absolute_urls_only))
              (select_url {| sm_url := "db.example"; sm_table := "agent_memory";
                             sm_key := "anon" |}))
      with (@Throw unit "Invalid URL") in Hload.
    rewrite Hload. reflexivity.
Defined.

Lemma length_append s t :
  String.length (s ++ t) = String.length s + String.length t.
Proof. induction s as [|c r IH]; simpl; [|rewrite IH]; reflexivity. Qed.

Lemma append_assoc (s t u : string) : ((s ++ t) ++ u = s ++ (t ++ u))%string.
Proof.
  induction s as [|c r IH]; [reflexivity|].
  change (String c ((r ++ t) ++ u) = String c (r ++ t ++ u))%string.
  f_equal. exact IH.
Qed.

Lemma substring_length n s :
  String.length (String.substring 0 n s) = Nat.min n (String.length s).
Proof.
  revert s. induction n as [|n IH]; intros [|c r]; simpl; try reflexivity.
  rewrite IH. reflexivity.
Qed.

Lemma slice0_prefix n s : String.prefix (Js.slice0 n s) s = true.
Proof.
  unfold Js.slice0. revert s.
  induction n as [|n IH]; intros [|c r]; simpl; try reflexivity.
  destruct (ascii_dec c c); [apply IH|congruence].
Qed.

Lemma memory_entry_starts index item :
  exists rest, memory_entry index item = String "M" rest.
Proof. eexists. reflexivity. Qed.

Lemma concat_cons_nonempty sep c rest entries :
  String.concat sep (String c rest :: entries) <> "".
Proof. destruct entries; simpl; discriminate. Qed.

Lemma buildMemoryPromptContext_nonempty items :
  items <> [] -> buildMemoryPromptContext items <> "".
Proof.
  intros Hitems. unfold buildMemoryPromptContext.
  destruct items as [|item rest]; [congruence|].
  destruct (rev (item :: rest)) as [|oldest others] eqn:Hrev.
  - apply (f_equal (@length _)) in Hrev. rewrite length_rev in Hrev.
    discriminate.
  - cbn [imap]. destruct (memory_entry_starts 0 oldest) as [text ->].
    apply concat_cons_nonempty.
Qed.

Lemma prefix_concat_cons sep entry entries :
  String.prefix entry (String.concat sep (entry :: entries)) = true.
Proof.
  destruct entries; cbn [String.concat]; [|apply prefix_app].
  induction entry as [|c r IH]; simpl; [reflexivity|].
  destruct (ascii_dec c c); [exact IH|congruence].
Qed.

(** X11. The memory handed to the model. Without loaded items there is no
    memory text and the prompt is the task itself; with items the prompt is
    longer than the task. The items are loaded newest first and written
    oldest first: the text starts with the entry [Memory 1] of the last
    loaded item. Every entry names its task and its model, and ends with
    the line of the response summary: for a response in ASCII the summary
    is the response cut to its first 300 characters, the whole response
    when it is shorter, and empty for no response. *)
Theorem memory_prompt (items : list SessionMemoryItem) (task : string) :
  (buildMemoryPromptContext items = "" <-> items = [])
  /\ (promptWithMemory task (buildMemoryPromptContext items) = task
      <-> items = [])
  /\ (forall newer oldest,
        items = newer ++ [oldest] ->
        String.prefix (memory_entry 0 oldest) (buildMemoryPromptContext items)
        = true)
  /\ (forall index item,
        let response := Js.or_lit (mi_response item) "" in
        is_ascii_text response = true ->
        exists head summary rest,
          memory_entry index item
          = (head ++ "- Response summary: " ++ summary)%string
          /\ occurs ("- Task: " ++ mi_task item ++ newline) head
          /\ occurs ("- Model: " ++ mi_model_name item ++ " ("
                     ++ mi_model_role item ++ ")" ++ newline) head
          /\ response = (summary ++ rest)%string
          /\ String.length summary = Nat.min 300 (String.length response)).
Proof.
  assert (Hempty : buildMemoryPromptContext items = "" <-> items = []).
  { split.
    - intros H. destruct items as [|item rest]; [reflexivity|].
      destruct (buildMemoryPromptContext_nonempty (item :: rest)); congruence.
    - intros ->. reflexivity. }
  split; [exact Hempty|]. split; [|split].
  - unfold promptWithMemory.
    destruct (Js.truthy (Some (buildMemoryPromptContext items))) eqn:Htruthy.
    + split.
      * intros H. apply (f_equal String.length) in H.
        rewrite length_append in H. simpl in H. lia.
      * intros Hitems. apply Hempty in Hitems. apply truthy_Some in Htruthy.
        congruence.
    + split; [|reflexivity]. intros _. apply Hempty.
      destruct (String.eqb_spec (buildMemoryPromptContext items) "") as [H|H];
        [exact H|].
      apply truthy_Some in H. congruence.
  - intros newer oldest ->. unfold buildMemoryPromptContext.
    destruct (newer ++ [oldest]) as [|item rest] eqn:Hitems.
    + destruct newer; discriminate.
    + rewrite <- Hitems, rev_app_distr. cbn [rev app imap].
      apply prefix_concat_cons.
  - intros index item response _.
    destruct (prefix_split _ _ (slice0_prefix 300 response)) as [rest Hrest].
    exists ("Memory " ++ Js.string_of_Z (Z.of_nat (index + 1)) ++ ":" ++ newline
            ++ "- Task: " ++ mi_task item ++ newline
            ++ "- Model: " ++ mi_model_name item ++ " (" ++ mi_model_role item
            ++ ")" ++ newline)%string,
      (Js.slice0 300 response), rest.
    split; [|split; [|split; [|split]]].
    + unfold memory_entry. cbv zeta. fold response.
      rewrite !append_assoc. reflexivity.
    + exists ("Memory " ++ Js.string_of_Z (Z.of_nat (index + 1)) ++ ":"
              ++ newline)%string,
        ("- Model: " ++ mi_model_name item ++ " (" ++ mi_model_role item
         ++ ")" ++ newline)%string.
      rewrite !append_assoc. reflexivity.
    + exists ("Memory " ++ Js.string_of_Z (Z.of_nat (index + 1)) ++ ":" ++ newline
              ++ "- Task: " ++ mi_task item ++ newline)%string, "".
      rewrite !append_assoc.
      repeat (f_equal; try reflexivity).
    + exact Hrest.
    + apply substring_length.
Qed.

Lemma memory_prompt_witness :
  exists head,
    memory_entry 0 (memory_row "open the page")
    = (head ++ "- Response summary: done")%string.
Proof.
  destruct (memory_prompt [memory_row "open the page"] "next")
    as (_ & _ & _ & Hentry).
  destruct (Hentry 0 (memory_row "open the page") eq_refl)
    as (head & summary & rest & Hsplit & _ & _ & Hresponse & Hlength).
  exists head. rewrite Hsplit.
  cbn in Hresponse, Hlength.
  destruct summary as [|d [|o [|n [|e [|c s]]]]]; try discriminate.
  cbn in Hresponse. injection Hresponse as <- <- <- <- _. reflexivity.
Defined.

(** ** Tool set: isolation and results *)

Ltac keeps_call :=
  lazymatch goal with
  | |- keeps (adds_only _) (ask _ _) =>
      apply keeps_ask; cbn; rewrite ?String.eqb_refl; reflexivity
  | |- keeps (adds_only _) (call _) =>
      apply keeps_ask; cbn; rewrite ?String.eqb_refl; reflexivity
  | |- keeps (adds_only _) (close_page _) => apply close_page_keeps; reflexivity
  | |- keeps (adds_only _) (bringToFront _) =>
      apply bringToFront_keeps; reflexivity
  | |- keeps (adds_only _) (goto _ _) => apply goto_keeps; reflexivity
  | |- keeps (adds_only _) newPage => apply newPage_keeps; reflexivity
  end.

(** What [withVpsBrowser] adds to the history: the connect, the page it
    may create, the close, and what the operation adds. *)
Lemma withVpsBrowser_adds {T} allowed cdpWsUrl (run : nat -> M T) :
  allowed (connectOverCDP cdpWsUrl) = true ->
  allowed browser_close = true ->
  allowed context_newPage = true ->
  (forall p, keeps (adds_only allowed) (run p)) ->
  keeps (adds_only allowed) (withVpsBrowser cdpWsUrl run).
Proof.
  intros Hconnect Hclose Hnew Hrun.
  unfold withVpsBrowser, first_context, context_pages.
  keeps_auto; try apply Hrun; try (apply keeps_ask; assumption).
  apply newPage_keeps. exact Hnew.
Qed.

Lemma normalizeToSinglePageKernel_isolated sessionId :
  keeps (adds_only (on_managed_session sessionId))
    (normalizeToSinglePageKernel sessionId).
Proof.
  unfold normalizeToSinglePageKernel, kernel_execute, normalizeScript,
    context_pages, url_of.
  keeps_auto; keeps_call.
Qed.

Lemma createKernelComputerUseTool_isolated sessionId input :
  keeps (adds_only (on_managed_session sessionId))
    (createKernelComputerUseTool sessionId input).
Proof.
  unfold createKernelComputerUseTool. cbv zeta. keeps_auto; keeps_call.
Qed.

Lemma on_direct_endpoint_connect cdpWsUrl :
  on_direct_endpoint cdpWsUrl (connectOverCDP cdpWsUrl) = true.
Proof. apply String.eqb_refl. Qed.

Lemma normalizeToSinglePageVps_isolated cdpWsUrl :
  keeps (adds_only (on_direct_endpoint cdpWsUrl))
    (normalizeToSinglePageVps cdpWsUrl).
Proof.
  unfold normalizeToSinglePageVps. keeps_auto.
  apply withVpsBrowser_adds; auto using on_direct_endpoint_connect.
  intros p. unfold context_pages. keeps_auto; keeps_call.
Qed.

Lemma createVpsComputerUseTool_isolated cdpWsUrl input :
  keeps (adds_only (on_direct_endpoint cdpWsUrl))
    (createVpsComputerUseTool cdpWsUrl input).
Proof.
  unfold createVpsComputerUseTool.
  apply withVpsBrowser_adds; auto using on_direct_endpoint_connect.
  intros p. unfold url_of. keeps_auto; keeps_call.
Qed.

(** What the raw-code tool adds to the history: the connect, the page it
    may create, the record of the run and the close; and the calls of the
    text, which are [allowed] when the texts of the outside keep to
    [allowed]. *)
Lemma createVpsPlaywrightExecuteTool_within (a b : Op -> bool) cdpWsUrl code :
  b (connectOverCDP cdpWsUrl) = true ->
  b browser_close = true ->
  b context_newPage = true ->
  (forall page, b (execute_code page code) = true) ->
  (forall op, a op = true -> b (from_code op) = true) ->
  keeps (adds_only_if (code_within a) b)
    (createVpsPlaywrightExecuteTool cdpWsUrl code).
Proof.
  intros Hconnect Hclose Hnew Hrun Hab.
  unfold createVpsPlaywrightExecuteTool, withVpsBrowser, first_context,
    context_pages, newPage.
  keeps_auto; try (apply keeps_if, keeps_ask; assumption).
  apply keeps_executeCode_if; [apply Hrun|exact Hab].
Qed.

Lemma code_within_any oracle : code_within any_op oracle.
Proof. intros history op. apply calls_only_any. reflexivity. Qed.

(** X12. Isolation of the backends. The normalizer and the tool of the
    managed backend, bound to a session, only make requests for that
    session (besides what the normalization text does in the browser of the
    session, and the console); the normalizer and the [computer_use] tool
    of the direct backend, bound to an endpoint, connect to that endpoint
    only and act on its browser. None of them calls the model, the memory
    store, the reachability probe or the other backend. The raw-code tool
    of the direct backend runs the text of the model in the process of the
    route: of its own it only connects to its endpoint, creates a page when
    there is none, runs that text and closes the browser; every other call
    is a call of the text, recorded as such, and it is an [allowed] call
    when the texts keep to [allowed] calls. Of a text that may call
    anything, nothing more holds. *)
Theorem backend_isolation :
  (forall sessionId,
     keeps (adds_only (on_managed_session sessionId))
       (normalizeToSinglePageKernel sessionId)
     /\ forall input,
          keeps (adds_only (on_managed_session sessionId))
            (createKernelComputerUseTool sessionId input))
  /\ (forall cdpWsUrl,
        keeps (adds_only (on_direct_endpoint cdpWsUrl))
          (normalizeToSinglePageVps cdpWsUrl)
        /\ (forall input,
              keeps (adds_only (on_direct_endpoint cdpWsUrl))
                (createVpsComputerUseTool cdpWsUrl input))
        /\ (forall allowed code w,
              code_within allowed (w_oracle w) ->
              adds_only
                (fun op => runs_code_at cdpWsUrl code op || by_code allowed op)
                w (snd (createVpsPlaywrightExecuteTool cdpWsUrl code w)))).
Proof.
  split.
  - intros sessionId. split.
    + apply normalizeToSinglePageKernel_isolated.
    + apply createKernelComputerUseTool_isolated.
  - intros cdpWsUrl. split; [|split].
    + apply normalizeToSinglePageVps_isolated.
    + apply createVpsComputerUseTool_isolated.
    + intros allowed code w.
      apply (createVpsPlaywrightExecuteTool_within allowed
               (fun op => runs_code_at cdpWsUrl code op || by_code allowed op));
        try reflexivity.
      * cbn. rewrite String.eqb_refl. reflexivity.
      * intros page. cbn. rewrite String.eqb_refl. reflexivity.
      * intros op Hop. exact Hop.
Qed.

(** A text that posts to a memory store: the call is in the history of the
    tool, which is no longer confined to its endpoint, as a call of the
    text. *)
Lemma backend_isolation_witness :
  adds_only
    (fun op => runs_code_at "ws://vps" "await fetch(store)" op
               || by_code any_op op)
    (world_of three_tabs code_posts_and_throws)
    (snd (createVpsPlaywrightExecuteTool "ws://vps" "await fetch(store)"
            (world_of three_tabs code_posts_and_throws)))
  /\ ~ adds_only (on_direct_endpoint "ws://vps")
         (world_of three_tabs code_posts_and_throws)
         (snd (createVpsPlaywrightExecuteTool "ws://vps" "await fetch(store)"
                 (world_of three_tabs code_posts_and_throws))).
Proof.
  split.
  - destruct backend_isolation as [_ Hdirect].
    destruct (Hdirect "ws://vps") as (_ & _ & Hcode).
    apply Hcode. apply code_within_any.
  - intros (_ & added & Htrace & Hadded). vm_compute in Htrace.
    destruct added as [|e1 [|e2 rest]]; try discriminate.
    injection Htrace as <- <- _.
    inversion Hadded as [|? ? _ Hrest]. subst.
    inversion Hrest as [|? ? He2 _]. discriminate.
Defined.

(** An invocation that lacks a required parameter throws at once inside the
    connection, with a message that names what is missing. *)
Lemma direct_tool_invalid cdpWsUrl input :
  missing_parameters input <> [] ->
  exists message (run : nat -> M ToolValue),
    createVpsComputerUseTool cdpWsUrl input = withVpsBrowser cdpWsUrl run
    /\ (forall p w, run p w = (Throw message, w))
    /\ Forall (fun name => names_parameter message name = true)
         (missing_parameters input).
Proof.
  unfold createVpsComputerUseTool, missing_parameters.
  destruct input as [action url x y button text key dx dy ms full].
  cbn [in_action in_url in_x in_y in_text in_key].
  destruct action; try (intros H; contradiction H; reflexivity).
  - destruct url as [url|].
    + destruct (falsy (Some url)); [|intros H; contradiction H; reflexivity].
      intros _. eexists _, _. split; [reflexivity|].
      split; [intros; reflexivity|]. repeat constructor.
    + intros _. eexists _, _. split; [reflexivity|].
      split; [intros; reflexivity|]. repeat constructor.
  - destruct x as [x|], y as [y|]; cbn [app];
      try (intros H; contradiction H; reflexivity); intros _;
      (eexists _, _; split; [reflexivity|];
       split; [intros; reflexivity|]; repeat constructor).
  - destruct x as [x|], y as [y|]; cbn [app];
      try (intros H; contradiction H; reflexivity); intros _;
      (eexists _, _; split; [reflexivity|];
       split; [intros; reflexivity|]; repeat constructor).
  - destruct text as [text|].
    + destruct (falsy (Some text)); [|intros H; contradiction H; reflexivity].
      intros _. eexists _, _. split; [reflexivity|].
      split; [intros; reflexivity|]. repeat constructor.
    + intros _. eexists _, _. split; [reflexivity|].
      split; [intros; reflexivity|]. repeat constructor.
  - destruct key as [key|].
    + destruct (falsy (Some key)); [|intros H; contradiction H; reflexivity].
      intros _. eexists _, _. split; [reflexivity|].
      split; [intros; reflexivity|]. repeat constructor.
    + intros _. eexists _, _. split; [reflexivity|].
      split; [intros; reflexivity|]. repeat constructor.
Qed.

(** X13. On the direct backend an invocation that lacks a required
    parameter acts on no page: besides connecting, creating a page when the
    context has none, and closing the connection, the tool makes no call.
    When the endpoint connects and its context has a page, the tool throws
    the error that names every missing parameter. *)
Theorem direct_tool_rejects_without_acting cdpWsUrl input w :
  missing_parameters input <> [] ->
  let r := createVpsComputerUseTool cdpWsUrl input w in
  adds_only is_connection_setup w (snd r)
  /\ (forall v,
        o_reply (w_oracle w) (w_trace w) (connectOverCDP cdpWsUrl) = Ok v ->
        w_has_context w = true -> w_pages w <> [] ->
        exists message,
          fst r = Throw message
          /\ Forall (fun name => names_parameter message name = true)
               (missing_parameters input)).
Proof.
  intros Hmissing.
  destruct (direct_tool_invalid cdpWsUrl input Hmissing)
    as (message & run & -> & Hrun & Hnames).
  cbv zeta. split.
  - apply withVpsBrowser_adds; try reflexivity.
    intros p w'. rewrite Hrun. apply adds_only_refl.
  - intros v Hconnect Hcontext Hpages. exists message. split; [|exact Hnames].
    destruct (w_pages w) as [|first rest] eqn:Hw; [congruence|].
    erewrite withVpsBrowser_connected;
      [|exact Hconnect|exact Hcontext|rewrite Hw; apply selectPrimaryPage_cons].
    rewrite Hrun. reflexivity.
Qed.

Lemma direct_tool_rejects_without_acting_witness :
  adds_only is_connection_setup (world_of three_tabs always_ok)
    (snd (createVpsComputerUseTool "ws://vps" (bare navigate)
            (world_of three_tabs always_ok)))
  /\ exists message,
       fst (createVpsComputerUseTool "ws://vps" (bare navigate)
              (world_of three_tabs always_ok)) = Throw message
       /\ names_parameter message "url" = true.
Proof.
  destruct (direct_tool_rejects_without_acting "ws://vps" (bare navigate)
              (world_of three_tabs always_ok)) as [Hadds Hthrows];
    [discriminate|].
  split; [exact Hadds|].
  destruct (Hthrows "" eq_refl eq_refl) as (message & Hrun & Hnames);
    [discriminate|].
  exists message. split; [exact Hrun|].
  inversion Hnames as [|? ? Hurl _]. exact Hurl.
Defined.

Lemma ceil_div_bounds a :
  (0 <= a)%Z ->
  (a <= 1000 * Js.ceil_div a 1000 < a + 1000)%Z.
Proof.
  intros Ha. unfold Js.ceil_div.
  pose proof (Z.div_mod (- a) 1000 ltac:(lia)) as Hdiv.
  pose proof (Z.mod_pos_bound (- a) 1000 ltac:(lia)) as Hmod.
  lia.
Qed.

(** X14. A wait on the managed backend is one request to the service: the
    code that waits for the given time (1000 ms when none is given), with a
    time limit for the request of whole seconds that exceeds the wait by at
    least five seconds and by less than six. For a wait the schema admits
    (0 to 30000 ms) the limit lies between 5 and 35 seconds. What the
    service answers is what the tool returns, and a request that fails is
    the tool's failure. *)
Theorem managed_wait_time_limit sessionId input w :
  in_action input = wait ->
  let waitMs := Js.nullish (in_waitMs input) 1000%Z in
  (0 <= waitMs <= 30000)%Z ->
  exists timeout_sec,
    let request :=
      kernel_playwright_execute sessionId (wait_code waitMs) timeout_sec in
    let answer := o_reply (w_oracle w) (w_trace w) request in
    createKernelComputerUseTool sessionId input w
    = (match answer with
       | Ok payload => Ok (tv_service payload)
       | Throw e => Throw e
       end,
       record_event {| ev_op := request; ev_ok := succeeded answer |} w)
    /\ (waitMs + 5000 <= 1000 * timeout_sec < waitMs + 6000)%Z
    /\ (5 <= timeout_sec <= 35)%Z.
Proof.
  intros Haction waitMs Hrange.
  exists (Js.ceil_div waitMs 1000 + 5)%Z. cbv zeta.
  pose proof (ceil_div_bounds waitMs ltac:(lia)) as Hceil.
  split; [|lia].
  unfold createKernelComputerUseTool. rewrite Haction. fold waitMs.
  unfold call, ask, mbind, M_bind.
  destruct (o_reply _ _ _); reflexivity.
Qed.

Lemma managed_wait_time_limit_witness :
  exists timeout_sec,
    createKernelComputerUseTool "s1" (bare wait) (world_of three_tabs always_ok)
    = (Ok (tv_service ""),
       record_event
         {| ev_op := kernel_playwright_execute "s1" (wait_code 1000) timeout_sec;
            ev_ok := true |}
         (world_of three_tabs always_ok))
    /\ (5 <= timeout_sec <= 35)%Z.
Proof.
  destruct (managed_wait_time_limit "s1" (bare wait)
              (world_of three_tabs always_ok) eq_refl)
    as (timeout_sec & Hrun & _ & Hbounds); [simpl; lia|].
  exists timeout_sec. split; [exact Hrun|exact Hbounds].
Defined.

(** *** What the tools return *)















(** ** Pages: what the connector runs on and what normalization leaves *)

(** X16. The page an operation of the direct backend runs on. Once the
    endpoint connects and has a context, the operation runs between the
    connect and the close on a page that is open: on the primary page of
    the context (the first content page, or the first page) when the
    context has pages, no page being created then; and when the context has
    none, on the blank page created for it, which is then the only page.
    When creating that page fails the operation does not run, and the
    failure is the operation's. *)
Theorem operation_runs_on_open_page {T} (cdpWsUrl : string) (run : nat -> M T)
    (w : World) (v : string) :
  o_reply (w_oracle w) (w_trace w) (connectOverCDP cdpWsUrl) = Ok v ->
  w_has_context w = true ->
  let w0 := record_event {| ev_op := connectOverCDP cdpWsUrl; ev_ok := true |} w in
  let outcome := connected_body run w0 in
  withVpsBrowser cdpWsUrl run w
  = (fst outcome, record_event (closing_event (snd outcome)) (snd outcome))
  /\ (w_pages w <> [] ->
      exists primary,
        primary ∈ w_pages w
        /\ first_content_or_first (w_pages w) primary
        /\ outcome = run (pid primary) w0)
  /\ (w_pages w = [] ->
      match o_reply (w_oracle w) (w_trace w0) context_newPage with
      | Ok _ =>
          let w1 :=
            add_blank_page
              (record_event {| ev_op := context_newPage; ev_ok := true |} w0) in
          w_pages w1 = [blank_page w] /\ outcome = run (pid (blank_page w)) w1
      | Throw e =>
          outcome
          = (Throw e,
             record_event {| ev_op := context_newPage; ev_ok := false |} w0)
      end).
Proof.
  intros Hconnect Hcontext w0 outcome.
  split; [apply (withVpsBrowser_opened _ _ _ _ Hconnect)|].
  exact (connected_body_page run w0 Hcontext).
Qed.

Lemma operation_runs_on_open_page_witness :
  fst (withVpsBrowser "ws://vps" url_of (world_of three_tabs always_ok))
  = Ok "https://example.com/"
  /\ fst (withVpsBrowser "ws://vps" url_of (world_of [] always_ok))
     = Ok "about:blank".
Proof.
  split.
  - destruct (operation_runs_on_open_page "ws://vps" url_of
                (world_of three_tabs always_ok) "" eq_refl eq_refl)
      as (Hrun & _ & _).
    rewrite Hrun. reflexivity.
  - destruct (operation_runs_on_open_page "ws://vps" url_of
                (world_of [] always_ok) "" eq_refl eq_refl)
      as (Hrun & _ & Hblank).
    rewrite Hrun. specialize (Hblank eq_refl). cbv zeta in Hblank.
    cbn in Hblank. destruct Hblank as [_ ->]. reflexivity.
Defined.

Lemma only_closes_refl w : only_closes w w.
Proof. unfold only_closes. reflexivity. Qed.

Lemma only_closes_trans w1 w2 w3 :
  only_closes w1 w2 -> only_closes w2 w3 -> only_closes w1 w3.
Proof. unfold only_closes. intros H12 H23. etrans; eassumption. Qed.

Ltac rel_refl ::=
  first [apply adds_only_refl | apply balanced_refl | apply adds_only_if_refl
        | apply only_closes_refl].
Ltac rel_trans ::=
  first [apply adds_only_trans | apply balanced_trans
        | apply adds_only_if_trans | apply only_closes_trans].

Lemma filter_sublist {A} (f : A -> bool) (l : list A) :
  List.filter f l `sublist_of` l.
Proof.
  induction l as [|x l IH]; simpl; [constructor|].
  destruct (f x); [apply sublist_skip|apply sublist_cons]; exact IH.
Qed.

Lemma ask_only_closes {A} (oracle : Oracle -> list Event -> Op -> Result A) op :
  keeps only_closes (ask oracle op).
Proof. intros w. unfold only_closes. reflexivity. Qed.

Lemma warn_only_closes msg : keeps only_closes (warn msg).
Proof. intros w. unfold only_closes. reflexivity. Qed.

Lemma close_page_only_closes p : keeps only_closes (close_page p).
Proof.
  unfold close_page. keeps_auto; [apply ask_only_closes|].
  intros w. apply filter_sublist.
Qed.

Lemma bringToFront_only_closes p : keeps only_closes (bringToFront p).
Proof. unfold bringToFront. keeps_auto. apply ask_only_closes. Qed.

Ltac only_closes_call :=
  lazymatch goal with
  | |- keeps only_closes (call _) => apply ask_only_closes
  | |- keeps only_closes (warn _) => apply warn_only_closes
  | |- keeps only_closes (close_page _) => apply close_page_only_closes
  | |- keeps only_closes (bringToFront _) => apply bringToFront_only_closes
  end.

(** An operation that only closes pages, run on a context that has pages. *)
Lemma withVpsBrowser_only_closes {T} cdpWsUrl (run : nat -> M T) w :
  w_pages w <> [] ->
  (forall p, keeps only_closes (run p)) ->
  only_closes w (snd (withVpsBrowser cdpWsUrl run w)).
Proof.
  intros Hpages Hrun.
  destruct (o_reply (w_oracle w) (w_trace w) (connectOverCDP cdpWsUrl))
    as [e|v] eqn:Hconnect.
  - rewrite (withVpsBrowser_unreachable _ _ _ _ Hconnect).
    unfold only_closes. reflexivity.
  - destruct (w_has_context w) eqn:Hcontext.
    + destruct (w_pages w) as [|first rest] eqn:Hw; [congruence|].
      erewrite withVpsBrowser_connected;
        [|exact Hconnect|exact Hcontext
         |rewrite Hw; apply selectPrimaryPage_cons].
      unfold only_closes. cbn [snd record_event w_pages].
      rewrite <- Hw.
      exact (Hrun _ (record_event _ w)).
    + rewrite (withVpsBrowser_no_context _ _ _ _ Hconnect Hcontext).
      unfold only_closes. reflexivity.
Qed.

(** X17. Normalization opens nothing in a session that has a page: the
    pages open after it are pages that were open before, in the same order
    and at the same URLs, so there are no more of them than before; this
    holds for both backends whatever the outside answers. On a session
    without pages the managed normalizer leaves none, while the direct one
    leaves none or the one blank page the connector created. *)
Theorem normalization_only_closes (w : World) :
  (forall sessionId,
     let after := w_pages (snd (normalizeToSinglePageKernel sessionId w)) in
     after `sublist_of` w_pages w /\ length after <= length (w_pages w))
  /\ (forall cdpWsUrl,
        let after := w_pages (snd (normalizeToSinglePageVps cdpWsUrl w)) in
        (w_pages w <> [] ->
         after `sublist_of` w_pages w /\ length after <= length (w_pages w))
        /\ (w_pages w = [] -> after = [] \/ after = [blank_page w])).
Proof.
  split.
  - intros sessionId after.
    assert (Hsub : after `sublist_of` w_pages w).
    { subst after. revert w.
      change (keeps only_closes (normalizeToSinglePageKernel sessionId)).
      unfold normalizeToSinglePageKernel, kernel_execute, normalizeScript,
        context_pages, url_of.
      keeps_auto; only_closes_call. }
    split; [exact Hsub|]. apply sublist_length. exact Hsub.
  - intros cdpWsUrl after. split.
    + intros Hpages.
      assert (Hsub : after `sublist_of` w_pages w).
      { subst after. unfold normalizeToSinglePageVps, try_catch.
        match goal with
        | |- context [withVpsBrowser cdpWsUrl ?run] =>
            pose proof (withVpsBrowser_only_closes cdpWsUrl run w Hpages) as H
        end.
        unfold mbind at 1, M_bind at 1.
        destruct (withVpsBrowser _ _ w) as [[e|n] w']; cbn [snd] in *;
          apply H; intros p; unfold context_pages;
          keeps_auto; only_closes_call. }
      split; [exact Hsub|]. apply sublist_length. exact Hsub.
    + intros Hpages. subst after.
      unfold normalizeToSinglePageVps, try_catch.
      destruct (o_reply (w_oracle w) (w_trace w) (connectOverCDP cdpWsUrl))
        as [e|v] eqn:Hconnect.
      { erewrite bind_Throw by (apply withVpsBrowser_unreachable; exact Hconnect).
        left. exact Hpages. }
      destruct (w_has_context w) eqn:Hcontext.
      2:{ erewrite bind_Throw
            by (apply (withVpsBrowser_no_context _ _ _ _ Hconnect Hcontext)).
          left. exact Hpages. }
      match goal with
      | |- context [withVpsBrowser cdpWsUrl ?r] => set (run := r)
      end.
      pose proof (withVpsBrowser_opened cdpWsUrl run w v Hconnect) as Hrun.
      cbv zeta in Hrun.
      destruct (connected_body_page run
                  (record_event
                     {| ev_op := connectOverCDP cdpWsUrl; ev_ok := true |} w)
                  Hcontext) as [_ Hblank].
      specialize (Hblank Hpages).
      change (blank_page (record_event _ w)) with (blank_page w) in Hblank.
      change (w_oracle (record_event _ w)) with (w_oracle w) in Hblank.
      destruct (o_reply (w_oracle w) _ context_newPage) as [e|page].
      * rewrite Hblank in Hrun. erewrite bind_Throw by exact Hrun.
        left. exact Hpages.
      * cbv zeta in Hblank. destruct Hblank as [Hone Hout].
        rewrite Hout in Hrun. clear Hout.
        match type of Hone with
        | w_pages ?world = _ => set (w1 := world) in *
        end.
        assert (Hcallback : exists n w2,
                   run (pid (blank_page w)) w1 = (Ok n, w2)
                   /\ w_pages w2 = w_pages w1).
        { unfold run, context_pages. rewrite bind_read, Hone.
          change (for_of [blank_page w] _)
            with (close_others (pid (blank_page w)) [blank_page w]).
          erewrite bind_Ok by apply close_others_single.
          erewrite bind_Ok by apply swallow_bringToFront.
          rewrite bind_read. eexists _, _. split; [reflexivity|exact Hone]. }
        destruct Hcallback as (n & w2 & Hcallback & Hsame).
        rewrite Hcallback in Hrun. erewrite bind_Ok by exact Hrun.
        right. cbn. rewrite Hsame. exact Hone.
Qed.

(** ** The route: checks, endpoint, memory and failures *)

Section Adds.

Variable allowed : Op -> bool.

Lemma dispatch_adds tools c :
  tools_keep allowed tools -> keeps (adds_only allowed) (dispatch tools c).
Proof.
  intros [Hexecute Huse]. unfold dispatch. keeps_auto; auto.
Qed.

Hypothesis allowed_model :
  forall baseURL model prompt,
    allowed (model_generate baseURL model prompt) = true.

Lemma agent_step_adds agent prompt :
  tools_keep allowed (ag_tools agent) ->
  keeps (adds_only allowed) (agent_step agent prompt).
Proof.
  intros Htools. unfold agent_step. keeps_auto.
  - apply keeps_ask. apply allowed_model.
  - apply dispatch_adds. exact Htools.
Qed.

Lemma agent_loop_adds fuel stopWhen next steps :
  keeps (adds_only allowed) next ->
  keeps (adds_only allowed) (agent_loop fuel stopWhen next steps).
Proof.
  intros Hnext. revert steps.
  induction fuel as [|fuel IH]; intros steps; simpl; keeps_auto;
    [exact Hnext|apply IH].
Qed.

Lemma generate_adds agent prompt :
  tools_keep allowed (ag_tools agent) ->
  keeps (adds_only allowed) (generate agent prompt).
Proof.
  intros Htools. unfold generate. keeps_auto.
  apply agent_loop_adds, agent_step_adds, Htools.
Qed.

End Adds.

Section AddsIf.

Variable P : Oracle -> Prop.
Variable allowed : Op -> bool.

Lemma dispatch_adds_if tools c :
  tools_keep_if P allowed tools ->
  keeps (adds_only_if P allowed) (dispatch tools c).
Proof.
  intros [Hexecute Huse]. unfold dispatch. keeps_auto; auto.
Qed.

Hypothesis allowed_model :
  forall baseURL model prompt,
    allowed (model_generate baseURL model prompt) = true.

Lemma agent_step_adds_if agent prompt :
  tools_keep_if P allowed (ag_tools agent) ->
  keeps (adds_only_if P allowed) (agent_step agent prompt).
Proof.
  intros Htools. unfold agent_step. keeps_auto.
  - apply keeps_if, keeps_ask. apply allowed_model.
  - apply dispatch_adds_if. exact Htools.
Qed.

Lemma agent_loop_adds_if fuel stopWhen next steps :
  keeps (adds_only_if P allowed) next ->
  keeps (adds_only_if P allowed) (agent_loop fuel stopWhen next steps).
Proof.
  intros Hnext. revert steps.
  induction fuel as [|fuel IH]; intros steps; simpl; keeps_auto;
    [exact Hnext|apply IH].
Qed.

Lemma generate_adds_if agent prompt :
  tools_keep_if P allowed (ag_tools agent) ->
  keeps (adds_only_if P allowed) (generate agent prompt).
Proof.
  intros Htools. unfold generate. keeps_auto.
  apply agent_loop_adds_if, agent_step_adds_if, Htools.
Qed.

End AddsIf.

Lemma saveSessionMemory_keeps env input :
  keeps (adds_only any_op) (saveSessionMemory env input).
Proof. unfold saveSessionMemory. keeps_auto. Qed.

(** The first call of the direct normalizer is the connect. *)
Lemma normalizeToSinglePageVps_connects cdpWsUrl w :
  attempted (connectOverCDP cdpWsUrl) w
    (snd (normalizeToSinglePageVps cdpWsUrl w)).
Proof.
  assert (Hfirst : forall w0 ok,
            w0 = record_event
                   {| ev_op := connectOverCDP cdpWsUrl; ev_ok := ok |} w ->
            attempted (connectOverCDP cdpWsUrl) w w0).
  { intros w0 ok ->. exists [], ok, []. reflexivity. }
  unfold normalizeToSinglePageVps, try_catch.
  destruct (o_reply (w_oracle w) (w_trace w) (connectOverCDP cdpWsUrl))
    as [e|v] eqn:Hconnect.
  - erewrite bind_Throw by (apply withVpsBrowser_unreachable; exact Hconnect).
    eapply (attempted_later _ _ _ _ any_op); [eapply Hfirst; reflexivity|].
    apply adds_only_event. reflexivity.
  - match goal with
    | |- context [withVpsBrowser cdpWsUrl ?r] => set (run := r)
    end.
    pose proof (withVpsBrowser_opened cdpWsUrl run w v Hconnect) as Hrun.
    cbv zeta in Hrun.
    set (w0 := record_event _ w) in Hrun.
    assert (Hbody : adds_only any_op w0 (snd (connected_body run w0))).
    { apply (adds_only_weaken not_connection); [reflexivity|].
      apply connected_body_keeps. intros p. apply normalize_callback_keeps. }
    assert (Hall : attempted (connectOverCDP cdpWsUrl) w
                     (snd (withVpsBrowser cdpWsUrl run w))).
    { rewrite Hrun. cbn [snd].
      eapply (attempted_later _ _ _ _ any_op); [eapply Hfirst; reflexivity|].
      eapply adds_only_trans; [exact Hbody|].
      apply adds_only_event. reflexivity. }
    unfold mbind at 1, M_bind at 1.
    destruct (withVpsBrowser cdpWsUrl run w) as [[e|n] w1]; cbn [snd] in *.
    + eapply (attempted_later _ _ _ _ any_op); [exact Hall|].
      apply adds_only_event. reflexivity.
    + exact Hall.
Qed.

(** X18. A request with a task for the managed backend is checked before
    anything is done with a browser: without the access key in the
    environment it is answered with status 400 and the message about the
    key, whether or not it names a session; with the key and without a
    session it is answered with status 400 and the message about the
    session. In both cases the route has made only its probe and its read
    of the session memory. *)
Theorem managed_request_checks
    (kt : string -> string -> M ToolValue) (env : Env) (body : RequestBody)
    (w : World) :
  resolveSandboxProvider env (req_provider body) = kernel ->
  Js.truthy (req_task body) = true ->
  Js.truthy (env !! "KERNEL_API_KEY") && Js.truthy (req_sessionId body) = false ->
  exists w',
    POST kt env (json_request body) w
    = (Ok {| status := 400;
             body := error_body
                       (if Js.truthy (env !! "KERNEL_API_KEY")
                        then missing_session else missing_access_key) |}, w')
    /\ adds_only is_preflight w w'
    /\ w_pages w' = w_pages w.
Proof.
  intros Hprovider Htask Hcheck.
  destruct (req_task body) as [task|] eqn:Hbody; [|discriminate].
  destruct (POST_preflight kt env body task w Hbody Htask)
    as (ollamaRuntime & sessionMemory & w2 & Hadds & Hpages & Hrun).
  exists w2. split; [|split; assumption].
  rewrite Hrun, Hprovider. unfold try_catch, bind_tools. cbv zeta.
  rewrite falsy_truthy.
  destruct (Js.truthy (env !! "KERNEL_API_KEY")); cbn [negb].
  - destruct (req_sessionId body) as [sessionId|]; [|reflexivity].
    rewrite falsy_truthy. cbn [andb] in Hcheck. rewrite Hcheck. reflexivity.
  - reflexivity.
Qed.

Lemma managed_request_checks_witness :
  fst (POST serviceExecuteTool {[ "KERNEL_API_KEY" := "key" ]}
         (json_request {| req_sessionId := None; req_task := Some "open it";
                          req_cdpWsUrl := None; req_provider := None |})
         (world_of three_tabs always_ok))
  = Ok {| status := 400; body := error_body missing_session |}.
Proof.
  destruct (managed_request_checks serviceExecuteTool
              {[ "KERNEL_API_KEY" := "key" ]}
              {| req_sessionId := None; req_task := Some "open it";
                 req_cdpWsUrl := None; req_provider := None |}
              (world_of three_tabs always_ok))
    as (w' & Hrun & _); [vm_compute; reflexivity..|].
  rewrite Hrun. vm_compute. reflexivity.
Defined.

(** The route from the binding of the tools on, for a direct request with
    an endpoint: the session is normalized over that endpoint. *)
Lemma POST_connects kt env body url w :
  resolveSandboxProvider env (req_provider body) = vps ->
  Js.truthy (req_task body) = true ->
  Js.or (req_cdpWsUrl body) (vc_cdpWsUrl <$> getVpsSandboxConfig env) = Some url ->
  url <> "" ->
  attempted (connectOverCDP url) w (snd (POST kt env (json_request body) w)).
Proof.
  intros Hprovider Htask Hurl Hnonempty.
  destruct (req_task body) as [task|] eqn:Hbody; [|discriminate].
  destruct (POST_preflight kt env body task w Hbody Htask)
    as (ollamaRuntime & sessionMemory & w2 & Hadds & _ & Hrun).
  rewrite Hrun, Hprovider. clear Hrun.
  eapply attempted_earlier; [exact Hadds|].
  unfold bind_tools. cbv zeta. rewrite Hurl.
  apply truthy_Some in Hnonempty. rewrite falsy_truthy, Hnonempty. cbn [negb].
  pose proof (normalizeToSinglePageVps_connects url w2) as Hconnects.
  destruct (run_total_keeps _ _ w2 (normalizeToSinglePageVps_total url)
              (normalizeToSinglePageVps_keeps url))
    as ([] & w3 & Hnormalize & _).
  rewrite Hnormalize in Hconnects. cbn [snd] in Hconnects.
  unfold try_catch at 1.
  erewrite bind_Ok.
  2:{ erewrite bind_Ok by exact Hnormalize. reflexivity. }
  cbv beta iota zeta.
  match goal with
  | |- attempted _ _ (snd (let (r, w') := ?m w3 in _)) =>
      assert (Htail : keeps (adds_only any_op)
                        (try_catch m
                           (fun error =>
                              warn ("Agent execution error: " ++ error)%string;;
                              mret {| status := 500;
                                      body := failure_body
                                        (Js.or_lit (Some error)
                                           "Failed to execute agent") |})))
  end.
  { keeps_auto; [|apply saveSessionMemory_keeps].
    apply generate_adds; [reflexivity|]. split; cbn [ag_tools].
    - apply createVpsPlaywrightExecuteTool_keeps.
    - apply createVpsComputerUseTool_keeps. }
  eapply attempted_later; [exact Hconnects|exact (Htail w3)].
Qed.

(** X19. The endpoint of a direct request. The request's own [cdpWsUrl]
    comes first; without it the endpoint of the environment is used, which
    needs both the live-view URL and the endpoint variable to be set: with
    either unset the request is rejected as one without an endpoint, even
    though the endpoint variable itself may be set. With an endpoint, the
    route connects to it: the connect to that very endpoint is attempted
    before the route answers. *)
Theorem direct_endpoint_resolution
    (kt : string -> string -> M ToolValue) (env : Env) (body : RequestBody)
    (w : World) :
  resolveSandboxProvider env (req_provider body) = vps ->
  Js.truthy (req_task body) = true ->
  let answer := POST kt env (json_request body) w in
  (forall url,
     req_cdpWsUrl body = Some url -> url <> "" ->
     attempted (connectOverCDP url) w (snd answer))
  /\ (forall liveViewUrl url,
        Js.truthy (req_cdpWsUrl body) = false ->
        env !! "VPS_SANDBOX_LIVE_VIEW_URL" = Some liveViewUrl ->
        liveViewUrl <> "" ->
        env !! "VPS_SANDBOX_CDP_WS_URL" = Some url -> url <> "" ->
        attempted (connectOverCDP url) w (snd answer))
  /\ (Js.truthy (req_cdpWsUrl body) = false ->
      Js.truthy (env !! "VPS_SANDBOX_LIVE_VIEW_URL")
      && Js.truthy (env !! "VPS_SANDBOX_CDP_WS_URL") = false ->
      fst answer = Ok {| status := 400; body := error_body missing_endpoint |}
      /\ adds_only is_preflight w (snd answer)).
Proof.
  intros Hprovider Htask answer. subst answer. split; [|split].
  - intros url Hurl Hnonempty.
    apply POST_connects; try assumption.
    unfold Js.or. rewrite Hurl. apply truthy_Some in Hnonempty.
    rewrite Hnonempty. reflexivity.
  - intros liveViewUrl url Hrequest Hlive Hlive' Hurl Hnonempty.
    apply POST_connects; try assumption.
    unfold Js.or. rewrite Hrequest. unfold getVpsSandboxConfig.
    rewrite Hlive, Hurl.
    apply String.eqb_neq in Hlive', Hnonempty.
    rewrite Hlive', Hnonempty. reflexivity.
  - intros Hrequest Hunset.
    assert (Hnone : getVpsSandboxConfig env = None).
    { unfold getVpsSandboxConfig, Js.truthy in *.
      destruct (env !! "VPS_SANDBOX_LIVE_VIEW_URL") as [l|]; [|reflexivity].
      destruct (env !! "VPS_SANDBOX_CDP_WS_URL") as [c|]; [|reflexivity].
      destruct (String.eqb l ""), (String.eqb c ""); try reflexivity.
      discriminate. }
    destruct (req_task body) as [task|] eqn:Hbody; [|discriminate].
    destruct (POST_preflight kt env body task w Hbody Htask)
      as (ollamaRuntime & sessionMemory & w2 & Hadds & _ & Hrun).
    rewrite Hrun, Hprovider, Hnone.
    unfold try_catch, bind_tools. cbv zeta. unfold Js.or. rewrite Hrequest.
    simpl. split; [reflexivity|exact Hadds].
Qed.

Lemma direct_endpoint_resolution_witness :
  fst (POST serviceExecuteTool {[ "VPS_SANDBOX_CDP_WS_URL" := "ws://vps" ]}
         (json_request direct_request) (world_of three_tabs always_ok))
  = Ok {| status := 400; body := error_body missing_endpoint |}
  /\ attempted (connectOverCDP "ws://vps") (world_of three_tabs always_ok)
       (snd (POST serviceExecuteTool
               {[ "VPS_SANDBOX_CDP_WS_URL" := "ws://vps";
                  "VPS_SANDBOX_LIVE_VIEW_URL" := "https://vps/view" ]}
               (json_request direct_request) (world_of three_tabs always_ok))).
Proof.
  split.
  - destruct (direct_endpoint_resolution serviceExecuteTool
                {[ "VPS_SANDBOX_CDP_WS_URL" := "ws://vps" ]} direct_request
                (world_of three_tabs always_ok)) as (_ & _ & Hrejected);
      [vm_compute; reflexivity..|].
    apply Hrejected; vm_compute; reflexivity.
  - destruct (direct_endpoint_resolution serviceExecuteTool
                {[ "VPS_SANDBOX_CDP_WS_URL" := "ws://vps";
                   "VPS_SANDBOX_LIVE_VIEW_URL" := "https://vps/view" ]}
                direct_request
                (world_of three_tabs always_ok)) as (_ & Hconnects & _);
      [vm_compute; reflexivity..|].
    apply (Hconnects "https://vps/view" "ws://vps");
      solve [vm_compute; reflexivity | discriminate].
Defined.

(** *** What a request leaves in the memory store *)



Lemma keeps_weaken {A} (a b : Op -> bool) (m : M A) :
  (forall op, a op = true -> b op = true) ->
  keeps (adds_only a) m -> keeps (adds_only b) m.
Proof. intros Hab Hm w. eapply adds_only_weaken; [exact Hab|apply Hm]. Qed.











(** The proviso is needed: a text that posts to a store is run in the
    process of the route, and its insert is in the history besides the
    route's own. *)
Lemma text_may_write_to_store :
  List.map (by_code any_op)
    (memory_inserts
       (w_trace (snd (POST serviceExecuteTool memory_env
                        (json_request scroll_request)
                        (world_of three_tabs asks_and_posts)))))
  = [true; false].
Proof. vm_compute. reflexivity. Qed.

(** *** Failures *)

Lemma bind_tools_no_failure kt env request provider config :
  ensures (fun bound =>
             match bound with
             | inl response => forall e, body response <> failure_body e
             | inr _ => True
             end)
    (bind_tools kt env request provider config).
Proof.
  unfold bind_tools. cbv zeta.
  repeat first
    [ apply ensures_ret; first [exact I|discriminate]
    | eapply ensures_bind; [apply ensures_any|intros ? _]
    | match goal with
      | |- ensures _ (match ?x with _ => _ end) => destruct x
      end ].
Qed.

Lemma generate_model_fails agent prompt e w :
  model_fails e w -> 1 <= ag_stepLimit agent ->
  exists w', generate agent prompt w = (Throw e, w').
Proof.
  intros Hmodel Hlimit. unfold generate.
  destruct (ag_stepLimit agent) as [|fuel] eqn:Hfuel; [lia|].
  eexists. erewrite bind_Throw; [reflexivity|].
  cbn [agent_loop]. erewrite bind_Throw; [reflexivity|].
  unfold agent_step. erewrite bind_Throw; [reflexivity|].
  unfold generateText. rewrite ask_run, Hmodel. reflexivity.
Qed.

(** X21. Failures of the route. An answer of the shape
    [{ success: false, error }] is only given for something that threw on
    the way, with status 500; its message is the message of what was
    thrown, or [Failed to execute agent] when that is empty, so it is never
    empty; and the failure is logged as the last thing the route does.
    A body that cannot be parsed is answered so without any call. A request
    that passes the checks and whose model call fails is answered so with
    the message of the model. *)
Theorem failures_are_reported
    (kt : string -> string -> M ToolValue) (env : Env) (w : World) :
  (forall req,
     match POST kt env req w with
     | (Ok response, w') =>
         forall message,
           body response = failure_body message ->
           message <> ""
           /\ exists e,
                response = failure_answer e
                /\ last (w_trace w') = Some (failure_logged e)
     | (Throw _, _) => False
     end)
  /\ (forall message,
        POST kt env (unparsable message) w
        = (Ok (failure_answer message), record_event (failure_logged message) w))
  /\ (forall request e,
        request_ready env request = true ->
        model_fails e w ->
        (forall sessionId code, keeps (adds_only any_op) (kt sessionId code)) ->
        fst (POST kt env (json_request request) w) = Ok (failure_answer e)).
Proof.
  split; [|split].
  - intros req. unfold POST.
    match goal with
    | |- context [try_catch ?m ?h] =>
        assert (Hinner : ensures (fun response =>
                                    forall e, body response <> failure_body e) m)
    end.
    { eapply ensures_bind; [apply ensures_any|]. intros request _. cbv zeta.
      destruct (req_task request) as [task|]; [|apply ensures_ret; discriminate].
      destruct (falsy (Some task)); [apply ensures_ret; discriminate|].
      eapply ensures_bind; [apply ensures_any|]. intros ollamaRuntime _.
      eapply ensures_bind; [apply ensures_any|]. intros sessionMemory _.
      eapply ensures_bind; [apply bind_tools_no_failure|].
      intros [response|tools] Hbound; [apply ensures_ret, Hbound|].
      eapply ensures_bind; [apply ensures_any|]. intros result _.
      eapply ensures_bind; [apply ensures_any|]. intros _ _.
      apply ensures_ret. discriminate. }
    unfold try_catch.
    match goal with
    | |- context [match ?m w with _ => _ end] =>
        specialize (Hinner w); destruct (m w) as [[e|response] w1]
    end.
    + cbv beta iota delta [mbind M_bind warn mret M_ret].
      intros message [= <-].
      split; [apply (or_lit_nonempty (Some e)); discriminate|].
      exists e. split; [reflexivity|]. cbn [w_trace record_event].
      apply last_snoc.
    + intros message Hbody. destruct (Hinner message Hbody).
  - intros message. reflexivity.
  - intros request e Hready Hmodel Hkt.
    pose proof Hready as Htask. unfold request_ready in Htask.
    apply andb_true_iff in Htask as [Htask _].
    destruct (req_task request) as [task|] eqn:Hbody; [|discriminate].
    destruct (POST_preflight kt env request task w Hbody Htask)
      as (ollamaRuntime & sessionMemory & w2 & Hadds2 & _ & Hrun).
    destruct (bind_tools_ready kt env request w2 Hready Hkt)
      as (tools & w3 & Hbound & _ & Hadds3).
    assert (Hmodel3 : model_fails e w3).
    { intros history op. destruct Hadds3 as [-> _]. destruct Hadds2 as [-> _].
      apply Hmodel. }
    rewrite Hrun. unfold try_catch.
    erewrite bind_Ok by exact Hbound. cbv beta iota zeta.
    match goal with
    | |- context [generate ?agent ?prompt] =>
        destruct (generate_model_fails agent prompt e w3 Hmodel3)
          as (w4 & Hgenerate); [cbn; lia|]
    end.
    erewrite bind_Throw by exact Hgenerate. reflexivity.
Qed.

Lemma failures_are_reported_witness :
  fst (POST serviceExecuteTool ∅ (json_request scroll_request)
         (world_of three_tabs model_down))
  = Ok {| status := 500; body := failure_body "model unavailable" |}.
Proof.
  destruct (failures_are_reported serviceExecuteTool ∅
              (world_of three_tabs model_down)) as (_ & _ & Hmodel).
  apply (Hmodel scroll_request "model unavailable").
  - vm_compute. reflexivity.
  - intros history op. reflexivity.
  - intros sessionId code. unfold serviceExecuteTool. keeps_auto.
Defined.

(** *** What a successful answer reports *)

Lemma fmap_succ_seq j n : (fun i => i + 1) <$> seq j n = seq (S j) n.
Proof.
  revert j. induction n as [|n IH]; intros j; [reflexivity|].
  cbn [seq fmap list_fmap]. f_equal; [lia|apply IH].
Qed.

Lemma detailedSteps_numbers steps :
  List.map stepNumber (detailedSteps steps) = seq 1 (length steps).
Proof.
  change (stepNumber <$> detailedSteps steps = seq 1 (length steps)).
  unfold detailedSteps. rewrite fmap_imap.
  rewrite (imap_ext _ (fun j _ => j + 1) steps) by reflexivity.
  rewrite imap_seq_0. apply fmap_succ_seq.
Qed.

Lemma bind_tools_rejects kt env request provider config :
  ensures (fun bound =>
             match bound with
             | inl response => exists e, body response = error_body e
             | inr _ => True
             end)
    (bind_tools kt env request provider config).
Proof.
  unfold bind_tools. cbv zeta.
  repeat first
    [ apply ensures_ret; first [exact I|eexists; reflexivity]
    | eapply ensures_bind; [apply ensures_any|intros ? _]
    | match goal with
      | |- ensures _ (match ?x with _ => _ end) => destruct x
      end ].
Qed.

Lemma sel_role_models task models models' :
  sel_role (selectModelForTask task models)
  = sel_role (selectModelForTask task models').
Proof.
  unfold selectModelForTask.
  destruct (has_any_word ocr_words _); [reflexivity|].
  destruct (has_any_word reasoning_words _); reflexivity.
Qed.

(** X26. A successful answer agrees with the request and with itself. Only
    a request with a task that is not empty is answered with success; the
    role the answer reports is the one the key words of that task select,
    the backend it reports is the one the request resolves to, its step
    count is the number of its detailed steps, which are numbered from 1 in
    order, and its executed codes are those collected from its detailed
    steps. *)
Theorem success_answer_agrees
    (kt : string -> string -> M ToolValue) (env : Env) (req : Request)
    (w : World) :
  match fst (POST kt env req w) with
  | Ok {| body := success_body run |} => answer_agrees env req run
  | Ok _ => True
  | Throw _ => False
  end.
Proof.
  assert (Hens : ensures (fun response =>
                            match body response with
                            | success_body run => answer_agrees env req run
                            | _ => True
                            end) (POST kt env req)).
  { unfold POST. apply ensures_try_catch.
    - destruct req as [message|request]; unfold req_json.
      + eapply (ensures_bind (fun _ => False)); [apply ensures_throw|].
        intros ? [].
      + eapply (ensures_bind (fun b => b = request));
          [apply ensures_ret; reflexivity|].
        intros ? ->. cbv zeta.
        destruct (req_task request) as [task|] eqn:Htask;
          [|apply ensures_ret; exact I].
        destruct (falsy (Some task)) eqn:Hfalsy; [apply ensures_ret; exact I|].
        eapply ensures_bind; [apply ensures_any|]. intros ollamaRuntime _.
        eapply ensures_bind; [apply ensures_any|]. intros sessionMemory _.
        eapply ensures_bind; [apply bind_tools_rejects|].
        intros [response|tools] Hbound.
        { apply ensures_ret. destruct Hbound as [e ->]. exact I. }
        eapply ensures_bind; [apply ensures_any|]. intros result _.
        eapply ensures_bind; [apply ensures_any|]. intros _ _.
        apply ensures_ret. cbn [body].
        exists request, task. split; [reflexivity|]. split; [exact Htask|].
        split.
        { apply truthy_Some. rewrite falsy_truthy in Hfalsy.
          apply negb_false_iff. exact Hfalsy. }
        cbn [run_llmRole run_sandboxProvider run_stepCount run_detailedSteps
               run_executedCodes].
        split; [apply sel_role_models|]. split; [reflexivity|].
        rewrite detailedSteps_length, detailedSteps_numbers. auto.
    - intros e. eapply ensures_bind; [apply ensures_any|]. intros _ _.
      apply ensures_ret. exact I. }
  destruct (POST_answers kt env req w) as (response & w' & Hrun & _).
  specialize (Hens w). rewrite Hrun in *. cbn [fst] in *.
  destruct response as [code [e|e|run]]; exact Hens || exact I.
Qed.

(** ** Voice routes *)

Lemma present_truthy v : Voice.present v = None <-> Js.truthy v = false.
Proof.
  destruct v as [s|]; simpl; [|tauto].
  destruct (String.eqb s ""); simpl; split; congruence.
Qed.

Lemma or_else_truthy a d :
  Voice.truthy (Some d) = true -> Voice.truthy (Some (Voice.or_else a d)) = true.
Proof.
  intros Hd. unfold Voice.or_else. destruct a as [v|]; [|exact Hd].
  destruct (Voice.truthy (Some v)) eqn:Hv; [exact Hv|exact Hd].
Qed.

Ltac voice_unfold :=
  unfold Stt.POST, Tts.POST, Stt.formData_audio, Voice.catch, Voice.fetch,
    Voice.await, Voice.Response_json, mbind, Voice.V_bind, mret, Voice.V_ret;
  change (Voice.carries_body 200) with true;
  change (Voice.carries_body 400) with true;
  change (Voice.carries_body 500) with true;
  change (Voice.carries_body 503) with true;
  cbv beta iota.

Ltac voice_case :=
  match goal with
  | |- context [match ?x with _ => _ end] =>
      lazymatch x with
      | context [match _ with _ => _ end] => fail
      | _ => destruct x eqn:?
      end
  | |- context [if ?x then _ else _] =>
      lazymatch x with
      | context [if _ then _ else _] => fail
      | context [match _ with _ => _ end] => fail
      | _ => destruct x eqn:?
      end
  end.

(** *** What is sent upstream *)

Lemma stt_sent env req pf :
  snd (Stt.POST env req pf [])
  = match uploaded req with
    | Some audio =>
        match Voice.present (env !! "VOICE_SERVICE_BASE_URL") with
        | Some base =>
            [Voice.voice_stt (Js.stripTrailingSlashes base ++ "/stt")
               (Js.or_lit (Some (Voice.file_name audio)) "audio.webm") audio]
        | None =>
            match Voice.present (env !! "OPENAI_API_KEY") with
            | Some key =>
                [Voice.openai_stt ("Bearer " ++ key)
                   (Js.or_lit (env !! "OPENAI_STT_MODEL")
                      "gpt-4o-mini-transcribe")
                   (Js.or_lit (Some (Voice.file_name audio)) "audio.webm")
                   audio]
            | None => []
            end
        end
    | None => []
    end.
Proof.
  voice_unfold. unfold uploaded.
  repeat voice_case; cbn [fst snd app]; reflexivity.
Qed.

Lemma no_provider_present env :
  no_provider env = true
  <-> Voice.present (env !! "VOICE_SERVICE_BASE_URL") = None
      /\ Voice.present (env !! "OPENAI_API_KEY") = None.
Proof.
  unfold no_provider. rewrite andb_true_iff, !negb_true_iff, !present_truthy.
  reflexivity.
Qed.

(** X22. What the speech-to-text route sends upstream: one request at
    most, never a second one to another provider or a retry; the request
    carries the audio file of the form as it was uploaded, and goes to the
    voice service (its base URL without trailing slashes, followed by
    [/stt]) whenever that is configured, and to the hosted API with its key
    only otherwise. Nothing is sent exactly when the form has no audio file
    (or cannot be read), or no provider is configured. *)
Theorem stt_requests (env : Env) (req : Stt.Request) (pf : Voice.Platform) :
  let sent := snd (Stt.POST env req pf []) in
  length sent <= 1
  /\ Forall (fun request =>
               request_audio request = uploaded req
               /\ provider_fits env "/stt" request) sent
  /\ (sent = [] <-> uploaded req = None \/ no_provider env = true).
Proof.
  cbv zeta. rewrite stt_sent. unfold provider_fits.
  rewrite no_provider_present.
  destruct (uploaded req) as [audio|].
  - destruct (Voice.present (env !! "VOICE_SERVICE_BASE_URL")) as [base|].
    + split; [simpl; lia|]. split; [repeat constructor|].
      split; [discriminate|]. intros [H|[H _]]; discriminate.
    + destruct (Voice.present (env !! "OPENAI_API_KEY")) as [key|].
      * split; [simpl; lia|]. split; [repeat econstructor|].
        split; [discriminate|]. intros [H|[_ H]]; discriminate.
      * split; [simpl; lia|]. split; [constructor|]. tauto.
  - split; [simpl; lia|]. split; [constructor|]. tauto.
Qed.

(** *** What the routes answer *)

Lemma jstring_set v d :
  d <> "" -> Voice.truthy (Some (Voice.JString (Js.or_lit v d))) = true.
Proof.
  intros H. simpl. apply negb_true_iff, String.eqb_neq, or_lit_nonempty, H.
Qed.

Ltac voice_finish :=
  repeat split; try reflexivity; try discriminate; try assumption;
  try congruence;
  try (apply jstring_set; discriminate);
  try (apply or_lit_nonempty; discriminate);
  try (repeat apply or_else_truthy; reflexivity);
  try (let Hs := fresh in
       intros Hs;
       match goal with
       | H : Voice.up_ok _ = false |- _ =>
           unfold Voice.up_ok in H; rewrite Hs in H; discriminate
       end).

(** X23. What the speech-to-text route answers. It always answers, with a
    status a response can carry. The status is 200 exactly when the body is
    a transcription; every other body is an error whose value is set (a
    message is never empty). Without a request sent upstream the status is
    400 for a form without an audio file, 503 when no provider is
    configured, and 500 for a body that is no form. With a request sent:
    an upstream answer that is ok gives the text of its payload (empty when
    it has none); an upstream failure is passed on with its own status
    when a response can carry it; and whenever the upstream cannot be
    reached or its body is not JSON the status is 500, also when the
    upstream itself answered with another failure status. *)
Theorem stt_answers (env : Env) (req : Stt.Request) (pf : Voice.Platform) :
  exists response,
    fst (Stt.POST env req pf []) = Ok response
    /\ Voice.carries_body (Voice.v_status response) = true
    /\ (Voice.v_status response = 200 <-> is_text (Voice.v_body response) = true)
    /\ is_audio (Voice.v_body response) = false
    /\ error_is_set (Voice.v_body response)
    /\ match snd (Stt.POST env req pf []) with
       | [] =>
           Voice.v_status response
           = match req with
             | Stt.unreadable _ => 500
             | _ => match uploaded req with Some _ => 503 | None => 400 end
             end
       | request :: _ =>
           match Voice.pf_fetch pf request with
           | Throw _ => Voice.v_status response = 500
           | Ok upstream =>
               match Voice.up_json upstream with
               | Throw _ => Voice.v_status response = 500
               | Ok payload =>
                   if Voice.up_ok upstream
                   then Voice.v_body response
                        = Voice.vb_text
                            (Voice.or_else (Voice.member "text" (Some payload))
                               (Voice.JString ""))
                   else Voice.carries_body (Voice.up_status upstream) = true ->
                        Voice.v_status response = Voice.up_status upstream
               end
           end
       end.
Proof.
  rewrite stt_sent. voice_unfold. unfold uploaded, Stt.normalizeBaseUrl.
  repeat (voice_case; cbv beta iota); cbn [fst snd app];
    (eexists; split; [reflexivity|]);
    cbn [Voice.v_status Voice.v_body is_text is_audio error_is_set];
    voice_finish.
Qed.

(** *** Text to speech *)

Lemma trimEnd_idempotent s : Js.trimEnd (Js.trimEnd s) = Js.trimEnd s.
Proof.
  induction s as [|c r IH]; [reflexivity|]. cbn [Js.trimEnd].
  destruct (Js.trimEnd r) as [|c' r'] eqn:Hr.
  - destruct (Js.is_space c) eqn:Hc; [reflexivity|].
    cbn [Js.trimEnd]. rewrite Hc. reflexivity.
  - cbn [Js.trimEnd] in *. rewrite IH. reflexivity.
Qed.

Lemma trimEnd_head c r :
  Js.is_space c = false -> exists r', Js.trimEnd (String c r) = String c r'.
Proof.
  intros Hc. cbn [Js.trimEnd]. destruct (Js.trimEnd r); [rewrite Hc|]; eauto.
Qed.

Lemma trimStart_head s :
  Js.trimStart s = ""
  \/ exists c r, Js.trimStart s = String c r /\ Js.is_space c = false.
Proof.
  induction s as [|c r IH]; [left; reflexivity|]. cbn [Js.trimStart].
  destruct (Js.is_space c) eqn:Hc; [exact IH|]. right. eauto.
Qed.

Lemma trim_idempotent s : Js.trim (Js.trim s) = Js.trim s.
Proof.
  unfold Js.trim. destruct (trimStart_head s) as [->|(c & r & -> & Hc)];
    [reflexivity|].
  destruct (trimEnd_head c r Hc) as [r' Hr']. rewrite Hr'.
  cbn [Js.trimStart]. rewrite Hc, <- Hr'. apply trimEnd_idempotent.
Qed.

Lemma tts_sent env req pf :
  snd (Tts.POST env req pf [])
  = match asked_text req with
    | Some text =>
        if String.eqb text "" then []
        else
          match Voice.present (env !! "VOICE_SERVICE_BASE_URL") with
          | Some base =>
              [Voice.voice_tts (Js.stripTrailingSlashes base ++ "/tts") text
                 (Js.or_lit (Js.or (asked_voice req)
                               (env !! "VOICE_SERVICE_VOICE")) "en-us")
                 (Js.or_lit (env !! "VOICE_SERVICE_SPEED") "170")]
          | None =>
              match Voice.present (env !! "OPENAI_API_KEY") with
              | Some key =>
                  [Voice.openai_tts ("Bearer " ++ key)
                     (Js.or_lit (env !! "OPENAI_TTS_MODEL") "gpt-4o-mini-tts")
                     (Js.or_lit (Js.or (asked_voice req)
                                   (env !! "OPENAI_TTS_VOICE")) "alloy")
                     text]
              | None => []
              end
          end
    | None => []
    end.
Proof.
  voice_unfold. unfold asked_text, asked_voice, falsy, Js.truthy.
  destruct req as [message|text voice]; [reflexivity|].
  destruct (String.eqb (Js.trim (Js.or_lit text "")) ""); cbn [negb];
    [reflexivity|].
  repeat voice_case; cbn [fst snd app]; reflexivity.
Qed.

Lemma or_lit_or_first a b d voice :
  a = Some voice -> voice <> "" -> Js.or_lit (Js.or a b) d = voice.
Proof.
  intros -> Hvoice. unfold Js.or.
  rewrite (proj2 (truthy_Some voice) Hvoice). simpl.
  apply String.eqb_neq in Hvoice. rewrite Hvoice. reflexivity.
Qed.

(** X24. What the text-to-speech route sends upstream, for a text in
    ASCII: one request at most.
    The text it carries is the text of the request with the white space
    around it removed, and it is never empty; the voice is the voice of the
    request when it names one, and never empty. The request goes to the
    voice service (its base URL without trailing slashes, followed by
    [/tts]) whenever that is configured, and to the hosted API with its key
    only otherwise. Nothing is sent exactly when the body cannot be parsed,
    the text is empty once trimmed, or no provider is configured. *)
Theorem tts_requests (env : Env) (req : Tts.Request) (pf : Voice.Platform) :
  ascii_request req = true ->
  let sent := snd (Tts.POST env req pf []) in
  length sent <= 1
  /\ Forall (fun request =>
               request_text request = asked_text req
               /\ (forall text, request_text request = Some text ->
                                text <> "" /\ Js.trim text = text)
               /\ provider_fits env "/tts" request
               /\ (forall voice, asked_voice req = Some voice -> voice <> "" ->
                                 request_voice request = Some voice)
               /\ request_voice request <> Some "") sent
  /\ (sent = []
      <-> asked_text req = None \/ asked_text req = Some ""
          \/ no_provider env = true).
Proof.
  intros _. cbv zeta. rewrite tts_sent. unfold provider_fits.
  rewrite no_provider_present.
  destruct (asked_text req) as [text|] eqn:Hasked;
    [|split; [simpl; lia|]; split; [constructor|]; tauto].
  destruct (String.eqb_spec text "") as [->|Htext];
    [split; [simpl; lia|]; split; [constructor|]; tauto|].
  assert (Htrimmed : Js.trim text = text).
  { destruct req as [message|t voice]; [discriminate|].
    injection Hasked as <-. apply trim_idempotent. }
  destruct (Voice.present (env !! "VOICE_SERVICE_BASE_URL")) as [base|].
  - split; [simpl; lia|]. split.
    + constructor; [|constructor]. cbn [request_text request_voice].
      split; [reflexivity|]. split; [intros ? [= <-]; auto|].
      split; [reflexivity|]. split.
      * intros voice Hvoice Hnonempty. f_equal.
        eapply or_lit_or_first; eassumption.
      * intros [= H]. revert H. apply or_lit_nonempty. discriminate.
    + split; [discriminate|]. intros [H|[H|[H _]]]; congruence.
  - destruct (Voice.present (env !! "OPENAI_API_KEY")) as [key|].
    + split; [simpl; lia|]. split.
      * constructor; [|constructor]. cbn [request_text request_voice].
        split; [reflexivity|]. split; [intros ? [= <-]; auto|].
        split; [eexists; split; reflexivity|]. split.
        -- intros voice Hvoice Hnonempty. f_equal.
           eapply or_lit_or_first; eassumption.
        -- intros [= H]. revert H. apply or_lit_nonempty. discriminate.
      * split; [discriminate|]. intros [H|[H|[_ H]]]; congruence.
    + split; [simpl; lia|]. split; [constructor|]. tauto.
Qed.

Lemma tts_requests_witness :
  Forall (fun request =>
            request_text request = Some "hello"
            /\ request_voice request = Some "en-gb"
            /\ to_voice_service request = Some "http://voice/tts")
    (snd (Tts.POST voice_env hello_request voice_platform [])).
Proof.
  destruct (tts_requests voice_env hello_request voice_platform eq_refl)
    as (_ & Hsent & _).
  eapply Forall_impl; [exact Hsent|].
  intros request (Htext & _ & Hprovider & Hvoice & _).
  split; [exact Htext|].
  split; [apply Hvoice; [reflexivity|discriminate]|exact Hprovider].
Defined.

(** X25. What the text-to-speech route answers, for a text in ASCII. It
    always answers, with a status a response can carry. A text that is empty once the white space
    around it is removed is rejected with status 400 and [Missing text].
    The status is 200 exactly when the body is audio, whose content type is
    then never empty; every other body is an error whose value is set.
    Without a request sent upstream the status is 400 for an empty text,
    503 when no provider is configured, and 500 for a body that cannot be
    parsed. With a request sent: an upstream answer that is ok gives its
    bytes as the audio; an upstream failure whose body can be read is
    passed on with its own status when a response can carry it; and when
    the upstream cannot be reached the status is 500. *)
Theorem tts_answers (env : Env) (req : Tts.Request) (pf : Voice.Platform) :
  ascii_request req = true ->
  exists response,
    fst (Tts.POST env req pf []) = Ok response
    /\ Voice.carries_body (Voice.v_status response) = true
    /\ (asked_text req = Some "" ->
        response = {| Voice.v_status := 400;
                      Voice.v_body :=
                        Voice.vb_error (Voice.JString "Missing text") |})
    /\ (Voice.v_status response = 200 <-> is_audio (Voice.v_body response) = true)
    /\ is_text (Voice.v_body response) = false
    /\ error_is_set (Voice.v_body response)
    /\ (forall audio contentType,
          Voice.v_body response = Voice.vb_audio audio contentType ->
          contentType <> "")
    /\ match snd (Tts.POST env req pf []) with
       | [] =>
           Voice.v_status response
           = match asked_text req with
             | None => 500
             | Some text => if String.eqb text "" then 400 else 503
             end
       | request :: _ =>
           match Voice.pf_fetch pf request with
           | Throw _ => Voice.v_status response = 500
           | Ok upstream =>
               if Voice.up_ok upstream
               then match Voice.up_arrayBuffer upstream with
                    | Ok audio =>
                        exists contentType,
                          Voice.v_body response
                          = Voice.vb_audio audio contentType
                    | Throw _ => Voice.v_status response = 500
                    end
               else failure_read request upstream = true ->
                    Voice.carries_body (Voice.up_status upstream) = true ->
                    Voice.v_status response = Voice.up_status upstream
           end
       end.
Proof.
  intros _. rewrite tts_sent. voice_unfold.
  unfold asked_text, asked_voice, Tts.normalizeBaseUrl, falsy, Js.truthy,
    failure_read.
  destruct req as [message|text voice].
  - eexists. split; [reflexivity|].
    cbn [Voice.v_status Voice.v_body is_text is_audio error_is_set].
    voice_finish.
  - destruct (String.eqb_spec (Js.trim (Js.or_lit text "")) "") as [Hblank|Htext];
      cbn [negb].
    + eexists. split; [reflexivity|].
      cbn [Voice.v_status Voice.v_body is_text is_audio error_is_set].
      voice_finish.
    + repeat (voice_case; cbv beta iota); cbn [fst snd app succeeded];
        (eexists; split; [reflexivity|]);
        cbn [Voice.v_status Voice.v_body is_text is_audio error_is_set];
        voice_finish;
        try (intros ? ? [= <- <-]; apply or_lit_nonempty; discriminate);
        try (intros [= ?]; congruence);
        eauto.
Qed.

Lemma tts_answers_witness :
  fst (Tts.POST voice_env hello_request voice_platform [])
  = Ok {| Voice.v_status := 200;
          Voice.v_body := Voice.vb_audio "RIFF" "audio/wav" |}
  /\ fst (Tts.POST voice_env (Tts.json (Some "   ") None) voice_platform [])
     = Ok {| Voice.v_status := 400;
             Voice.v_body := Voice.vb_error (Voice.JString "Missing text") |}.
Proof.
  split.
  - destruct (tts_answers voice_env hello_request voice_platform eq_refl)
      as (response & Hrun & _).
    rewrite Hrun. vm_compute in Hrun. congruence.
  - destruct (tts_answers voice_env (Tts.json (Some "   ") None)
                voice_platform eq_refl)
      as (response & Hrun & _ & Hblank & _).
    rewrite Hrun, (Hblank eq_refl). reflexivity.
Defined.

(** ** Inference backend and memory session *)

Lemma header_if_values name value :
  Forall (fun header : string * string => snd header <> "") (header_if name value).
Proof.
  unfold header_if. destruct value as [v|]; [|constructor].
  destruct (Js.truthy (Some v)) eqn:Hv; [|constructor].
  constructor; [|constructor]. apply truthy_Some. exact Hv.
Qed.

(** X27. The inference backend the route resolves is complete, whatever
    the environment holds: its base URL, its key and the models of the
    three roles are never empty (each falls back on a default); extra
    headers only go to the cloud backend, and only those that have a
    value. Resolving it makes exactly one call, the probe of the local
    endpoint. *)
Theorem runtime_config_is_complete (env : Env) (w : World) :
  exists config ok,
    resolveOllamaRuntimeConfig env w
    = (Ok config, record_event {| ev_op := local_probe env; ev_ok := ok |} w)
    /\ runtime_complete config.
Proof.
  unfold resolveOllamaRuntimeConfig, isOpenAICompatibleEndpointReachable,
    local_probe, try_catch, fetch.
  cbv zeta. unfold mbind at 1. unfold M_bind at 1. unfold mbind at 1.
  unfold M_bind at 1. rewrite ask_run.
  set (localKey := Js.or_lit (env !! "OLLAMA_API_KEY") "ollama").
  set (cloudApiKey := Js.or_lit (env !! "OLLAMA_CLOUD_API_KEY") localKey).
  assert (HlocalKey : localKey <> "")
    by (apply or_lit_nonempty; discriminate).
  assert (Hkey : cloudApiKey <> "") by (apply or_lit_nonempty; exact HlocalKey).
  assert (Hlocal : forall headers,
             headers = None ->
             runtime_complete
               {| rc_provider := local;
                  rc_baseURL := Js.or_lit (env !! "OLLAMA_BASE_URL")
                                  "http://localhost:11434/v1";
                  rc_apiKey := localKey;
                  rc_models :=
                    {| m_automation :=
                         Js.or_lit (Js.or (env !! "OLLAMA_MODEL_AUTOMATION")
                                      (env !! "OLLAMA_MODEL"))
                           (m_automation DEFAULT_MODELS);
                       m_reasoning :=
                         Js.or_lit (env !! "OLLAMA_MODEL_REASONING")
                           (m_reasoning DEFAULT_MODELS);
                       m_ocr := Js.or_lit (env !! "OLLAMA_MODEL_OCR")
                                  (m_ocr DEFAULT_MODELS) |};
                  rc_headers := headers |}).
  { intros headers ->. unfold runtime_complete. cbn.
    repeat split; try exact HlocalKey; apply or_lit_nonempty; discriminate. }
  assert (Hcloud : forall url,
             Js.truthy (Some url) && Js.truthy (Some cloudApiKey) = true ->
             runtime_complete
               {| rc_provider := cloud; rc_baseURL := url;
                  rc_apiKey := cloudApiKey;
                  rc_models :=
                    {| m_automation :=
                         Js.or_lit (Js.or (env !! "OLLAMA_CLOUD_MODEL_AUTOMATION")
                                      (env !! "OLLAMA_CLOUD_MODEL"))
                           (Js.or_lit (Js.or (env !! "OLLAMA_MODEL_AUTOMATION")
                                         (env !! "OLLAMA_MODEL"))
                              (m_automation DEFAULT_MODELS));
                       m_reasoning :=
                         Js.or_lit (env !! "OLLAMA_CLOUD_MODEL_REASONING")
                           (m_reasoning DEFAULT_MODELS);
                       m_ocr := Js.or_lit (env !! "OLLAMA_CLOUD_MODEL_OCR")
                                  (m_ocr DEFAULT_MODELS) |};
                  rc_headers :=
                    match (header_if "x-deployment-sha"
                             (env !! "OLLAMA_CLOUD_DEPLOYMENT_SHA")
                           ++ header_if "x-ssh-public-key"
                                (env !! "OLLAMA_CLOUD_SSH_PUBLIC_KEY"))%list with
                    | [] => None
                    | _ => Some (header_if "x-deployment-sha"
                                   (env !! "OLLAMA_CLOUD_DEPLOYMENT_SHA")
                                 ++ header_if "x-ssh-public-key"
                                      (env !! "OLLAMA_CLOUD_SSH_PUBLIC_KEY"))%list
                    end |}).
  { intros url Hurl. apply andb_true_iff in Hurl as [Hurl _].
    apply truthy_Some in Hurl. unfold runtime_complete.
    cbn [rc_baseURL rc_apiKey rc_models rc_headers rc_provider
           m_automation m_reasoning m_ocr].
    split; [exact Hurl|]. split; [exact Hkey|].
    split; [apply or_lit_nonempty, or_lit_nonempty; discriminate|].
    split; [apply or_lit_nonempty; discriminate|].
    split; [apply or_lit_nonempty; discriminate|].
    pose proof (header_if_values "x-deployment-sha"
                  (env !! "OLLAMA_CLOUD_DEPLOYMENT_SHA")) as Hsha.
    pose proof (header_if_values "x-ssh-public-key"
                  (env !! "OLLAMA_CLOUD_SSH_PUBLIC_KEY")) as Hssh.
    destruct (_ ++ _)%list as [|header headers] eqn:Hheaders; [exact I|].
    split; [reflexivity|]. split; [discriminate|].
    rewrite <- Hheaders. apply Forall_app. split; assumption. }
  destruct (o_fetch _ _ _) as [e|response]; cbn [succeeded].
  - cbv beta iota delta [mret M_ret].
    destruct (env !! "OLLAMA_CLOUD_BASE_URL") as [url|];
      [|eexists _, _; split; [reflexivity|apply Hlocal; reflexivity]].
    destruct (Js.truthy (Some url) && Js.truthy (Some cloudApiKey)) eqn:Hurl;
      eexists _, _; (split; [reflexivity|]);
      [apply Hcloud; exact Hurl|apply Hlocal; reflexivity].
  - cbv beta iota delta [mbind M_bind mret M_ret].
    destruct (resp_ok response);
      [eexists _, _; split; [reflexivity|apply Hlocal; reflexivity]|].
    destruct (env !! "OLLAMA_CLOUD_BASE_URL") as [url|];
      [|eexists _, _; split; [reflexivity|apply Hlocal; reflexivity]].
    destruct (Js.truthy (Some url) && Js.truthy (Some cloudApiKey)) eqn:Hurl;
      eexists _, _; (split; [reflexivity|]);
      [apply Hcloud; exact Hurl|apply Hlocal; reflexivity].
Qed.

(** *** The memory of a session *)

Lemma keeps_bind_ensures {A B} (R : World -> World -> Prop) (Q : A -> Prop)
    (m : M A) (f : A -> M B) :
  (forall w1 w2 w3, R w1 w2 -> R w2 w3 -> R w1 w3) ->
  keeps R m -> ensures Q m -> (forall a, Q a -> keeps R (f a)) ->
  keeps R (m ≫= f).
Proof.
  intros Htrans Hm Hq Hf w. specialize (Hm w). specialize (Hq w).
  unfold mbind, M_bind.
  destruct (m w) as [[e|a] w']; cbn [fst snd] in *; [exact Hm|].
  eapply Htrans; [exact Hm|]. apply Hf, Hq.
Qed.

Lemma on_managed_session_no_memory sessionId op :
  on_managed_session sessionId op = true -> no_memory op = true.
Proof. destruct op; simpl; congruence. Qed.

Lemma on_direct_endpoint_no_memory cdpWsUrl op :
  on_direct_endpoint cdpWsUrl op = true -> no_memory op = true.
Proof. destruct op; simpl; congruence. Qed.

Lemma no_memory_in_session sessionId op :
  no_memory op = true -> in_memory_session sessionId op = true.
Proof. induction op; simpl; try congruence. assumption. Qed.

Lemma bind_tools_no_memory kt env request provider config session :
  (forall sessionId code, keeps (adds_only no_memory) (kt sessionId code)) ->
  keeps (adds_only no_memory) (bind_tools kt env request provider config)
  /\ ensures (fun bound =>
                match bound with
                | inl _ => True
                | inr tools =>
                    tools_keep_if (code_within (in_memory_session session))
                      (in_memory_session session) tools
                end)
       (bind_tools kt env request provider config).
Proof.
  intros Hkt. split.
  - unfold bind_tools. cbv zeta. keeps_auto.
    + eapply keeps_weaken; [|apply normalizeToSinglePageKernel_isolated].
      apply on_managed_session_no_memory.
    + eapply keeps_weaken; [|apply normalizeToSinglePageVps_isolated].
      apply on_direct_endpoint_no_memory.
  - unfold bind_tools. cbv zeta.
    repeat first
      [ apply ensures_ret; exact I
      | eapply ensures_bind; [apply ensures_any|intros ? _]
      | match goal with
        | |- ensures _ (match ?x with _ => _ end) => destruct x
        end ].
    + apply ensures_ret. split; cbn [playwright_execute computer_use].
      * intros code. apply keeps_if.
        eapply keeps_weaken; [apply no_memory_in_session|apply Hkt].
      * intros input. apply keeps_if. eapply keeps_weaken;
          [|apply createKernelComputerUseTool_isolated].
        intros op Hop.
        apply no_memory_in_session, (on_managed_session_no_memory _ _ Hop).
    + apply ensures_ret. split; cbn [playwright_execute computer_use].
      * intros code.
        apply createVpsPlaywrightExecuteTool_within; try reflexivity.
        intros op Hop. exact Hop.
      * intros input. apply keeps_if. eapply keeps_weaken;
          [|apply createVpsComputerUseTool_isolated].
        intros op Hop.
        apply no_memory_in_session, (on_direct_endpoint_no_memory _ _ Hop).
Qed.

(** X28. A request stays within the memory of its own session. The session
    is the request's [sessionId], else the one configured for the direct
    backend, else the default name, and it is never empty; every read of
    the memory store and every write to it that is made while the route
    answers the request is for that session. This is so when the tool of
    the managed service does not call the store, and when no text the model
    has the direct backend run reads or writes the memory of another
    session: such a text runs in the process of the route and can. *)
Theorem memory_stays_in_session
    (kt : string -> string -> M ToolValue) (env : Env) (request : RequestBody)
    (w : World) :
  (forall sessionId code, keeps (adds_only no_memory) (kt sessionId code)) ->
  code_within (in_memory_session (memory_session env request)) (w_oracle w) ->
  memory_session env request <> ""
  /\ adds_only (in_memory_session (memory_session env request)) w
       (snd (POST kt env (json_request request) w)).
Proof.
  intros Hkt Hcode. split; [apply or_lit_nonempty; discriminate|].
  revert w Hcode.
  set (allowed := in_memory_session (memory_session env request)).
  change (keeps (adds_only_if (code_within allowed) allowed)
            (POST kt env (json_request request))).
  destruct (bind_tools_no_memory kt env request
              (resolveSandboxProvider env (req_provider request))
              (getVpsSandboxConfig env) (memory_session env request) Hkt)
    as [Hbind Htools].
  fold allowed in Htools.
  unfold POST, req_json.
  apply keeps_try_catch; [apply adds_only_if_trans| |intros; keeps_auto].
  apply (keeps_bind_ensures _ (fun b => b = request));
    [apply adds_only_if_trans|keeps_auto|apply ensures_ret; reflexivity|].
  intros ? ->. cbv zeta.
  destruct (req_task request) as [task|]; [|keeps_auto].
  destruct (falsy (Some task)); [keeps_auto|].
  apply keeps_bind; [apply adds_only_if_trans| |intros ollamaRuntime].
  { unfold resolveOllamaRuntimeConfig, isOpenAICompatibleEndpointReachable.
    cbv zeta. keeps_auto. }
  apply keeps_bind; [apply adds_only_if_trans| |intros sessionMemory].
  { unfold loadRecentSessionMemory. keeps_auto.
    apply keeps_if, keeps_ask. apply String.eqb_refl. }
  apply (keeps_bind_ensures _ _ _ _ (adds_only_if_trans _ _)
           (keeps_if _ _ _
              (keeps_weaken _ _ _ (no_memory_in_session _) Hbind)) Htools).
  intros [response|tools] Hbound; [keeps_auto|].
  apply keeps_bind; [apply adds_only_if_trans| |intros result].
  { apply generate_adds_if; [reflexivity|exact Hbound]. }
  apply keeps_bind; [apply adds_only_if_trans| |intros; keeps_auto].
  unfold saveSessionMemory. keeps_auto.
  apply keeps_if, keeps_ask. apply String.eqb_refl.
Qed.

Lemma serviceExecuteTool_no_memory sessionId code :
  keeps (adds_only no_memory) (serviceExecuteTool sessionId code).
Proof. unfold serviceExecuteTool. keeps_auto. Qed.

Lemma memory_stays_in_session_witness :
  Forall (fun e => in_memory_session "vps-sandbox-session" (ev_op e) = true)
    (w_trace (snd (POST serviceExecuteTool memory_env
                     (json_request scroll_request)
                     (world_of three_tabs asks_for_title)))).
Proof.
  destruct (memory_stays_in_session serviceExecuteTool memory_env
              scroll_request (world_of three_tabs asks_for_title)
              serviceExecuteTool_no_memory)
    as (_ & _ & added & Htrace & Hadded).
  - intros history op. destruct op; cbn; try exact I.
    split; [reflexivity|]. intros [e|title]; exact I.
  - rewrite Htrace. exact Hadded.
Defined.
